(** * Veo Studio - the generation service ([services/geminiService.ts])

    A shallow embedding of the three exported functions of the service
    module, [enhancePrompt], [generateAudio] and [generateVideo], and of
    the request normalisation, polling loop and asset fetch that
    [generateVideo] performs.

    The functions are asynchronous and talk to a remote service; the
    polling loop of [generateVideo] has no bound.  They are embedded as
    interaction trees over the events they await ([envE]); a [World]
    answers the events, and [run] observes a tree against a world for a
    given number of steps, recording every awaited call and how it
    settled.

    Conventions.
    - A JavaScript string is represented by the bytes of its UTF-8
      encoding (a Rocq [string]).
    - A thrown value is an [Exn]: either an [Error] object with its
      message, or some value that is not an [Error].
    - A promise that rejects is an answer [inl e]; one that fulfils is
      [inr x].
    - [console.log] and [console.error] are not modelled.
    - [new GoogleGenAI({apiKey})] is the constructor of the browser build
      of the client library: it throws when no key is given. *)

From Stdlib Require Import List String Ascii Arith NArith Bool Lia DecimalString.
From ITree Require Import ITree Eq.Shallow.
Import ListNotations.

Local Open Scope string_scope.
Local Open Scope list_scope.
Local Open Scope nat_scope.

(* ===================================================================== *)
(** * Part I - definitions *)
(* ===================================================================== *)

(** ** JavaScript values and built-ins used by the service *)

Module JS.

(** A thrown value.  [error instanceof Error] holds of [Error _] only. *)
Inductive Exn : Type :=
| Error (message : string)
| NotAnError.

(** [error instanceof Error ? error.message : 'An unknown error occurred.'] *)
Definition errorMessage (error : Exn) : string :=
  match error with
  | Error message => message
  | NotAnError => "An unknown error occurred."
  end.

(** Truthiness of a string: every string but the empty one. *)
Definition truthy (s : string) : bool :=
  match s with
  | EmptyString => false
  | String _ _ => true
  end.

(** Truthiness of an optional string ([undefined] is falsy). *)
Definition truthy_opt (o : option string) : bool :=
  match o with
  | Some s => truthy s
  | None => false
  end.

(** [`${v}`] of a possibly undefined string. *)
Definition template (o : option string) : string :=
  match o with
  | Some s => s
  | None => "undefined"
  end.

(** [`${n}`] of a non-negative integer. *)
Definition number (n : nat) : string :=
  NilEmpty.string_of_uint (Nat.to_uint n).

Definition bytes (l : list nat) : list ascii := map ascii_of_nat l.

(** The code points that [String.prototype.trim] strips (WhiteSpace and
    LineTerminator of ECMA-262), each by its UTF-8 encoding: TAB, LF, VT,
    FF, CR, SP, U+00A0, U+1680, U+2000..U+200A, U+2028, U+2029, U+202F,
    U+205F, U+3000, U+FEFF. *)
Definition WhiteSpace : list (list ascii) :=
  map bytes
    [ [9]; [10]; [11]; [12]; [13]; [32];
      [194; 160];
      [225; 154; 128];
      [226; 128; 128]; [226; 128; 129]; [226; 128; 130]; [226; 128; 131];
      [226; 128; 132]; [226; 128; 133]; [226; 128; 134]; [226; 128; 135];
      [226; 128; 136]; [226; 128; 137]; [226; 128; 138];
      [226; 128; 168]; [226; 128; 169]; [226; 128; 175];
      [226; 129; 159];
      [227; 128; 128];
      [239; 187; 191] ].

(** [strip p s] removes the prefix [p] from [s]. *)
Fixpoint strip (p s : list ascii) : option (list ascii) :=
  match p with
  | [] => Some s
  | a :: p' =>
    match s with
    | [] => None
    | b :: s' => if Ascii.eqb a b then strip p' s' else None
    end
  end.

(** The rest of [s] after the first of [ps] that is a prefix of it. *)
Fixpoint strip_any (ps : list (list ascii)) (s : list ascii)
  : option (list ascii) :=
  match ps with
  | [] => None
  | p :: ps' =>
    match strip p s with
    | Some r => Some r
    | None => strip_any ps' s
    end
  end.

(** Strip leading members of [ps], at most [n] of them. *)
Fixpoint strip_all (n : nat) (ps : list (list ascii)) (s : list ascii)
  : list ascii :=
  match n with
  | 0 => s
  | S n' =>
    match strip_any ps s with
    | Some r => strip_all n' ps r
    | None => s
    end
  end.

Definition trimStart (s : list ascii) : list ascii :=
  strip_all (List.length s) WhiteSpace s.

Definition trimEnd (s : list ascii) : list ascii :=
  rev (strip_all (List.length s) (map (@rev ascii) WhiteSpace) (rev s)).

(** [String.prototype.trim]. *)
Definition trim (s : string) : string :=
  string_of_list_ascii (trimEnd (trimStart (list_ascii_of_string s))).

(** A string made of white space only (the empty string included): it
    parses as a sequence of white-space code points. *)
Fixpoint all_white_space (n : nat) (s : list ascii) : bool :=
  match s with
  | [] => true
  | _ :: _ =>
    match n with
    | 0 => false
    | S n' =>
      match strip_any WhiteSpace s with
      | Some r => all_white_space n' r
      | None => false
      end
    end
  end.

Definition whitespace_only (s : string) : bool :=
  all_white_space (String.length s) (list_ascii_of_string s).

(** *** [decodeURIComponent] *)

Definition hex_digit (c : ascii) : option nat :=
  let n := nat_of_ascii c in
  if (48 <=? n) && (n <=? 57) then Some (n - 48)
  else if (65 <=? n) && (n <=? 70) then Some (n - 55)
  else if (97 <=? n) && (n <=? 102) then Some (n - 87)
  else None.

(** One escape [%XX] at the head of [s]: the octet and the rest. *)
Definition escape (s : list ascii) : option (nat * list ascii) :=
  match s with
  | "%"%char :: h1 :: h2 :: rest =>
    match hex_digit h1, hex_digit h2 with
    | Some a, Some b => Some (16 * a + b, rest)
    | _, _ => None
    end
  | _ => None
  end.

(** [n] escapes in a row. *)
Fixpoint escapes (n : nat) (s : list ascii) : option (list nat * list ascii) :=
  match n with
  | 0 => Some ([], s)
  | S n' =>
    match escape s with
    | Some (b, rest) =>
      match escapes n' rest with
      | Some (bs, rest') => Some (b :: bs, rest')
      | None => None
      end
    | None => None
    end
  end.

(** Number of octets announced by a leading octet [b >= 128]: the count
    of its leading one bits, when that is 2, 3 or 4. *)
Definition announced (b : nat) : option nat :=
  if b <? 192 then None
  else if b <? 224 then Some 2
  else if b <? 240 then Some 3
  else if b <? 248 then Some 4
  else None.

Definition between (lo hi b : nat) : bool := (lo <=? b) && (b <=? hi).

(** Well-formed UTF-8 encodings of one code point (Unicode, table 3-7). *)
Definition valid_utf8 (octets : list nat) : bool :=
  match octets with
  | [b1; b2] => between 194 223 b1 && between 128 191 b2
  | [b1; b2; b3] =>
    (  (b1 =? 224) && between 160 191 b2
    || between 225 236 b1 && between 128 191 b2
    || (b1 =? 237) && between 128 159 b2
    || between 238 239 b1 && between 128 191 b2)
    && between 128 191 b3
  | [b1; b2; b3; b4] =>
    (  (b1 =? 240) && between 144 191 b2
    || between 241 243 b1 && between 128 191 b2
    || (b1 =? 244) && between 128 143 b2)
    && between 128 191 b3 && between 128 191 b4
  | _ => false
  end.

(** The Decode operation of ECMA-262 with an empty reserved set; [None]
    stands for the URIError. *)
Fixpoint decode (fuel : nat) (s : list ascii) : option (list ascii) :=
  match fuel with
  | 0 => match s with [] => Some [] | _ => None end
  | S fuel' =>
    match s with
    | [] => Some []
    | "%"%char :: _ =>
      match escape s with
      | None => None
      | Some (b, rest) =>
        if b <? 128 then option_map (cons (ascii_of_nat b)) (decode fuel' rest)
        else
          match announced b with
          | None => None
          | Some n =>
            match escapes (n - 1) rest with
            | None => None
            | Some (bs, rest') =>
              if valid_utf8 (b :: bs)
              then option_map (app (bytes (b :: bs))) (decode fuel' rest')
              else None
            end
          end
      end
    | c :: rest => option_map (cons c) (decode fuel' rest)
    end
  end.

Definition decodeURIComponent (uri : string) : Exn + string :=
  match decode (String.length uri) (list_ascii_of_string uri) with
  | Some s => inr (string_of_list_ascii s)
  | None => inl (Error "URI malformed")
  end.

(** The message of the TypeError raised by [undefined.trim()], in the
    wording of V8; other engines word it differently, and no property
    below depends on the wording. *)
Definition TypeError_trim : string :=
  "Cannot read properties of undefined (reading 'trim')".

End JS.
Import JS.

(** ** Data model

    The parameter types are declared in [types.ts], the payload and
    response types in the client library.  Optional fields ([f?: T], or
    [T | null]) are options.  Each record lives in a module named after
    its type, so that fields keep their names. *)

(** Modelled from the spec: [enum GenerationMode] of [types.ts], a file
    that is not among the sources.  Its members are the four modes of the
    spec's data model, the ones [generateVideo] and [App.tsx] name. *)
Inductive GenerationMode : Type :=
| TEXT_TO_VIDEO
| FRAMES_TO_VIDEO
| REFERENCES_TO_VIDEO
| EXTEND_VIDEO.

Definition GenerationMode_eqb (a b : GenerationMode) : bool :=
  match a, b with
  | TEXT_TO_VIDEO, TEXT_TO_VIDEO
  | FRAMES_TO_VIDEO, FRAMES_TO_VIDEO
  | REFERENCES_TO_VIDEO, REFERENCES_TO_VIDEO
  | EXTEND_VIDEO, EXTEND_VIDEO => true
  | _, _ => false
  end.

(** A browser [File]: the two fields the service reads. *)
Module File.
Record t : Type := mk { name : string; type : string }.
End File.

(** Modelled from the spec: [ImageFile] and [VideoFile] of [types.ts]
    (absent from the sources), an asset as a [File] with its base64
    payload; the fields are those [generateVideo] and [App.tsx] use. *)
Module ImageFile.
Record t : Type := mk { file : File.t; base64 : string }.
End ImageFile.

Module VideoFile.
Record t : Type := mk { file : File.t; base64 : string }.
End VideoFile.

(** [Video] of the client library. *)
Module Video.
Record t : Type :=
  mk { uri : option string; videoBytes : option string; mimeType : option string }.
End Video.

(** Modelled from the spec: [GenerateVideoParams] of [types.ts] (absent
    from the sources), the spec's VideoGenerationRequest.  The fields are
    those [generateVideo] reads and [App.tsx] sets; [model], [aspectRatio]
    and [resolution] are string enumerations, kept as strings. *)
Module GenerateVideoParams.
Record t : Type := mk {
  prompt : string;
  model : string;
  aspectRatio : string;
  resolution : string;
  mode : GenerationMode;
  startFrame : option ImageFile.t;
  endFrame : option ImageFile.t;
  referenceImages : option (list ImageFile.t);
  styleImage : option ImageFile.t;
  inputVideo : option VideoFile.t;
  inputVideoObject : option Video.t;
  isLooping : bool }.
End GenerateVideoParams.

(** Modelled from the spec: [GenerateAudioParams] of [types.ts] (absent
    from the sources), the spec's AudioGenerationRequest; [voice] is a
    string enumeration, kept as a string. *)
Module GenerateAudioParams.
Record t : Type := mk { prompt : string; voice : string }.
End GenerateAudioParams.

(** [Image] of the client library: [{imageBytes, mimeType}]. *)
Module Image.
Record t : Type := mk { imageBytes : string; mimeType : string }.
End Image.

(** [enum VideoGenerationReferenceType]. *)
Inductive VideoGenerationReferenceType : Type :=
| ASSET
| STYLE.

Module VideoGenerationReferenceImage.
Record t : Type :=
  mk { image : Image.t; referenceType : VideoGenerationReferenceType }.
End VideoGenerationReferenceImage.

(** The object bound to [config] in [generateVideo]. *)
Module Config.
Record t : Type := mk {
  numberOfVideos : nat;
  resolution : string;
  aspectRatio : option string;
  lastFrame : option Image.t;
  referenceImages : option (list VideoGenerationReferenceImage.t) }.

Definition set_aspectRatio (c : t) (v : string) : t :=
  mk (numberOfVideos c) (resolution c) (Some v) (lastFrame c) (referenceImages c).
Definition set_lastFrame (c : t) (v : Image.t) : t :=
  mk (numberOfVideos c) (resolution c) (aspectRatio c) (Some v) (referenceImages c).
Definition set_referenceImages (c : t) (v : list VideoGenerationReferenceImage.t) : t :=
  mk (numberOfVideos c) (resolution c) (aspectRatio c) (lastFrame c) (Some v).
End Config.

(** The object bound to [generateVideoPayload]. *)
Module Payload.
Record t : Type := mk {
  model : string;
  config : Config.t;
  prompt : option string;
  image : option Image.t;
  video : option Video.t }.

Definition set_config (p : t) (c : Config.t) : t :=
  mk (model p) c (prompt p) (image p) (video p).
Definition set_prompt (p : t) (v : string) : t :=
  mk (model p) (config p) (Some v) (image p) (video p).
Definition set_image (p : t) (v : Image.t) : t :=
  mk (model p) (config p) (prompt p) (Some v) (video p).
Definition set_video (p : t) (v : Video.t) : t :=
  mk (model p) (config p) (prompt p) (image p) (Some v).
End Payload.

Module GeneratedVideo.
Record t : Type := mk { video : option Video.t }.
End GeneratedVideo.

Module GenerateVideosResponse.
Record t : Type := mk { generatedVideos : option (list GeneratedVideo.t) }.
End GenerateVideosResponse.

(** [GenerateVideosOperation]: the handle of a long-running job. *)
Module Operation.
Record t : Type := mk {
  name : string;
  done : bool;
  response : option GenerateVideosResponse.t }.
End Operation.

(** The two requests sent through [ai.models.generateContent]. *)
Inductive Modality : Type :=
| AUDIO.

Inductive Contents : Type :=
| Text (text : string)
| Parts (contents : list (list string)).

Module ContentConfig.
(** [temperature] is kept as the decimal literal of the source. *)
Record t : Type := mk {
  systemInstruction : option string;
  temperature : option string;
  responseModalities : option (list Modality);
  voiceName : option string }.
End ContentConfig.

Module ContentRequest.
Record t : Type :=
  mk { model : string; contents : Contents; config : ContentConfig.t }.
End ContentRequest.

(** [GenerateContentResponse], read through optional chaining. *)
Module InlineData.
Record t : Type := mk { data : option string; mimeType : option string }.
End InlineData.

Module Part.
Record t : Type := mk { inlineData : option InlineData.t }.
End Part.

Module Content.
Record t : Type := mk { parts : option (list Part.t) }.
End Content.

Module Candidate.
Record t : Type := mk { content : option Content.t }.
End Candidate.

Module ContentResponse.
Record t : Type :=
  mk { text : option string; candidates : option (list Candidate.t) }.
End ContentResponse.

(** A [Blob] and the [Response] of [fetch]; [blob] is how the promise
    [res.blob()] settles. *)
Module Blob.
Record t : Type := mk { content : string; type : string }.
End Blob.

Module Response.
Record t : Type := mk {
  ok : bool;
  status : nat;
  statusText : string;
  blob : Exn + Blob.t }.
End Response.

(** What [generateVideo] and [generateAudio] resolve to. *)
Module VideoResult.
Record t : Type := mk {
  objectUrl : string;
  blob : Blob.t;
  uri : string;
  video : Video.t }.
End VideoResult.

Module AudioResult.
Record t : Type := mk { objectUrl : string }.
End AudioResult.

(** [process.env]. *)
Module ProcessEnv.
Record t : Type := mk { API_KEY : option string }.
End ProcessEnv.

(** The client of the service, [GoogleGenAI] of [@google/genai], in its
    browser build.  [new GoogleGenAI({apiKey})] throws when [apiKey] is
    [undefined] ([apiKey == null]); any string, the empty one included,
    is taken as a key. *)
Module GoogleGenAI.
Record t : Type := mk { apiKey : string }.

Definition new (apiKey : option string) : Exn + t :=
  match apiKey with
  | Some key => inr (mk key)
  | None => inl (Error "An API Key must be set when running in a browser")
  end.
End GoogleGenAI.

(** ** Events, worlds and runs *)

(** What the service awaits or asks of its environment.  The index is
    the type of the answer. *)
Variant envE : Type -> Type :=
| GenerateContent (request : ContentRequest.t) : envE (Exn + ContentResponse.t)
| GenerateVideos (payload : Payload.t) : envE (Exn + Operation.t)
| GetVideosOperation (operation : Operation.t) : envE (Exn + Operation.t)
| SetTimeout (ms : N) : envE unit
| Fetch (url : string) : envE (Exn + Response.t)
| ReadBlob (res : Response.t) : envE (Exn + Blob.t)
| CreateObjectURL (blob : Blob.t) : envE string.

(** An asynchronous computation: it resolves to [inr x] or rejects with
    [inl e]. *)
Definition Async (R : Type) : Type := itree envE (Exn + R).

Definition ret {R} (r : R) : Async R := Ret (inr r).

Definition throw {R} (e : Exn) : Async R := Ret (inl e).

(** Sequencing: a rejection skips the continuation. *)
Definition bind {A B} (t : Async A) (k : A -> Async B) : Async B :=
  ITree.bind t (fun r => match r with inl e => Ret (inl e) | inr a => k a end).

(** [await] of a promise that may reject. *)
Definition await {X} (e : envE (Exn + X)) : Async X := ITree.trigger e.

(** An effect that cannot fail. *)
Definition perform {X} (e : envE X) : Async X :=
  ITree.bind (ITree.trigger e) (fun x => Ret (inr x)).

(** A value or a throw, already known. *)
Definition lift {X} (r : Exn + X) : Async X := Ret r.

(** [try { t } catch (error) { h error }]. *)
Definition try_catch {R} (t : Async R) (h : Exn -> Async R) : Async R :=
  ITree.bind t (fun r => match r with inl e => h e | inr a => Ret (inr a) end).

Declare Scope async_scope.
Delimit Scope async_scope with async.
Notation "x <- t ;; k" := (bind t (fun x => k))
  (at level 62, t at next level, right associativity) : async_scope.
Notation "t ;; k" := (bind t (fun _ => k))
  (at level 62, right associativity) : async_scope.
Local Open Scope async_scope.

(** The calls of a run, as recorded. *)
Inductive Call : Type :=
| CallGenerateContent (request : ContentRequest.t)
| CallGenerateVideos (payload : Payload.t)
| CallGetVideosOperation (operation : Operation.t)
| CallSetTimeout (ms : N)
| CallFetch (url : string)
| CallReadBlob (res : Response.t)
| CallCreateObjectURL (blob : Blob.t).

(** A recorded call and the failure it rejected with, if it did. *)
Record Event : Type := mkEvent { call : Call; rejection : option Exn }.

Definition is_fetch (c : Call) : bool :=
  match c with
  | CallFetch _ => true
  | _ => false
  end.

Definition is_poll (c : Call) : bool :=
  match c with
  | CallGetVideosOperation _ => true
  | _ => false
  end.

(** The environment: how each call settles.  The status of an operation
    may change from one poll to the next, so [getVideosOperation] also
    takes the number of polls already made. *)
Module World.
Record t : Type := mk {
  generateContent : ContentRequest.t -> Exn + ContentResponse.t;
  generateVideos : Payload.t -> Exn + Operation.t;
  getVideosOperation : nat -> Operation.t -> Exn + Operation.t;
  fetch : string -> Exn + Response.t;
  createObjectURL : Blob.t -> string }.
End World.

Definition call_of {X} (e : envE X) : Call :=
  match e with
  | GenerateContent request => CallGenerateContent request
  | GenerateVideos payload => CallGenerateVideos payload
  | GetVideosOperation operation => CallGetVideosOperation operation
  | SetTimeout ms => CallSetTimeout ms
  | Fetch url => CallFetch url
  | ReadBlob res => CallReadBlob res
  | CreateObjectURL blob => CallCreateObjectURL blob
  end.

Definition answer (w : World.t) (polls : nat) {X} (e : envE X) : X :=
  match e in envE X return X with
  | GenerateContent request => World.generateContent w request
  | GenerateVideos payload => World.generateVideos w payload
  | GetVideosOperation operation => World.getVideosOperation w polls operation
  | SetTimeout _ => tt
  | Fetch url => World.fetch w url
  | ReadBlob res => Response.blob res
  | CreateObjectURL blob => World.createObjectURL w blob
  end.

Definition failure {X} (r : Exn + X) : option Exn :=
  match r with
  | inl e => Some e
  | inr _ => None
  end.

Definition rejection_of {X} (e : envE X) : X -> option Exn :=
  match e in envE X return X -> option Exn with
  | GenerateContent _ => failure
  | GenerateVideos _ => failure
  | GetVideosOperation _ => failure
  | SetTimeout _ => fun _ => None
  | Fetch _ => failure
  | ReadBlob _ => failure
  | CreateObjectURL _ => fun _ => None
  end.

Definition polled {X} (e : envE X) (polls : nat) : nat :=
  if is_poll (call_of e) then S polls else polls.

(** [exec fuel w polls t] observes [t] for at most [fuel] steps in the
    world [w], [polls] polls having been made before.  It yields the
    events in order and, when [t] has settled within the steps, its
    result with the number of polls made and the steps left. *)
Fixpoint exec {R} (fuel : nat) (w : World.t) (polls : nat) (t : itree envE R)
  : list Event * option (R * nat * nat) :=
  match fuel with
  | 0 => ([], None)
  | S fuel' =>
    match observe t with
    | RetF r => ([], Some (r, polls, fuel))
    | TauF t' => exec fuel' w polls t'
    | VisF e k =>
      let x := answer w polls e in
      let '(tr, o) := exec fuel' w (polled e polls) (k x) in
      (mkEvent (call_of e) (rejection_of e x) :: tr, o)
    end
  end.

(** A run from the start: the trace, and the result if settled ([None]:
    still pending after [fuel] steps). *)
Definition run {R} (fuel : nat) (w : World.t) (t : itree envE R)
  : list Event * option R :=
  let '(tr, o) := exec fuel w 0 t in
  (tr, option_map (fun x => fst (fst x)) o).

Definition calls (tr : list Event) : list Call := map call tr.

(** ** [enhancePrompt] *)

Definition quote : string := String (ascii_of_nat 34) EmptyString.

Definition systemInstruction : string :=
  "You are an expert prompt writer for a text-to-video AI model. Your task is to take a user's simple prompt and expand it into a rich, detailed, and cinematic description. Focus on visual details, camera angles, lighting, mood, and specific actions. The enhanced prompt should be a single, coherent paragraph. Do not add any conversational text, explanations, or quotes around the output. Just output the enhanced prompt text directly.".

Definition enhanceRequest (prompt : string) : ContentRequest.t :=
  {| ContentRequest.model := "gemini-2.5-flash";
     ContentRequest.contents := Text ("User prompt: " ++ quote ++ prompt ++ quote);
     ContentRequest.config :=
       {| ContentConfig.systemInstruction := Some systemInstruction;
          ContentConfig.temperature := Some "0.8";
          ContentConfig.responseModalities := None;
          ContentConfig.voiceName := None |} |}.

Definition enhancePrompt (env : ProcessEnv.t) (prompt : string) : Async string :=
  if negb (truthy (trim prompt)) then throw (Error "Prompt cannot be empty.")
  else
    ai <- lift (GoogleGenAI.new (ProcessEnv.API_KEY env)) ;;
    try_catch
      (response <- await (GenerateContent (enhanceRequest prompt)) ;;
       text <- lift (match ContentResponse.text response with
                     | Some text => inr text
                     | None => inl (Error TypeError_trim)
                     end) ;;
       let enhancedPrompt := trim text in
       if negb (truthy enhancedPrompt)
       then throw (Error "The model returned an empty enhancement.")
       else ret enhancedPrompt)
      (fun error =>
         throw (Error ("Failed to enhance prompt: " ++ errorMessage error))).

(** ** [generateAudio] *)

Definition audioRequest (params : GenerateAudioParams.t) : ContentRequest.t :=
  {| ContentRequest.model := "gemini-2.5-flash-preview-tts";
     ContentRequest.contents := Parts [[GenerateAudioParams.prompt params]];
     ContentRequest.config :=
       {| ContentConfig.systemInstruction := None;
          ContentConfig.temperature := None;
          ContentConfig.responseModalities := Some [AUDIO];
          ContentConfig.voiceName := Some (GenerateAudioParams.voice params) |} |}.

(** Optional chaining, [o?.f]. *)
Definition chain {A B} (o : option A) (f : A -> option B) : option B :=
  match o with
  | Some a => f a
  | None => None
  end.

(** [response.candidates?.[0]?.content?.parts?.[0]?.inlineData] *)
Definition inlineData_of (response : ContentResponse.t) : option InlineData.t :=
  chain (chain (chain (chain (chain (ContentResponse.candidates response)
                                    (@hd_error _))
                             Candidate.content)
                      Content.parts)
               (@hd_error _))
        Part.inlineData.

Definition generateAudio (env : ProcessEnv.t) (params : GenerateAudioParams.t)
  : Async AudioResult.t :=
  ai <- lift (GoogleGenAI.new (ProcessEnv.API_KEY env)) ;;
  try_catch
    (response <- await (GenerateContent (audioRequest params)) ;;
     let inlineData := inlineData_of response in
     let base64Audio := chain inlineData InlineData.data in
     let mimeType := chain inlineData InlineData.mimeType in
     if negb (truthy_opt base64Audio) || negb (truthy_opt mimeType)
     then throw (Error "Audio data not found in the API response.")
     else
       ret {| AudioResult.objectUrl :=
                "data:" ++ template mimeType ++ ";base64," ++ template base64Audio |})
    (fun error =>
       throw (Error ("Failed to generate audio: " ++ errorMessage error))).

(** ** [generateVideo] *)

Definition image_of (img : ImageFile.t) : Image.t :=
  {| Image.imageBytes := ImageFile.base64 img;
     Image.mimeType := File.type (ImageFile.file img) |}.

Definition reference (img : ImageFile.t) (referenceType : VideoGenerationReferenceType)
  : VideoGenerationReferenceImage.t :=
  {| VideoGenerationReferenceImage.image := image_of img;
     VideoGenerationReferenceImage.referenceType := referenceType |}.

(** [for (const img of imgs) { payload.push(f img) }] *)
Definition push_each {A B} (f : A -> B) (imgs : list A) (payload : list B) : list B :=
  fold_left (fun acc img => acc ++ [f img]) imgs payload.

(** The part of [generateVideo] between the construction of the client
    and the submission: the payload it builds, or the error it throws. *)
Definition buildPayload (params : GenerateVideoParams.t) : Exn + Payload.t :=
  let config :=
    {| Config.numberOfVideos := 1;
       Config.resolution := GenerateVideoParams.resolution params;
       Config.aspectRatio := None;
       Config.lastFrame := None;
       Config.referenceImages := None |} in
  let config :=
    if negb (GenerationMode_eqb (GenerateVideoParams.mode params) EXTEND_VIDEO)
    then Config.set_aspectRatio config (GenerateVideoParams.aspectRatio params)
    else config in
  let generateVideoPayload :=
    {| Payload.model := GenerateVideoParams.model params;
       Payload.config := config;
       Payload.prompt := None;
       Payload.image := None;
       Payload.video := None |} in
  let generateVideoPayload :=
    if truthy (GenerateVideoParams.prompt params)
    then Payload.set_prompt generateVideoPayload (GenerateVideoParams.prompt params)
    else generateVideoPayload in
  match GenerateVideoParams.mode params with
  | FRAMES_TO_VIDEO =>
    let generateVideoPayload :=
      match GenerateVideoParams.startFrame params with
      | Some startFrame => Payload.set_image generateVideoPayload (image_of startFrame)
      | None => generateVideoPayload
      end in
    let finalEndFrame :=
      if GenerateVideoParams.isLooping params
      then GenerateVideoParams.startFrame params
      else GenerateVideoParams.endFrame params in
    match finalEndFrame with
    | Some finalEndFrame =>
      inr (Payload.set_config generateVideoPayload
             (Config.set_lastFrame (Payload.config generateVideoPayload)
                (image_of finalEndFrame)))
    | None => inr generateVideoPayload
    end
  | REFERENCES_TO_VIDEO =>
    let referenceImagesPayload : list VideoGenerationReferenceImage.t := [] in
    let referenceImagesPayload :=
      match GenerateVideoParams.referenceImages params with
      | Some referenceImages =>
        push_each (fun img => reference img ASSET) referenceImages referenceImagesPayload
      | None => referenceImagesPayload
      end in
    let referenceImagesPayload :=
      match GenerateVideoParams.styleImage params with
      | Some styleImage => referenceImagesPayload ++ [reference styleImage STYLE]
      | None => referenceImagesPayload
      end in
    if 0 <? List.length referenceImagesPayload
    then inr (Payload.set_config generateVideoPayload
                (Config.set_referenceImages (Payload.config generateVideoPayload)
                   referenceImagesPayload))
    else inr generateVideoPayload
  | EXTEND_VIDEO =>
    match GenerateVideoParams.inputVideoObject params with
    | Some inputVideoObject => inr (Payload.set_video generateVideoPayload inputVideoObject)
    | None => inl (Error "An input video object is required to extend a video.")
    end
  | TEXT_TO_VIDEO => inr generateVideoPayload
  end.

(** [while (!operation.done) { await timeout(10000);
      operation = await ai.operations.getVideosOperation({operation}) }] *)
Definition whileNotDone (operation : Operation.t) : Async Operation.t :=
  ITree.iter
    (fun operation : Operation.t =>
       if negb (Operation.done operation)
       then
         ITree.bind (ITree.trigger (SetTimeout 10000%N)) (fun _ =>
         ITree.bind (ITree.trigger (GetVideosOperation operation)) (fun r =>
         match r with
         | inl e => Ret (inr (inl e))
         | inr operation' => Ret (inl operation')
         end))
       else Ret (inr (inr operation)))
    operation.

(** The last part of [generateVideo], after the loop. *)
Definition fetchVideo (env : ProcessEnv.t) (operation : Operation.t)
  : Async VideoResult.t :=
  match Operation.response operation with
  | Some response =>
    let videos := GenerateVideosResponse.generatedVideos response in
    match videos with
    | None | Some [] => throw (Error "No videos were generated.")
    | Some (firstVideo :: _) =>
      match GeneratedVideo.video firstVideo with
      | Some videoObject =>
        match Video.uri videoObject with
        | Some uri =>
          if negb (truthy uri) then throw (Error "Generated video is missing a URI.")
          else
            url <- lift (decodeURIComponent uri) ;;
            res <- await (Fetch (url ++ "&key=" ++ template (ProcessEnv.API_KEY env))) ;;
            if negb (Response.ok res)
            then throw (Error ("Failed to fetch video: "
                               ++ number (Response.status res) ++ " "
                               ++ Response.statusText res))
            else
              videoBlob <- await (ReadBlob res) ;;
              objectUrl <- perform (CreateObjectURL videoBlob) ;;
              ret {| VideoResult.objectUrl := objectUrl;
                     VideoResult.blob := videoBlob;
                     VideoResult.uri := url;
                     VideoResult.video := videoObject |}
        | None => throw (Error "Generated video is missing a URI.")
        end
      | None => throw (Error "Generated video is missing a URI.")
      end
    end
  | None => throw (Error "No videos generated.")
  end.

(** The submission and the loop: the operation once it is done. *)
Definition submitAndAwait (generateVideoPayload : Payload.t) : Async Operation.t :=
  operation <- await (GenerateVideos generateVideoPayload) ;;
  whileNotDone operation.

Definition generateVideo (env : ProcessEnv.t) (params : GenerateVideoParams.t)
  : Async VideoResult.t :=
  ai <- lift (GoogleGenAI.new (ProcessEnv.API_KEY env)) ;;
  generateVideoPayload <- lift (buildPayload params) ;;
  operation <- submitAndAwait generateVideoPayload ;;
  fetchVideo env operation.

(** ** Sample requests and worlds *)

Module Samples.

Definition env : ProcessEnv.t := {| ProcessEnv.API_KEY := Some "KEY" |}.

Definition png (name content : string) : ImageFile.t :=
  {| ImageFile.file := {| File.name := name; File.type := "image/png" |};
     ImageFile.base64 := content |}.

Definition text_params : GenerateVideoParams.t :=
  {| GenerateVideoParams.prompt := "a cat surfing";
     GenerateVideoParams.model := "veo-3.1-fast-generate-preview";
     GenerateVideoParams.aspectRatio := "16:9";
     GenerateVideoParams.resolution := "720p";
     GenerateVideoParams.mode := TEXT_TO_VIDEO;
     GenerateVideoParams.startFrame := None;
     GenerateVideoParams.endFrame := None;
     GenerateVideoParams.referenceImages := None;
     GenerateVideoParams.styleImage := None;
     GenerateVideoParams.inputVideo := None;
     GenerateVideoParams.inputVideoObject := None;
     GenerateVideoParams.isLooping := false |}.

Definition with_mode (mode : GenerationMode) (p : GenerateVideoParams.t)
  : GenerateVideoParams.t :=
  {| GenerateVideoParams.prompt := GenerateVideoParams.prompt p;
     GenerateVideoParams.model := GenerateVideoParams.model p;
     GenerateVideoParams.aspectRatio := GenerateVideoParams.aspectRatio p;
     GenerateVideoParams.resolution := GenerateVideoParams.resolution p;
     GenerateVideoParams.mode := mode;
     GenerateVideoParams.startFrame := GenerateVideoParams.startFrame p;
     GenerateVideoParams.endFrame := GenerateVideoParams.endFrame p;
     GenerateVideoParams.referenceImages := GenerateVideoParams.referenceImages p;
     GenerateVideoParams.styleImage := GenerateVideoParams.styleImage p;
     GenerateVideoParams.inputVideo := GenerateVideoParams.inputVideo p;
     GenerateVideoParams.inputVideoObject := GenerateVideoParams.inputVideoObject p;
     GenerateVideoParams.isLooping := GenerateVideoParams.isLooping p |}.

(** A looping request that also carries a distinct end frame. *)
Definition looping_params : GenerateVideoParams.t :=
  {| GenerateVideoParams.prompt := "waves";
     GenerateVideoParams.model := "veo-3.1-fast-generate-preview";
     GenerateVideoParams.aspectRatio := "9:16";
     GenerateVideoParams.resolution := "720p";
     GenerateVideoParams.mode := FRAMES_TO_VIDEO;
     GenerateVideoParams.startFrame := Some (png "first.png" "AAAA");
     GenerateVideoParams.endFrame := Some (png "last.png" "BBBB");
     GenerateVideoParams.referenceImages := None;
     GenerateVideoParams.styleImage := None;
     GenerateVideoParams.inputVideo := None;
     GenerateVideoParams.inputVideoObject := None;
     GenerateVideoParams.isLooping := true |}.

Definition references_params : GenerateVideoParams.t :=
  {| GenerateVideoParams.prompt := "a knight";
     GenerateVideoParams.model := "veo-3.1-generate-preview";
     GenerateVideoParams.aspectRatio := "16:9";
     GenerateVideoParams.resolution := "720p";
     GenerateVideoParams.mode := REFERENCES_TO_VIDEO;
     GenerateVideoParams.startFrame := None;
     GenerateVideoParams.endFrame := None;
     GenerateVideoParams.referenceImages :=
       Some [png "helmet.png" "HHHH"; png "sword.png" "SSSS"];
     GenerateVideoParams.styleImage := Some (png "oil.png" "OOOO");
     GenerateVideoParams.inputVideo := None;
     GenerateVideoParams.inputVideoObject := None;
     GenerateVideoParams.isLooping := false |}.

(** The same frames, not looping. *)
Definition frames_params : GenerateVideoParams.t :=
  {| GenerateVideoParams.prompt := "waves";
     GenerateVideoParams.model := "veo-3.1-fast-generate-preview";
     GenerateVideoParams.aspectRatio := "9:16";
     GenerateVideoParams.resolution := "720p";
     GenerateVideoParams.mode := FRAMES_TO_VIDEO;
     GenerateVideoParams.startFrame := Some (png "first.png" "AAAA");
     GenerateVideoParams.endFrame := Some (png "last.png" "BBBB");
     GenerateVideoParams.referenceImages := None;
     GenerateVideoParams.styleImage := None;
     GenerateVideoParams.inputVideo := None;
     GenerateVideoParams.inputVideoObject := None;
     GenerateVideoParams.isLooping := false |}.

(** What [generateVideo] submits for [text_params]. *)
Definition text_payload : Payload.t :=
  {| Payload.model := "veo-3.1-fast-generate-preview";
     Payload.config :=
       {| Config.numberOfVideos := 1;
          Config.resolution := "720p";
          Config.aspectRatio := Some "16:9";
          Config.lastFrame := None;
          Config.referenceImages := None |};
     Payload.prompt := Some "a cat surfing";
     Payload.image := None;
     Payload.video := None |}.

(** An extension request without the video to extend. *)
Definition extend_params : GenerateVideoParams.t :=
  with_mode EXTEND_VIDEO text_params.

(** An extension request with the video to extend. *)
Definition extending_params : GenerateVideoParams.t :=
  {| GenerateVideoParams.prompt := "and then it rains";
     GenerateVideoParams.model := "veo-3.1-generate-preview";
     GenerateVideoParams.aspectRatio := "16:9";
     GenerateVideoParams.resolution := "720p";
     GenerateVideoParams.mode := EXTEND_VIDEO;
     GenerateVideoParams.startFrame := None;
     GenerateVideoParams.endFrame := None;
     GenerateVideoParams.referenceImages := None;
     GenerateVideoParams.styleImage := None;
     GenerateVideoParams.inputVideo := None;
     GenerateVideoParams.inputVideoObject :=
       Some {| Video.uri := Some "https://h.example/v1/files/a";
               Video.videoBytes := None;
               Video.mimeType := Some "video/mp4" |};
     GenerateVideoParams.isLooping := false |}.

(** [process.env] without [API_KEY]. *)
Definition no_key : ProcessEnv.t := {| ProcessEnv.API_KEY := None |}.

Definition clip (uri : string) : GeneratedVideo.t :=
  {| GeneratedVideo.video :=
       Some {| Video.uri := Some uri;
               Video.videoBytes := None;
               Video.mimeType := Some "video/mp4" |} |}.

Definition pending (name : string) : Operation.t :=
  {| Operation.name := name; Operation.done := false; Operation.response := None |}.

Definition finished (videos : list GeneratedVideo.t) : Operation.t :=
  {| Operation.name := "operations/7";
     Operation.done := true;
     Operation.response :=
       Some {| GenerateVideosResponse.generatedVideos := Some videos |} |}.

Definition mp4 : Blob.t := {| Blob.content := "MP4"; Blob.type := "video/mp4" |}.

Definition speech : ContentResponse.t :=
  {| ContentResponse.text := None;
     ContentResponse.candidates :=
       Some [ {| Candidate.content :=
                   Some {| Content.parts :=
                             Some [ {| Part.inlineData :=
                                         Some {| InlineData.data := Some "UklGRg";
                                                 InlineData.mimeType := Some "audio/wav" |} |} ] |} |} ] |}.

(** A world scripted by the operation statuses it hands out: [first] on
    submission, then the members of [later], one per poll (a rejection
    once they are used up), and by the response of the asset fetch. *)
Definition scripted (first : Exn + Operation.t) (later : list (Exn + Operation.t))
           (res : Exn + Response.t) : World.t :=
  {| World.generateContent := fun _ => inr speech;
     World.generateVideos := fun _ => first;
     World.getVideosOperation := fun polls _ => nth polls later (inl NotAnError);
     World.fetch := fun _ => res;
     World.createObjectURL := fun _ => "blob:veo-studio/1" |}.

Definition ok_response : Response.t :=
  {| Response.ok := true; Response.status := 200; Response.statusText := "OK";
     Response.blob := inr mp4 |}.

Definition not_found : Response.t :=
  {| Response.ok := false; Response.status := 404; Response.statusText := "Not Found";
     Response.blob := inl NotAnError |}.

Definition encoded_uri : string :=
  "https%3A%2F%2Fh.example%2Fv1%2Ffiles%2Fa%3Adownload%3Falt%3Dmedia".

(** Not done, not done, then done with two videos. *)
Definition third_time : World.t :=
  scripted (inr (pending "operations/7"))
           [inr (pending "operations/7");
            inr (finished [clip encoded_uri; clip "https://h.example/other?alt=media"])]
           (inr ok_response).

(** The submission is refused. *)
Definition refusing : World.t :=
  scripted (inl (Error "quota exceeded")) [] (inr ok_response).

(** Done at once, with nothing generated. *)
Definition barren : World.t :=
  scripted (inr (finished [])) [] (inr ok_response).

(** Done at once, the one video without a URI. *)
Definition uriless : World.t :=
  scripted (inr (finished [ {| GeneratedVideo.video := None |} ])) [] (inr ok_response).

(** Done at once; the asset is gone. *)
Definition gone : World.t :=
  scripted (inr (finished [clip encoded_uri])) [] (inr not_found).

End Samples.

(** ** Predicates on strings and runs *)

(** A sequence of members of [ps]. *)
Inductive Seq (ps : list (list ascii)) : list ascii -> Prop :=
| Seq_nil : Seq ps []
| Seq_cons p s : In p ps -> Seq ps s -> Seq ps (p ++ s).

(** The two events of one turn of the loop: the pause, and the poll with
    the way the world settles it. *)
Definition slept : Event := mkEvent (CallSetTimeout 10000%N) None.

Definition asked (w : World.t) (polls : nat) (operation : Operation.t) : Event :=
  mkEvent (CallGetVideosOperation operation)
          (failure (World.getVideosOperation w polls operation)).

(** The submission and the asset fetch, as recorded. *)
Definition submitted (w : World.t) (payload : Payload.t) : Event :=
  mkEvent (CallGenerateVideos payload) (failure (World.generateVideos w payload)).

Definition fetched (w : World.t) (url : string) : Event :=
  mkEvent (CallFetch url) (failure (World.fetch w url)).

Definition settled {R} (o : option (R * nat * nat)) : option R :=
  option_map (fun x => fst (fst x)) o.

(** [t] passes on the failure of any call it awaits: once a recorded
    call has rejected with [e], one more step settles [t], and it rejects
    with [e] itself. *)
Definition Verbatim {R} (t : Async R) : Prop :=
  forall fuel w polls tr o c e,
    exec fuel w polls t = (tr, o) ->
    In (mkEvent c (Some e)) tr ->
    exists polls' rest,
      exec (S fuel) w polls t = (tr, Some (inl e, polls', rest)).

(** [t] only makes calls that satisfy [P]. *)
Definition Only (P : Call -> bool) {R} (t : itree envE R) : Prop :=
  forall fuel w polls,
    Forall (fun ev => P (call ev) = true) (fst (exec fuel w polls t)).

Definition not_fetch (c : Call) : bool := negb (is_fetch c).

(** ** More of the platform *)

(** [String.prototype.startsWith] and [String.prototype.includes]. *)
Fixpoint startsWith (s search : string) : bool :=
  match search with
  | EmptyString => true
  | String a search' =>
    match s with
    | EmptyString => false
    | String b s' => Ascii.eqb a b && startsWith s' search'
    end
  end.

Fixpoint includes (s search : string) : bool :=
  startsWith s search
  || match s with
     | EmptyString => false
     | String _ s' => includes s' search
     end.

(** ** The statuses a loop goes through *)

(** Following the world from [operation] for at most [n] polls: the
    handles that were not done, in order, and the first one that is. *)
Fixpoint statuses (n : nat) (w : World.t) (polls : nat) (operation : Operation.t)
  : option (list Operation.t * Operation.t) :=
  if Operation.done operation then Some ([], operation)
  else
    match n with
    | 0 => None
    | S n' =>
      match World.getVideosOperation w polls operation with
      | inl _ => None
      | inr operation' =>
        match statuses n' w (S polls) operation' with
        | Some (waiting, final) => Some (operation :: waiting, final)
        | None => None
        end
      end
    end.

(** One turn of the loop for each handle, every poll fulfilled. *)
Definition turns (waiting : list Operation.t) : list Event :=
  flat_map (fun operation =>
              [slept; mkEvent (CallGetVideosOperation operation) None])
           waiting.

(** The calls [generateVideo] may have made, in the order it makes them:
    after the loop, the fetch, the reading of the body and the object
    URL, each only after the one before. *)
Inductive Fetching : list Call -> Prop :=
| Fetching_none : Fetching []
| Fetching_fetch url : Fetching [CallFetch url]
| Fetching_read url res : Fetching [CallFetch url; CallReadBlob res]
| Fetching_create url res blob :
    Fetching [CallFetch url; CallReadBlob res; CallCreateObjectURL blob].

(** In the loop, a pause of ten seconds, then a poll, turn after turn. *)
Inductive Polling : list Call -> Prop :=
| Polling_over l : Fetching l -> Polling l
| Polling_pause : Polling [CallSetTimeout 10000%N]
| Polling_turn operation l :
    Polling l ->
    Polling (CallSetTimeout 10000%N :: CallGetVideosOperation operation :: l).

(** Nothing yet, or the submission, then the loop. *)
Inductive Protocol : list Call -> Prop :=
| Protocol_none : Protocol []
| Protocol_submitted payload l :
    Polling l -> Protocol (CallGenerateVideos payload :: l).

(** ** The application ([App.tsx]) *)

(** Modelled from the spec: [enum AppState] of [types.ts], a file that is
    not among the sources.  Its members are the four that [App.tsx] names. *)
Inductive AppState : Type :=
| IDLE
| LOADING
| SUCCESS
| ERROR.

(** ['video' | 'audio']. *)
Inductive Tool : Type :=
| VideoTool
| AudioTool.

(** The state of the [App] component, one field per [useState]. *)
Module App.
Record t : Type := mk {
  appState : AppState;
  videoUrl : option string;
  errorMessage : option string;
  lastConfig : option GenerateVideoParams.t;
  lastVideoObject : option Video.t;
  lastVideoBlob : option Blob.t;
  initialFormValues : option GenerateVideoParams.t;
  audioAppState : AppState;
  audioUrl : option string;
  audioErrorMessage : option string;
  lastAudioConfig : option GenerateAudioParams.t;
  activeTool : Tool;
  showApiKeyDialog : bool }.

(** [setAppState] *)
Definition set_appState (s : t) (v : AppState) : t :=
  mk v (videoUrl s) (errorMessage s) (lastConfig s) (lastVideoObject s)
    (lastVideoBlob s) (initialFormValues s) (audioAppState s) (audioUrl s)
    (audioErrorMessage s) (lastAudioConfig s) (activeTool s)
    (showApiKeyDialog s).

(** [setVideoUrl] *)
Definition set_videoUrl (s : t) (v : option string) : t :=
  mk (appState s) v (errorMessage s) (lastConfig s) (lastVideoObject s)
    (lastVideoBlob s) (initialFormValues s) (audioAppState s) (audioUrl s)
    (audioErrorMessage s) (lastAudioConfig s) (activeTool s)
    (showApiKeyDialog s).

(** [setErrorMessage] *)
Definition set_errorMessage (s : t) (v : option string) : t :=
  mk (appState s) (videoUrl s) v (lastConfig s) (lastVideoObject s)
    (lastVideoBlob s) (initialFormValues s) (audioAppState s) (audioUrl s)
    (audioErrorMessage s) (lastAudioConfig s) (activeTool s)
    (showApiKeyDialog s).

(** [setLastConfig] *)
Definition set_lastConfig (s : t) (v : option GenerateVideoParams.t) : t :=
  mk (appState s) (videoUrl s) (errorMessage s) v (lastVideoObject s)
    (lastVideoBlob s) (initialFormValues s) (audioAppState s) (audioUrl s)
    (audioErrorMessage s) (lastAudioConfig s) (activeTool s)
    (showApiKeyDialog s).

(** [setLastVideoObject] *)
Definition set_lastVideoObject (s : t) (v : option Video.t) : t :=
  mk (appState s) (videoUrl s) (errorMessage s) (lastConfig s) v
    (lastVideoBlob s) (initialFormValues s) (audioAppState s) (audioUrl s)
    (audioErrorMessage s) (lastAudioConfig s) (activeTool s)
    (showApiKeyDialog s).

(** [setLastVideoBlob] *)
Definition set_lastVideoBlob (s : t) (v : option Blob.t) : t :=
  mk (appState s) (videoUrl s) (errorMessage s) (lastConfig s)
    (lastVideoObject s) v (initialFormValues s) (audioAppState s) (audioUrl s)
    (audioErrorMessage s) (lastAudioConfig s) (activeTool s)
    (showApiKeyDialog s).

(** [setInitialFormValues] *)
Definition set_initialFormValues (s : t) (v : option GenerateVideoParams.t) : t :=
  mk (appState s) (videoUrl s) (errorMessage s) (lastConfig s)
    (lastVideoObject s) (lastVideoBlob s) v (audioAppState s) (audioUrl s)
    (audioErrorMessage s) (lastAudioConfig s) (activeTool s)
    (showApiKeyDialog s).

(** [setAudioAppState] *)
Definition set_audioAppState (s : t) (v : AppState) : t :=
  mk (appState s) (videoUrl s) (errorMessage s) (lastConfig s)
    (lastVideoObject s) (lastVideoBlob s) (initialFormValues s) v (audioUrl s)
    (audioErrorMessage s) (lastAudioConfig s) (activeTool s)
    (showApiKeyDialog s).

(** [setAudioUrl] *)
Definition set_audioUrl (s : t) (v : option string) : t :=
  mk (appState s) (videoUrl s) (errorMessage s) (lastConfig s)
    (lastVideoObject s) (lastVideoBlob s) (initialFormValues s)
    (audioAppState s) v (audioErrorMessage s) (lastAudioConfig s)
    (activeTool s) (showApiKeyDialog s).

(** [setAudioErrorMessage] *)
Definition set_audioErrorMessage (s : t) (v : option string) : t :=
  mk (appState s) (videoUrl s) (errorMessage s) (lastConfig s)
    (lastVideoObject s) (lastVideoBlob s) (initialFormValues s)
    (audioAppState s) (audioUrl s) v (lastAudioConfig s) (activeTool s)
    (showApiKeyDialog s).

(** [setLastAudioConfig] *)
Definition set_lastAudioConfig (s : t) (v : option GenerateAudioParams.t) : t :=
  mk (appState s) (videoUrl s) (errorMessage s) (lastConfig s)
    (lastVideoObject s) (lastVideoBlob s) (initialFormValues s)
    (audioAppState s) (audioUrl s) (audioErrorMessage s) v (activeTool s)
    (showApiKeyDialog s).

(** [setShowApiKeyDialog] *)
Definition set_showApiKeyDialog (s : t) (v : bool) : t :=
  mk (appState s) (videoUrl s) (errorMessage s) (lastConfig s)
    (lastVideoObject s) (lastVideoBlob s) (initialFormValues s)
    (audioAppState s) (audioUrl s) (audioErrorMessage s) (lastAudioConfig s)
    (activeTool s) v.

(** The state of the first render. *)
Definition initial : t :=
  mk IDLE None None None None None None IDLE None None None VideoTool false.
End App.

(** What [renderVideoWorkflow] shows: the prompt form with its initial
    values, the loading indicator, the result view with its [videoUrl] and
    [canExtend] props, the error panel with its message, or nothing. *)
Inductive VideoView : Type :=
| PromptFormView (initialValues : option GenerateVideoParams.t)
| LoadingIndicatorView
| VideoResultView (videoUrl : string) (canExtend : bool)
| ErrorView (message : string)
| NothingView.

(** How [window.aistudio] stands: absent, or present with the way
    [hasSelectedApiKey()] settles.  [keyMissing] is the guard that opens
    both generation handlers: it holds when the check answers false or
    throws. *)
Definition keyMissing (aistudio : option (Exn + bool)) : bool :=
  match aistudio with
  | Some (inr hasSelected) => negb hasSelected
  | Some (inl _) => true
  | None => false
  end.

(** [AudioPromptForm.handleSubmit]: the parameters handed to [onGenerate],
    when it is called. *)
Definition handleSubmit (prompt voice : string) : option GenerateAudioParams.t :=
  if negb (truthy (trim prompt)) then None
  else Some {| GenerateAudioParams.prompt := prompt;
               GenerateAudioParams.voice := voice |}.

Section Handlers.

(** [Resolution.P720], declared in [types.ts]. *)
Variable P720 : string.

(** [String.prototype.toLowerCase]. *)
Variable toLowerCase : string -> string.

(** [new File([blob], name, {type})]: the file, or what the constructor
    throws. *)
Variable newFile : Blob.t -> string -> string -> Exn + File.t.

Variables (w : World.t) (env : ProcessEnv.t).

(** How [window.aistudio] stands when a handler runs. *)
Variable aistudio : option (Exn + bool).

(** The [catch] of [handleGenerateVideo]: the message shown, and whether
    the key dialog is to open. *)
Definition classify (errorMessage : string) : string * bool :=
  let userFriendlyMessage := ("Video generation failed: " ++ errorMessage)%string in
  let shouldOpenDialog := false in
  if includes errorMessage "Requested entity was not found."
  then ("Model not found. This can be caused by an invalid API key or permission issues. Please check your API key.",
        true)
  else if includes errorMessage "API_KEY_INVALID"
          || includes errorMessage "API key not valid"
          || includes (toLowerCase errorMessage) "permission denied"
  then ("Your API key is invalid or lacks permissions. Please select a valid, billing-enabled API key.",
        true)
  else (userFriendlyMessage, shouldOpenDialog).

(** [handleGenerateVideo], observed after [fuel] steps of [generateVideo]:
    the calls made and the state reached. *)
Definition handleGenerateVideo (fuel : nat) (params : GenerateVideoParams.t)
           (s : App.t) : list Event * App.t :=
  if keyMissing aistudio then ([], App.set_showApiKeyDialog s true)
  else
    let s := App.set_appState s LOADING in
    let s := App.set_errorMessage s None in
    let s := App.set_lastConfig s (Some params) in
    let s := App.set_initialFormValues s None in
    match run fuel w (generateVideo env params) with
    | (tr, None) => (tr, s)
    | (tr, Some (inr result)) =>
      let s := App.set_videoUrl s (Some (VideoResult.objectUrl result)) in
      let s := App.set_lastVideoBlob s (Some (VideoResult.blob result)) in
      let s := App.set_lastVideoObject s (Some (VideoResult.video result)) in
      (tr, App.set_appState s SUCCESS)
    | (tr, Some (inl error)) =>
      let '(userFriendlyMessage, shouldOpenDialog) := classify (errorMessage error) in
      let s := App.set_errorMessage s (Some userFriendlyMessage) in
      let s := App.set_appState s ERROR in
      (tr, if shouldOpenDialog then App.set_showApiKeyDialog s true else s)
    end.

(** [handleGenerateAudio], likewise. *)
Definition handleGenerateAudio (fuel : nat) (params : GenerateAudioParams.t)
           (s : App.t) : list Event * App.t :=
  if keyMissing aistudio then ([], App.set_showApiKeyDialog s true)
  else
    let s := App.set_audioAppState s LOADING in
    let s := App.set_audioErrorMessage s None in
    let s := App.set_lastAudioConfig s (Some params) in
    match run fuel w (generateAudio env params) with
    | (tr, None) => (tr, s)
    | (tr, Some (inr result)) =>
      let s := App.set_audioUrl s (Some (AudioResult.objectUrl result)) in
      (tr, App.set_audioAppState s SUCCESS)
    | (tr, Some (inl error)) =>
      let errorMessageContent := errorMessage error in
      let s := App.set_audioErrorMessage s
                 (Some ("Audio generation failed: " ++ errorMessageContent)%string) in
      (tr, App.set_audioAppState s ERROR)
    end.

Definition handleRetryVideo (fuel : nat) (s : App.t) : list Event * App.t :=
  match App.lastConfig s with
  | Some lastConfig => handleGenerateVideo fuel lastConfig s
  | None => ([], s)
  end.

Definition handleNewVideo (s : App.t) : App.t :=
  let s := App.set_appState s IDLE in
  let s := App.set_videoUrl s None in
  let s := App.set_errorMessage s None in
  let s := App.set_lastConfig s None in
  let s := App.set_lastVideoObject s None in
  let s := App.set_lastVideoBlob s None in
  App.set_initialFormValues s None.

Definition handleNewAudio (s : App.t) : App.t :=
  let s := App.set_audioAppState s IDLE in
  let s := App.set_audioUrl s None in
  let s := App.set_audioErrorMessage s None in
  App.set_lastAudioConfig s None.

Definition handleTryAgainFromVideoError (s : App.t) : App.t :=
  match App.lastConfig s with
  | Some lastConfig =>
    let s := App.set_initialFormValues s (Some lastConfig) in
    let s := App.set_appState s IDLE in
    App.set_errorMessage s None
  | None => handleNewVideo s
  end.

Definition handleTryAgainFromAudioError (s : App.t) : App.t :=
  let s := App.set_audioAppState s IDLE in
  App.set_audioErrorMessage s None.

(** The form values [handleExtend] prepares:
    [{...lastConfig, mode: EXTEND_VIDEO, prompt: '', ...}]. *)
Definition extension (lastConfig : GenerateVideoParams.t) (videoFile : VideoFile.t)
           (lastVideoObject : Video.t) : GenerateVideoParams.t :=
  {| GenerateVideoParams.prompt := EmptyString;
     GenerateVideoParams.model := GenerateVideoParams.model lastConfig;
     GenerateVideoParams.aspectRatio := GenerateVideoParams.aspectRatio lastConfig;
     GenerateVideoParams.resolution := P720;
     GenerateVideoParams.mode := EXTEND_VIDEO;
     GenerateVideoParams.startFrame := None;
     GenerateVideoParams.endFrame := None;
     GenerateVideoParams.referenceImages := Some [];
     GenerateVideoParams.styleImage := None;
     GenerateVideoParams.inputVideo := Some videoFile;
     GenerateVideoParams.inputVideoObject := Some lastVideoObject;
     GenerateVideoParams.isLooping := false |}.

Definition handleExtend (s : App.t) : App.t :=
  match App.lastConfig s, App.lastVideoBlob s, App.lastVideoObject s with
  | Some lastConfig, Some lastVideoBlob, Some lastVideoObject =>
    match newFile lastVideoBlob "last_video.mp4" (Blob.type lastVideoBlob) with
    | inr file =>
      let videoFile := {| VideoFile.file := file; VideoFile.base64 := EmptyString |} in
      let s := App.set_initialFormValues s
                 (Some (extension lastConfig videoFile lastVideoObject)) in
      let s := App.set_appState s IDLE in
      let s := App.set_videoUrl s None in
      App.set_errorMessage s None
    | inl error =>
      let message := errorMessage error in
      let s := App.set_errorMessage s
                 (Some ("Failed to prepare video for extension: " ++ message)%string) in
      App.set_appState s ERROR
    end
  | _, _, _ => s
  end.

(** [renderVideoWorkflow]: the form when idle, otherwise the one child
    whose condition holds, if any.  The result view is there only in
    SUCCESS with a [videoUrl] that is not empty; its [canExtend] is
    [lastConfig?.resolution === Resolution.P720]. *)
Definition renderVideoWorkflow (s : App.t) : VideoView :=
  match App.appState s with
  | IDLE => PromptFormView (App.initialFormValues s)
  | LOADING => LoadingIndicatorView
  | SUCCESS =>
    let canExtend :=
      match App.lastConfig s with
      | Some lastConfig => String.eqb (GenerateVideoParams.resolution lastConfig) P720
      | None => false
      end in
    match App.videoUrl s with
    | Some videoUrl =>
      if truthy videoUrl then VideoResultView videoUrl canExtend
      else ErrorView "Video generated, but URL is missing. Please try again."
    | None => ErrorView "Video generated, but URL is missing. Please try again."
    end
  | ERROR =>
    match App.errorMessage s with
    | Some errorMessage =>
      if truthy errorMessage then ErrorView errorMessage else NothingView
    | None => NothingView
    end
  end.

End Handlers.

(** The state of each workflow; the key dialog and the active tool are
    shared. *)
Definition video_part (s : App.t)
  : AppState * option string * option string * option GenerateVideoParams.t
    * option Video.t * option Blob.t * option GenerateVideoParams.t :=
  (App.appState s, App.videoUrl s, App.errorMessage s, App.lastConfig s,
   App.lastVideoObject s, App.lastVideoBlob s, App.initialFormValues s).

Definition audio_part (s : App.t)
  : AppState * option string * option string * option GenerateAudioParams.t :=
  (App.audioAppState s, App.audioUrl s, App.audioErrorMessage s,
   App.lastAudioConfig s).

(** The inline audio of a response, read off its shape: the data and the
    MIME type of the inline data of the first part of the first candidate,
    when both are there and neither is the empty string.  This is not a
    translation of the source but what its optional chaining and its test
    are compared with. *)
Definition inline_audio (response : ContentResponse.t) : option (string * string) :=
  match ContentResponse.candidates response with
  | Some (candidate :: _) =>
    match Candidate.content candidate with
    | Some content =>
      match Content.parts content with
      | Some (part :: _) =>
        match Part.inlineData part with
        | Some inlineData =>
          match InlineData.data inlineData, InlineData.mimeType inlineData with
          | Some (String a data), Some (String b mimeType) =>
            Some (String a data, String b mimeType)
          | _, _ => None
          end
        | None => None
        end
      | _ => None
      end
    | None => None
    end
  | _ => None
  end.

(** How [generateAudio] settles once its client is constructed, given the
    answer to its request. *)
Definition spoken (answer : Exn + ContentResponse.t) : Exn + AudioResult.t :=
  match answer with
  | inl error => inl (Error ("Failed to generate audio: " ++ errorMessage error))
  | inr response =>
    match inline_audio response with
    | Some (base64Audio, mimeType) =>
      inr {| AudioResult.objectUrl :=
               "data:" ++ mimeType ++ ";base64," ++ base64Audio |}
    | None =>
      inl (Error ("Failed to generate audio: "
                  ++ "Audio data not found in the API response."))
    end
  end.

(** More sample worlds. *)
Module Scenes.

(** The operation is never done. *)
Definition stalling : World.t :=
  {| World.generateContent := fun _ => inr Samples.speech;
     World.generateVideos := fun _ => inr (Samples.pending "operations/7");
     World.getVideosOperation := fun _ _ => inr (Samples.pending "operations/7");
     World.fetch := fun _ => inr Samples.ok_response;
     World.createObjectURL := fun _ => "blob:veo-studio/1" |}.

(** Done at once, with one video. *)
Definition ready : World.t :=
  Samples.scripted (inr (Samples.finished [Samples.clip Samples.encoded_uri])) []
                   (inr Samples.ok_response).

(** Done at once, with a URI that does not decode. *)
Definition garbled : World.t :=
  Samples.scripted (inr (Samples.finished [Samples.clip "https://h.example/100%"])) []
                   (inr Samples.ok_response).

(** Done at once, but without a response. *)
Definition hollow : World.t :=
  Samples.scripted
    (inr {| Operation.name := "operations/7"; Operation.done := true;
            Operation.response := None |})
    [] (inr Samples.ok_response).

(** The submission is refused for the key. *)
Definition keyless : World.t :=
  Samples.scripted
    (inl (Error "API key not valid. Please pass a valid API key."))
    [] (inr Samples.ok_response).

(** The speech request is refused. *)
Definition mute : World.t :=
  {| World.generateContent := fun _ => inl (Error "API key not valid.");
     World.generateVideos := fun _ => inr (Samples.pending "operations/7");
     World.getVideosOperation := fun _ operation => inr operation;
     World.fetch := fun _ => inr Samples.ok_response;
     World.createObjectURL := fun _ => "blob:veo-studio/1" |}.

(** The model answers with text. *)
Definition eloquent (text : option string) : World.t :=
  {| World.generateContent :=
       fun _ => inr {| ContentResponse.text := text;
                       ContentResponse.candidates := None |};
     World.generateVideos := fun _ => inr (Samples.pending "operations/7");
     World.getVideosOperation := fun _ operation => inr operation;
     World.fetch := fun _ => inr Samples.ok_response;
     World.createObjectURL := fun _ => "blob:veo-studio/1" |}.

(** ASCII case folding, for [toLowerCase] on sample messages. *)
Definition lower (c : ascii) : ascii :=
  let n := nat_of_ascii c in
  if (65 <=? n) && (n <=? 90) then ascii_of_nat (n + 32) else c.

Fixpoint toLowerCase (s : string) : string :=
  match s with
  | EmptyString => EmptyString
  | String c s' => String (lower c) (toLowerCase s')
  end.

Definition newFile (blob : Blob.t) (name type : string) : Exn + File.t :=
  inr {| File.name := name; File.type := type |}.

End Scenes.

(* ===================================================================== *)
(** * Part II - properties *)
(* ===================================================================== *)

(** ** [trim] and strings of white space *)

Section Trim.

Lemma strip_sound p : forall s r, strip p s = Some r -> s = p ++ r.
Proof.
  induction p as [|a p IH]; intros s r H; cbn in H.
  - now inversion H.
  - destruct s as [|b s]; [discriminate|].
    destruct (Ascii.eqb a b) eqn:E; [|discriminate].
    apply Ascii.eqb_eq in E. subst b. cbn. f_equal. now apply IH.
Qed.

Lemma strip_complete p : forall s, strip p (p ++ s) = Some s.
Proof.
  induction p as [|a p IH]; intros s; cbn; [reflexivity|].
  now rewrite Ascii.eqb_refl.
Qed.

Lemma strip_any_sound ps : forall s r,
  strip_any ps s = Some r -> exists p, In p ps /\ s = p ++ r.
Proof.
  induction ps as [|p ps IH]; intros s r H; cbn in H; [discriminate|].
  destruct (strip p s) as [r'|] eqn:E.
  - inversion H; subst r'. exists p. split; [now left | now apply strip_sound].
  - destruct (IH _ _ H) as (q & Hq & ->). exists q. split; [now right | reflexivity].
Qed.

Lemma strip_any_complete ps : forall p s,
  In p ps -> strip_any ps (p ++ s) <> None.
Proof.
  induction ps as [|q ps IH]; intros p s Hin; [destruct Hin|].
  destruct Hin as [->|Hin]; cbn.
  - now rewrite strip_complete.
  - destruct (strip q (p ++ s)); [discriminate | now apply IH].
Qed.

Lemma WhiteSpace_nonempty p : In p WhiteSpace -> p <> [].
Proof.
  unfold WhiteSpace. cbn. intros H.
  repeat (destruct H as [<-|H]; [discriminate|]). destruct H.
Qed.

Lemma strip_any_shorter s r :
  strip_any WhiteSpace s = Some r -> List.length r < List.length s.
Proof.
  intros H. destruct (strip_any_sound _ _ _ H) as (p & Hp & ->).
  apply WhiteSpace_nonempty in Hp. rewrite length_app.
  destruct p; [congruence | cbn; lia].
Qed.

Lemma Seq_app ps s1 s2 : Seq ps s1 -> Seq ps s2 -> Seq ps (s1 ++ s2).
Proof.
  induction 1 as [|p s Hp _ IH]; intros H2; cbn; [assumption|].
  rewrite <- app_assoc. constructor; auto.
Qed.

Lemma Seq_rev ps s : Seq (map (@rev ascii) ps) s -> Seq ps (rev s).
Proof.
  induction 1 as [|q s Hq _ IH]; cbn; [constructor|].
  apply in_map_iff in Hq. destruct Hq as (p & <- & Hp).
  rewrite rev_app_distr, rev_involutive.
  apply Seq_app; [assumption|].
  rewrite <- (app_nil_r p). constructor; [assumption | constructor].
Qed.

Lemma strip_all_nil ps n : forall s, strip_all n ps s = [] -> Seq ps s.
Proof.
  induction n as [|n IH]; intros s H; cbn in H.
  - subst s. constructor.
  - destruct (strip_any ps s) as [r|] eqn:E.
    + destruct (strip_any_sound _ _ _ E) as (p & Hp & ->).
      constructor; [assumption | now apply IH].
    + subst s. constructor.
Qed.

(** What [trimStart] leaves does not start with white space. *)
Lemma strip_all_stuck n : forall s,
  List.length s <= n ->
  strip_all n WhiteSpace s = [] \/ strip_any WhiteSpace (strip_all n WhiteSpace s) = None.
Proof.
  induction n as [|n IH]; intros s Hn; cbn [strip_all].
  - destruct s; [now left | cbn in Hn; lia].
  - destruct (strip_any WhiteSpace s) as [r|] eqn:E.
    + apply IH. apply strip_any_shorter in E. lia.
    + now right.
Qed.

Lemma Seq_starts s : Seq WhiteSpace s -> s <> [] -> strip_any WhiteSpace s <> None.
Proof.
  intros H. induction H as [|p s Hp Hs IH]; intros Hne; [congruence|].
  now apply strip_any_complete.
Qed.

Lemma trimEnd_nil s : trimEnd s = [] -> Seq WhiteSpace s.
Proof.
  unfold trimEnd. intros H.
  assert (H' : strip_all (List.length s) (map (@rev ascii) WhiteSpace) (rev s) = []).
  { apply (f_equal (@rev ascii)) in H. now rewrite rev_involutive in H. }
  apply strip_all_nil, Seq_rev in H'. now rewrite rev_involutive in H'.
Qed.

Lemma trimEnd_trimStart_nil s : trimEnd (trimStart s) = [] <-> trimStart s = [].
Proof.
  split.
  - intros H. pose proof (trimEnd_nil _ H) as Hseq.
    destruct (strip_all_stuck (List.length s) s (le_n _)) as [E|E]; [exact E|].
    fold (trimStart s) in E.
    destruct (trimStart s) as [|a t] eqn:Et; [reflexivity|].
    exfalso. apply (Seq_starts _ Hseq); [discriminate | exact E].
  - intros ->. reflexivity.
Qed.

Lemma all_white_space_strip_all n : forall s,
  List.length s <= n ->
  all_white_space n s = true <-> strip_all n WhiteSpace s = [].
Proof.
  induction n as [|n IH]; intros s Hn.
  - destruct s; cbn [all_white_space strip_all List.length] in *; [tauto | lia].
  - destruct s as [|a s]; [cbn [all_white_space strip_all strip_any]|].
    { change (strip_any WhiteSpace []) with (@None (list ascii)). tauto. }
    cbn [all_white_space strip_all].
    destruct (strip_any WhiteSpace (a :: s)) as [r|] eqn:E.
    + apply IH. apply strip_any_shorter in E. lia.
    + split; discriminate.
Qed.

Lemma length_list_ascii_of_string s :
  List.length (list_ascii_of_string s) = String.length s.
Proof. induction s; cbn; congruence. Qed.

(** [!prompt.trim()] holds exactly of the strings of white space. *)
Lemma truthy_trim s : truthy (trim s) = negb (whitespace_only s).
Proof.
  unfold trim, whitespace_only. rewrite <- length_list_ascii_of_string.
  set (l := list_ascii_of_string s).
  pose proof (all_white_space_strip_all (List.length l) l (le_n _)) as Hw.
  fold (trimStart l) in Hw.
  pose proof (trimEnd_trimStart_nil l) as Ht.
  destruct (trimEnd (trimStart l)) as [|a t] eqn:Et; cbn.
  - destruct (all_white_space (List.length l) l); [reflexivity|].
    assert (trimStart l = []) by now apply Ht. apply Hw in H. discriminate.
  - destruct (all_white_space (List.length l) l); [|reflexivity].
    assert (trimStart l = []) by now apply Hw. apply Ht in H. discriminate.
Qed.

End Trim.

(** ** Observing interaction trees *)

Section Exec.

Context {R : Type}.
Implicit Types (w : World.t) (t : itree envE R).

(** [exec] sees a tree through [observe] only. *)
Lemma exec_observe fuel w polls t t' :
  observe t = observe t' -> exec fuel w polls t = exec fuel w polls t'.
Proof. destruct fuel; cbn; [reflexivity|]. now intros ->. Qed.

Lemma exec_Ret fuel w polls (r : R) :
  exec (S fuel) w polls (Ret r) = ([], Some (r, polls, S fuel)).
Proof. reflexivity. Qed.

(** A settled run has a step left, and no more than it started with. *)
Lemma exec_leftover fuel : forall w polls t tr r polls' rest,
  exec fuel w polls t = (tr, Some (r, polls', rest)) ->
  exists rest', rest = S rest' /\ rest <= fuel.
Proof.
  induction fuel as [|fuel IH]; intros w polls t tr r polls' rest H; cbn in H.
  - discriminate.
  - destruct (observe t) as [r0 | t0 | X e k].
    + inversion H; subst. eauto.
    + destruct (IH _ _ _ _ _ _ _ H) as (l & -> & Hl). eauto.
    + destruct (exec fuel w (polled e polls) (k (answer w polls e)))
        as [tr0 o0] eqn:E.
      inversion H; subst.
      destruct (IH _ _ _ _ _ _ _ E) as (l & -> & Hl). eauto.
Qed.

(** More steps do not change a settled run. *)
Lemma exec_more extra fuel : forall w polls t tr r polls' rest,
  exec fuel w polls t = (tr, Some (r, polls', rest)) ->
  exec (extra + fuel) w polls t = (tr, Some (r, polls', extra + rest)).
Proof.
  induction fuel as [|fuel IH]; intros w polls t tr r polls' rest H; cbn in H.
  - discriminate.
  - rewrite Nat.add_succ_r. cbn [exec].
    destruct (observe t) as [r0 | t0 | X e k].
    + inversion H; subst. now rewrite Nat.add_succ_r.
    + now apply IH.
    + destruct (exec fuel w (polled e polls) (k (answer w polls e)))
        as [tr0 o0] eqn:E.
      inversion H; subst. now rewrite (IH _ _ _ _ _ _ _ E).
Qed.

End Exec.

Section Sequencing.

Context {A B : Type}.

(** Running [ITree.bind t h] is running [t], then [h] on its result with
    the steps that are left. *)
Lemma exec_ITree_bind (t : itree envE A) (h : A -> itree envE B) fuel :
  forall w polls,
  exec fuel w polls (ITree.bind t h) =
  match exec fuel w polls t with
  | (tr, None) => (tr, None)
  | (tr, Some (x, polls', rest)) =>
    let '(tr2, o) := exec rest w polls' (h x) in (tr ++ tr2, o)
  end.
Proof.
  revert t. induction fuel as [|fuel IH]; intros t w polls; [reflexivity|].
  cbn [exec]. rewrite observe_bind.
  destruct (observe t) as [r | t' | X e k]; cbn [observe _observe].
  - change (exec (S fuel) w polls (h r)
            = let '(tr2, o) := exec (S fuel) w polls (h r) in ([] ++ tr2, o)).
    now destruct (exec (S fuel) w polls (h r)).
  - apply IH.
  - rewrite IH.
    destruct (exec fuel w (polled e polls) (k (answer w polls e)))
      as [tr [[[x polls'] rest]|]]; [|reflexivity].
    now destruct (exec rest w polls' (h x)).
Qed.

End Sequencing.

Section Async.

Context {A B : Type}.
Implicit Types (w : World.t).

Lemma exec_bind (t : Async A) (h : A -> Async B) fuel w polls :
  exec fuel w polls (bind t h) =
  match exec fuel w polls t with
  | (tr, None) => (tr, None)
  | (tr, Some (inl e, polls', rest)) => (tr, Some (inl e, polls', rest))
  | (tr, Some (inr a, polls', rest)) =>
    let '(tr2, o) := exec rest w polls' (h a) in (tr ++ tr2, o)
  end.
Proof.
  unfold bind. rewrite exec_ITree_bind.
  destruct (exec fuel w polls t) as [tr [[[[e|a] polls'] rest]|]] eqn:E;
    try reflexivity.
  destruct (exec_leftover _ _ _ _ _ _ _ _ E) as (l & -> & _).
  rewrite exec_Ret, app_nil_r. reflexivity.
Qed.

Lemma exec_try_catch (t : Async A) (h : Exn -> Async A) fuel w polls :
  exec fuel w polls (try_catch t h) =
  match exec fuel w polls t with
  | (tr, None) => (tr, None)
  | (tr, Some (inl e, polls', rest)) =>
    let '(tr2, o) := exec rest w polls' (h e) in (tr ++ tr2, o)
  | (tr, Some (inr a, polls', rest)) => (tr, Some (inr a, polls', rest))
  end.
Proof.
  unfold try_catch. rewrite exec_ITree_bind.
  destruct (exec fuel w polls t) as [tr [[[[e|a] polls'] rest]|]] eqn:E;
    try reflexivity.
  destruct (exec_leftover _ _ _ _ _ _ _ _ E) as (l & -> & _).
  rewrite exec_Ret, app_nil_r. reflexivity.
Qed.

Lemma exec_await (e : envE (Exn + A)) fuel w polls :
  exec (S (S fuel)) w polls (await e) =
  ([mkEvent (call_of e) (rejection_of e (answer w polls e))],
   Some (answer w polls e, polled e polls, S fuel)).
Proof. reflexivity. Qed.

Lemma exec_perform (e : envE A) fuel w polls :
  exec (S (S fuel)) w polls (perform e) =
  ([mkEvent (call_of e) (rejection_of e (answer w polls e))],
   Some (inr (answer w polls e), polled e polls, S fuel)).
Proof. reflexivity. Qed.

End Async.

(** ** The polling loop *)

Section Loop.

Variable w : World.t.

(** One turn of the loop. *)
Lemma whileNotDone_unfold fuel polls operation :
  exec fuel w polls (whileNotDone operation) =
  exec fuel w polls
    (ITree.bind
       (if negb (Operation.done operation)
        then
          ITree.bind (ITree.trigger (SetTimeout 10000%N)) (fun _ =>
          ITree.bind (ITree.trigger (GetVideosOperation operation)) (fun r =>
          match r with
          | inl e => Ret (inr (inl e))
          | inr operation' => Ret (inl operation')
          end))
        else Ret (inr (inr operation)))
       (fun lr => match lr with
                  | inl l => Tau (whileNotDone l)
                  | inr r => Ret r
                  end)).
Proof. apply exec_observe. reflexivity. Qed.

Lemma whileNotDone_done fuel polls operation :
  Operation.done operation = true ->
  exec (S fuel) w polls (whileNotDone operation)
  = ([], Some (inr operation, polls, S fuel)).
Proof. intros H. rewrite whileNotDone_unfold, H. reflexivity. Qed.

Lemma whileNotDone_sleeping polls operation :
  Operation.done operation = false ->
  exec 1 w polls (whileNotDone operation) = ([slept], None).
Proof. intros H. rewrite whileNotDone_unfold, H. reflexivity. Qed.

Lemma whileNotDone_asking polls operation :
  Operation.done operation = false ->
  exec 2 w polls (whileNotDone operation) = ([slept; asked w polls operation], None).
Proof. intros H. rewrite whileNotDone_unfold, H. reflexivity. Qed.

Lemma whileNotDone_rejected fuel polls operation e :
  Operation.done operation = false ->
  World.getVideosOperation w polls operation = inl e ->
  exec (3 + fuel) w polls (whileNotDone operation)
  = ([slept; asked w polls operation], Some (inl e, S polls, S fuel)).
Proof.
  intros H Hw. rewrite whileNotDone_unfold, H.
  cbn. unfold asked. rewrite Hw. reflexivity.
Qed.

Lemma whileNotDone_again fuel polls operation operation' :
  Operation.done operation = false ->
  World.getVideosOperation w polls operation = inr operation' ->
  exec (3 + fuel) w polls (whileNotDone operation)
  = let '(tr, o) := exec fuel w (S polls) (whileNotDone operation') in
    (slept :: asked w polls operation :: tr, o).
Proof.
  intros H Hw. rewrite whileNotDone_unfold, H.
  cbn. unfold asked. rewrite Hw. cbn.
  now destruct (exec fuel w (S polls) (whileNotDone operation')).
Qed.

(** Induction over the runs of the loop, three steps a turn. *)
Lemma whileNotDone_ind
      (P : nat -> nat -> Operation.t
           -> list Event * option ((Exn + Operation.t) * nat * nat) -> Prop) :
  (forall polls op, P 0 polls op ([], None)) ->
  (forall fuel polls op,
      Operation.done op = true ->
      P (S fuel) polls op ([], Some (inr op, polls, S fuel))) ->
  (forall polls op,
      Operation.done op = false -> P 1 polls op ([slept], None)) ->
  (forall polls op,
      Operation.done op = false ->
      P 2 polls op ([slept; asked w polls op], None)) ->
  (forall fuel polls op e,
      Operation.done op = false ->
      World.getVideosOperation w polls op = inl e ->
      P (3 + fuel) polls op
        ([slept; asked w polls op], Some (inl e, S polls, S fuel))) ->
  (forall fuel polls op op',
      Operation.done op = false ->
      World.getVideosOperation w polls op = inr op' ->
      P fuel (S polls) op' (exec fuel w (S polls) (whileNotDone op')) ->
      P (3 + fuel) polls op
        (let '(tr, o) := exec fuel w (S polls) (whileNotDone op') in
         (slept :: asked w polls op :: tr, o))) ->
  forall fuel polls op, P fuel polls op (exec fuel w polls (whileNotDone op)).
Proof.
  intros H0 Hdone H1 H2 Hrej Hagain fuel.
  induction fuel as [fuel IH] using lt_wf_ind. intros polls op.
  destruct fuel as [|fuel]; [apply H0|].
  destruct (Operation.done op) eqn:Hd.
  - rewrite whileNotDone_done by assumption. now apply Hdone.
  - destruct fuel as [|fuel];
      [rewrite whileNotDone_sleeping by assumption; now apply H1|].
    destruct fuel as [|fuel];
      [rewrite whileNotDone_asking by assumption; now apply H2|].
    destruct (World.getVideosOperation w polls op) as [e|op'] eqn:Hw.
    + rewrite (whileNotDone_rejected fuel _ _ e) by assumption. now apply Hrej.
    + rewrite (whileNotDone_again fuel _ _ op') by assumption.
      apply Hagain; try assumption. apply IH. lia.
Qed.

(** The loop has no bound of its own: while the world keeps answering
    not done, no number of steps settles it. *)
Lemma whileNotDone_unbounded :
  (forall polls op,
      exists op', World.getVideosOperation w polls op = inr op'
                  /\ Operation.done op' = false) ->
  forall fuel polls op,
    Operation.done op = false ->
    snd (exec fuel w polls (whileNotDone op)) = None.
Proof.
  intros Hw.
  apply (whileNotDone_ind
           (fun _ _ op res => Operation.done op = false -> snd res = None)).
  - reflexivity.
  - intros fuel polls op Hd Hd'. congruence.
  - reflexivity.
  - reflexivity.
  - intros fuel polls op e _ He _.
    destruct (Hw polls op) as (op' & Hop & _). congruence.
  - intros fuel polls op op' _ Hop IH _.
    destruct (Hw polls op) as (op'' & Hop' & Hd'').
    assert (op'' = op') by congruence. subst op''.
    specialize (IH Hd'').
    now destruct (exec fuel w (S polls) (whileNotDone op')).
Qed.

End Loop.

(** ** Failures passed on, calls made *)

Section Logic.

Lemma Verbatim_Ret {R} (r : Exn + R) : Verbatim (Ret r : Async R).
Proof.
  intros fuel w polls tr o c e H Hin.
  destruct fuel; cbn in H; inversion H; subst; destruct Hin.
Qed.

Lemma Verbatim_bind {A B} (t : Async A) (h : A -> Async B) :
  Verbatim t -> (forall a, Verbatim (h a)) -> Verbatim (bind t h).
Proof.
  intros Ht Hh fuel w polls tr o c e H Hin.
  rewrite exec_bind in H. rewrite exec_bind.
  destruct (exec fuel w polls t) as [tr1 [[[[e1|a] polls1] rest1]|]] eqn:E1.
  - inversion H; subst.
    destruct (Ht _ _ _ _ _ _ _ E1 Hin) as (p & r & ->). eauto.
  - destruct (exec rest1 w polls1 (h a)) as [tr2 o2] eqn:E2.
    inversion H; subst. apply in_app_or in Hin.
    pose proof (exec_more 1 _ _ _ _ _ _ _ _ E1) as E1'. cbn [Nat.add] in E1'.
    destruct Hin as [Hin|Hin].
    + destruct (Ht _ _ _ _ _ _ _ E1 Hin) as (p & r & E). congruence.
    + destruct (Hh a _ _ _ _ _ _ _ E2 Hin) as (p & r & E).
      rewrite E1', E. eauto.
  - inversion H; subst.
    destruct (Ht _ _ _ _ _ _ _ E1 Hin) as (p & r & ->). eauto.
Qed.

Ltac verbatim_call :=
  let H := fresh "H" in
  let Hin := fresh "Hin" in
  intros [|[|?]] ? ? ? ? ? ? H Hin; cbn in H; inversion H; subst;
  cbn in Hin; try (destruct Hin as [Hin|[]]); try contradiction;
  inversion Hin; subst; cbn;
  match goal with
  | E : failure ?x = Some _ |- _ =>
    destruct x; cbn in E; inversion E; subst; eauto
  | _ => idtac
  end.

Lemma Verbatim_GenerateVideos payload : Verbatim (await (GenerateVideos payload)).
Proof. verbatim_call. Qed.

Lemma Verbatim_Fetch url : Verbatim (await (Fetch url)).
Proof. verbatim_call. Qed.

Lemma Verbatim_ReadBlob res : Verbatim (await (ReadBlob res)).
Proof. verbatim_call. Qed.

Lemma Verbatim_CreateObjectURL blob : Verbatim (perform (CreateObjectURL blob)).
Proof. verbatim_call. Qed.

Lemma Verbatim_whileNotDone operation : Verbatim (whileNotDone operation).
Proof.
  intros fuel w polls. revert fuel polls operation.
  apply (whileNotDone_ind w
           (fun fuel polls op res =>
              forall tr o c e,
                res = (tr, o) -> In (mkEvent c (Some e)) tr ->
                exists polls' rest,
                  exec (S fuel) w polls (whileNotDone op)
                  = (tr, Some (inl e, polls', rest)))).
  - intros polls op tr o c e H Hin. inversion H; subst. destruct Hin.
  - intros fuel polls op Hd tr o c e H Hin. inversion H; subst. destruct Hin.
  - intros polls op Hd tr o c e H Hin. inversion H; subst.
    destruct Hin as [Hin|[]]. discriminate.
  - intros polls op Hd tr o c e H Hin. inversion H; subst.
    destruct Hin as [Hin|[Hin|[]]]; [discriminate|].
    unfold asked in Hin. inversion Hin as [[Hc Hf]].
    destruct (World.getVideosOperation w polls op) as [e'|op'] eqn:Hw;
      cbn in Hf; inversion Hf; subst.
    pose proof (whileNotDone_rejected w 0 _ _ e Hd Hw) as E.
    cbn [Nat.add] in E. rewrite E.
    unfold asked. rewrite Hw. eauto.
  - intros fuel polls op e' Hd Hw tr o c e H Hin. inversion H; subst.
    destruct Hin as [Hin|[Hin|[]]]; [discriminate|].
    unfold asked in Hin. rewrite Hw in Hin. inversion Hin; subst.
    change (S (3 + fuel)) with (3 + S fuel).
    rewrite (whileNotDone_rejected w (S fuel) _ _ e Hd Hw). eauto.
  - intros fuel polls op op' Hd Hw IH tr o c e H Hin.
    destruct (exec fuel w (S polls) (whileNotDone op')) as [tr' o'] eqn:E.
    inversion H; subst.
    destruct Hin as [Hin|[Hin|Hin]]; [discriminate| |].
    + unfold asked in Hin. rewrite Hw in Hin. discriminate.
    + destruct (IH _ _ _ _ eq_refl Hin) as (p & r & E').
      change (S (3 + fuel)) with (3 + S fuel).
      rewrite (whileNotDone_again w (S fuel) _ _ op' Hd Hw), E'. eauto.
Qed.

Lemma Verbatim_submitAndAwait payload : Verbatim (submitAndAwait payload).
Proof.
  apply Verbatim_bind; [apply Verbatim_GenerateVideos|].
  intros op. apply Verbatim_whileNotDone.
Qed.

Lemma Verbatim_fetchVideo env operation : Verbatim (fetchVideo env operation).
Proof.
  unfold fetchVideo, throw, lift, ret.
  repeat
    match goal with
    | |- Verbatim (Ret _) => apply Verbatim_Ret
    | |- Verbatim (await (Fetch _)) => apply Verbatim_Fetch
    | |- Verbatim (await (ReadBlob _)) => apply Verbatim_ReadBlob
    | |- Verbatim (perform (CreateObjectURL _)) => apply Verbatim_CreateObjectURL
    | |- Verbatim (bind _ _) => apply Verbatim_bind; [|intros ?]
    | |- Verbatim (if ?b then _ else _) => destruct b
    | |- Verbatim (match ?x with _ => _ end) => destruct x
    end.
Qed.

Lemma Verbatim_generateVideo env params : Verbatim (generateVideo env params).
Proof.
  unfold generateVideo.
  apply Verbatim_bind; [apply Verbatim_Ret|]. intros ai.
  apply Verbatim_bind; [apply Verbatim_Ret|]. intros payload.
  apply Verbatim_bind; [apply Verbatim_submitAndAwait|]. intros op.
  apply Verbatim_fetchVideo.
Qed.

Lemma Only_Ret P {R} (r : R) : Only P (Ret r : itree envE R).
Proof. intros [|fuel] w polls; constructor. Qed.

Lemma Only_bind P {A B} (t : Async A) (h : A -> Async B) :
  Only P t -> (forall a, Only P (h a)) -> Only P (bind t h).
Proof.
  intros Ht Hh fuel w polls. rewrite exec_bind.
  pose proof (Ht fuel w polls) as H1.
  destruct (exec fuel w polls t) as [tr1 [[[[e1|a] polls1] rest1]|]];
    cbn [fst] in *; try assumption.
  pose proof (Hh a rest1 w polls1) as H2.
  destruct (exec rest1 w polls1 (h a)) as [tr2 o2]; cbn [fst] in *.
  apply Forall_app; split; assumption.
Qed.

Lemma Only_await P {X} (e : envE (Exn + X)) :
  P (call_of e) = true -> Only P (await e).
Proof.
  intros H [|[|fuel]] w polls; cbn; repeat constructor; assumption.
Qed.

Lemma Only_perform P {X} (e : envE X) :
  P (call_of e) = true -> Only P (perform e).
Proof.
  intros H [|[|fuel]] w polls; cbn; repeat constructor; assumption.
Qed.

Lemma Only_whileNotDone P operation :
  P (CallSetTimeout 10000%N) = true ->
  (forall op, P (CallGetVideosOperation op) = true) ->
  Only P (whileNotDone operation).
Proof.
  intros Hs Hp fuel w polls. revert fuel polls operation.
  apply (whileNotDone_ind w
           (fun _ _ _ res => Forall (fun ev => P (call ev) = true) (fst res)));
    cbn [fst].
  1-5: intros; repeat constructor; cbn [call slept asked]; auto.
  intros fuel polls op op' _ _ IH.
  destruct (exec fuel w (S polls) (whileNotDone op')); cbn [fst] in *.
  repeat constructor; cbn [call slept asked]; auto.
Qed.

(** Submitting and polling fetch nothing. *)
Lemma Only_submitAndAwait payload : Only not_fetch (submitAndAwait payload).
Proof.
  apply Only_bind; [now apply Only_await|].
  intros op. now apply Only_whileNotDone.
Qed.

(** The calls of [fetchVideo] are the fetch, the reading of the body and
    the creation of the object URL. *)
Lemma Only_fetchVideo P env operation :
  (forall url, P (CallFetch url) = true) ->
  (forall res, P (CallReadBlob res) = true) ->
  (forall blob, P (CallCreateObjectURL blob) = true) ->
  Only P (fetchVideo env operation).
Proof.
  intros Hf Hr Hc. unfold fetchVideo, throw, lift, ret.
  repeat
    match goal with
    | |- Only _ (Ret _) => apply Only_Ret
    | |- Only _ (await _) => apply Only_await; cbn [call_of]; auto
    | |- Only _ (perform _) => apply Only_perform; cbn [call_of]; auto
    | |- Only _ (bind _ _) => apply Only_bind; [|intros ?]
    | |- Only _ (if ?b then _ else _) => destruct b
    | |- Only _ (match ?x with _ => _ end) => destruct x
    end.
Qed.

Lemma filter_none {A} (f : A -> bool) l :
  Forall (fun x => negb (f x) = true) l -> filter f l = [].
Proof.
  induction 1 as [|x l Hx _ IH]; cbn; [reflexivity|].
  destruct (f x); [discriminate | exact IH].
Qed.

End Logic.

(** ** The parts of [generateVideo] *)

Section Parts.

Variables (w : World.t) (env : ProcessEnv.t).

Lemma run_settled {R} fuel (t : itree envE R) tr r :
  run fuel w t = (tr, Some r) ->
  exists polls rest, exec fuel w 0 t = (tr, Some (r, polls, S rest)).
Proof.
  unfold run. destruct (exec fuel w 0 t) as [tr' [[[r' polls] rest]|]] eqn:E;
    cbn; intros H; inversion H; subst.
  destruct (exec_leftover _ _ _ _ _ _ _ _ E) as (rest' & -> & _). eauto.
Qed.

Lemma run_of_exec {R} fuel (t : itree envE R) tr o :
  exec fuel w 0 t = (tr, o) -> run fuel w t = (tr, settled o).
Proof. unfold run. now intros ->. Qed.

(** Without a key the constructor throws, and that is the end of
    [generateVideo]. *)
Lemma exec_generateVideo_no_key params fuel polls :
  ProcessEnv.API_KEY env = None ->
  exec fuel w polls (generateVideo env params)
  = match fuel with
    | 0 => ([], None)
    | S _ =>
      ([], Some (inl (Error "An API Key must be set when running in a browser"),
                 polls, fuel))
    end.
Proof.
  intros H. unfold generateVideo, lift. rewrite H, exec_bind.
  destruct fuel as [|fuel]; [reflexivity|].
  cbn [GoogleGenAI.new]. rewrite exec_Ret. reflexivity.
Qed.

(** With a key, [generateVideo] is what follows the construction of the
    client. *)
Lemma exec_generateVideo_key params key fuel polls :
  ProcessEnv.API_KEY env = Some key ->
  exec fuel w polls (generateVideo env params)
  = exec fuel w polls
         (generateVideoPayload <- lift (buildPayload params) ;;
          operation <- submitAndAwait generateVideoPayload ;;
          fetchVideo env operation).
Proof.
  intros H. unfold generateVideo. rewrite H. cbn [GoogleGenAI.new].
  unfold lift at 1. rewrite exec_bind.
  destruct fuel as [|fuel]; [reflexivity|].
  rewrite exec_Ret.
  match goal with
  | |- (let '(_, _) := ?x in _) = _ => now destruct x
  end.
Qed.

(** Once the client is constructed and the payload is built,
    [generateVideo] is the submission and the loop, then the fetch. *)
Lemma exec_generateVideo params payload key fuel polls :
  ProcessEnv.API_KEY env = Some key ->
  buildPayload params = inr payload ->
  exec fuel w polls (generateVideo env params)
  = exec fuel w polls (bind (submitAndAwait payload) (fetchVideo env)).
Proof.
  intros Hk H. rewrite (exec_generateVideo_key _ _ _ _ Hk).
  unfold lift. rewrite H, exec_bind.
  destruct fuel as [|fuel]; [reflexivity|].
  rewrite exec_Ret.
  now destruct (exec (S fuel) w polls (bind (submitAndAwait payload) (fetchVideo env))).
Qed.

(** A request that is refused: nothing is called. *)
Lemma exec_generateVideo_refused params e key fuel polls :
  ProcessEnv.API_KEY env = Some key ->
  buildPayload params = inl e ->
  exec fuel w polls (generateVideo env params)
  = match fuel with
    | 0 => ([], None)
    | S _ => ([], Some (inl e, polls, fuel))
    end.
Proof.
  intros Hk H. rewrite (exec_generateVideo_key _ _ _ _ Hk).
  unfold lift. rewrite H, exec_bind.
  destruct fuel as [|fuel]; [reflexivity|].
  rewrite exec_Ret. reflexivity.
Qed.

(** The first call of [generateVideo] submits the payload it built. *)
Lemma generateVideo_submits params payload key fuel :
  ProcessEnv.API_KEY env = Some key ->
  buildPayload params = inr payload ->
  exists tr o,
    run (S fuel) w (generateVideo env params) = (submitted w payload :: tr, o).
Proof.
  intros Hk H. unfold run. rewrite (exec_generateVideo _ _ _ _ _ Hk H).
  rewrite exec_bind. unfold submitAndAwait. rewrite exec_bind.
  destruct fuel as [|fuel]; [cbn; eauto|].
  rewrite exec_await. cbn [answer polled call_of is_poll rejection_of].
  fold (submitted w payload).
  destruct (World.generateVideos w payload) as [e|op]; [cbn; eauto|].
  destruct (exec (S fuel) w 0 (whileNotDone op)) as [tr1 [[[[e|op'] p1] r1]|]];
    cbn [app]; eauto.
  destruct (exec r1 w p1 (fetchVideo env op')) as [tr2 o2]. cbn [app]. eauto.
Qed.

(** A run of [generateVideo] on top of a settled run of the submission
    and the loop. *)
Lemma exec_generateVideo_done params payload key fuel tr op polls rest :
  ProcessEnv.API_KEY env = Some key ->
  buildPayload params = inr payload ->
  exec fuel w 0 (submitAndAwait payload) = (tr, Some (inr op, polls, rest)) ->
  forall extra,
    exec (extra + fuel) w 0 (generateVideo env params)
    = let '(tr2, o) := exec (extra + rest) w polls (fetchVideo env op) in
      (tr ++ tr2, o).
Proof.
  intros Hk H E extra. rewrite (exec_generateVideo _ _ _ _ _ Hk H), exec_bind.
  now rewrite (exec_more extra _ _ _ _ _ _ _ _ E).
Qed.

Lemma fetchVideo_no_videos operation response fuel polls :
  Operation.response operation = Some response ->
  GenerateVideosResponse.generatedVideos response = None
  \/ GenerateVideosResponse.generatedVideos response = Some [] ->
  exec (S fuel) w polls (fetchVideo env operation)
  = ([], Some (inl (Error "No videos were generated."), polls, S fuel)).
Proof.
  intros Hr [Hv|Hv]; unfold fetchVideo; rewrite Hr, Hv; reflexivity.
Qed.

Lemma fetchVideo_no_uri operation response first others fuel polls :
  Operation.response operation = Some response ->
  GenerateVideosResponse.generatedVideos response = Some (first :: others) ->
  truthy_opt (chain (GeneratedVideo.video first) Video.uri) = false ->
  exec (S fuel) w polls (fetchVideo env operation)
  = ([], Some (inl (Error "Generated video is missing a URI."), polls, S fuel)).
Proof.
  intros Hr Hv Hu. unfold fetchVideo. rewrite Hr, Hv.
  destruct (GeneratedVideo.video first) as [videoObject|]; [|reflexivity].
  cbn [chain] in Hu.
  destruct (Video.uri videoObject) as [uri|]; [|reflexivity].
  cbn [truthy_opt] in Hu. rewrite Hu. reflexivity.
Qed.

Section Fetch.

Variables (operation : Operation.t) (videoObject : Video.t)
          (others : list GeneratedVideo.t) (uri url : string).

Hypothesis completed :
  Operation.response operation
  = Some {| GenerateVideosResponse.generatedVideos :=
              Some ({| GeneratedVideo.video := Some videoObject |} :: others) |}.
Hypothesis has_uri : Video.uri videoObject = Some uri.
Hypothesis uri_truthy : truthy uri = true.
Hypothesis decoded : decodeURIComponent uri = inr url.

Let target : string := url ++ "&key=" ++ template (ProcessEnv.API_KEY env).

(** The fetch is the first thing [fetchVideo] does, at [target]. *)
Lemma fetchVideo_fetches fuel polls :
  exists more o,
    exec (S fuel) w polls (fetchVideo env operation)
    = (fetched w target :: more, o)
    /\ Forall (fun ev => not_fetch (call ev) = true) more.
Proof.
  unfold fetchVideo. rewrite completed. cbn [GenerateVideosResponse.generatedVideos
    GeneratedVideo.video]. rewrite has_uri, uri_truthy. cbn [negb].
  rewrite decoded, exec_bind. unfold lift. rewrite exec_Ret, exec_bind.
  destruct fuel as [|fuel]; [cbn; eauto|].
  rewrite exec_await. cbn [answer polled call_of is_poll rejection_of].
  fold target. fold (fetched w target).
  destruct (World.fetch w target) as [e|res]; [cbn; eauto|].
  match goal with
  | |- context [exec (S fuel) w polls ?t] =>
    assert (Ho : Only not_fetch t)
  end.
  { unfold throw, ret.
    destruct (negb (Response.ok res)); [apply Only_Ret|].
    apply Only_bind; [now apply Only_await|]. intros videoBlob.
    apply Only_bind; [now apply Only_perform|]. intros objectUrl.
    apply Only_Ret. }
  specialize (Ho (S fuel) w polls).
  destruct (exec (S fuel) w polls _) as [tr2 o2]. cbn [app fst] in *. eauto.
Qed.

Lemma fetchVideo_not_ok res fuel polls :
  World.fetch w target = inr res ->
  Response.ok res = false ->
  exec (2 + fuel) w polls (fetchVideo env operation)
  = ([fetched w target],
     Some (inl (Error ("Failed to fetch video: " ++ number (Response.status res)
                       ++ " " ++ Response.statusText res)),
           polls, S fuel)).
Proof.
  intros Hf Hok.
  unfold fetchVideo. rewrite completed. cbn [GenerateVideosResponse.generatedVideos
    GeneratedVideo.video]. rewrite has_uri, uri_truthy. cbn [negb].
  cbn [Nat.add].
  rewrite decoded, exec_bind. unfold lift. rewrite exec_Ret, exec_bind.
  rewrite exec_await.
  cbn [answer polled call_of is_poll rejection_of].
  fold target. fold (fetched w target). rewrite Hf, Hok. reflexivity.
Qed.

Lemma fetchVideo_ok res videoBlob fuel polls :
  World.fetch w target = inr res ->
  Response.ok res = true ->
  Response.blob res = inr videoBlob ->
  exec (4 + fuel) w polls (fetchVideo env operation)
  = ([fetched w target; mkEvent (CallReadBlob res) None;
      mkEvent (CallCreateObjectURL videoBlob) None],
     Some (inr {| VideoResult.objectUrl := World.createObjectURL w videoBlob;
                  VideoResult.blob := videoBlob;
                  VideoResult.uri := url;
                  VideoResult.video := videoObject |},
           polls, S fuel)).
Proof.
  intros Hf Hok Hb.
  unfold fetchVideo. rewrite completed. cbn [GenerateVideosResponse.generatedVideos
    GeneratedVideo.video]. rewrite has_uri, uri_truthy. cbn [negb].
  cbn [Nat.add].
  rewrite decoded, exec_bind. unfold lift. rewrite exec_Ret, exec_bind.
  rewrite exec_await.
  cbn [answer polled call_of is_poll rejection_of].
  fold target. fold (fetched w target). rewrite Hf, Hok. cbn [negb].
  rewrite exec_bind, exec_await.
  cbn [answer polled call_of is_poll rejection_of]. rewrite Hb.
  rewrite exec_bind, exec_perform. reflexivity.
Qed.

End Fetch.

(** A URI that [decodeURIComponent] refuses: its URIError is what
    [fetchVideo] rejects with, and nothing is fetched. *)
Lemma fetchVideo_malformed operation videoObject others uri e fuel polls :
  Operation.response operation
  = Some {| GenerateVideosResponse.generatedVideos :=
              Some ({| GeneratedVideo.video := Some videoObject |} :: others) |} ->
  Video.uri videoObject = Some uri ->
  truthy uri = true ->
  decodeURIComponent uri = inl e ->
  exec (S fuel) w polls (fetchVideo env operation)
  = ([], Some (inl e, polls, S fuel)).
Proof.
  intros Hr Hu Ht Hd. unfold fetchVideo. rewrite Hr.
  cbn [GenerateVideosResponse.generatedVideos GeneratedVideo.video].
  rewrite Hu, Ht. cbn [negb].
  rewrite Hd, exec_bind. unfold lift. rewrite exec_Ret. reflexivity.
Qed.

End Parts.

(** ** The built-ins on sample inputs *)

Example decodeURIComponent_sample :
  decodeURIComponent Samples.encoded_uri
  = inr "https://h.example/v1/files/a:download?alt=media".
Proof. vm_compute. reflexivity. Qed.

Example decodeURIComponent_malformed :
  decodeURIComponent "https://h.example/100%" = inl (Error "URI malformed").
Proof. vm_compute. reflexivity. Qed.

Example trim_sample :
  trim (String (ascii_of_nat 9) "  a b " ++ String (ascii_of_nat 10) EmptyString)
  = "a b".
Proof. vm_compute. reflexivity. Qed.

Example buildPayload_text : buildPayload Samples.text_params = inr Samples.text_payload.
Proof. reflexivity. Qed.

(** ** Error propagation in [generateVideo] *)

(** C1, as stated, fails: [generateVideo] has no [catch].  When the
    submission is refused with the message "quota exceeded", the caller
    receives the error with that very message, not with the message
    "Failed to generate video: quota exceeded". *)
Lemma generateVideo_does_not_wrap :
  run 2 Samples.refusing (generateVideo Samples.env Samples.text_params)
  = ([mkEvent (CallGenerateVideos Samples.text_payload) (Some (Error "quota exceeded"))],
     Some (inl (Error "quota exceeded")))
  /\ Error "quota exceeded"
     <> Error ("Failed to generate video: " ++ errorMessage (Error "quota exceeded")).
Proof. split; [vm_compute; reflexivity | discriminate]. Qed.

(** C1, amended: for every failure of a remote call of [generateVideo]
    (the submission, a polling re-fetch or the asset fetch), the error that
    reaches the caller is that failure itself, unchanged: as soon as a
    recorded call has rejected with [e], [generateVideo] rejects with [e],
    with no prefix added to its message. *)
Theorem generateVideo_failure_verbatim fuel w env params tr o c e :
  run fuel w (generateVideo env params) = (tr, o) ->
  In (mkEvent c (Some e)) tr ->
  run (S fuel) w (generateVideo env params) = (tr, Some (inl e)).
Proof.
  unfold run. intros H Hin.
  destruct (exec fuel w 0 (generateVideo env params)) as [tr' o'] eqn:E.
  inversion H; subst.
  destruct (Verbatim_generateVideo env params _ _ _ _ _ _ _ E Hin) as (p & r & ->).
  reflexivity.
Qed.

Lemma generateVideo_failure_verbatim_witness :
  let ev := mkEvent (CallGenerateVideos Samples.text_payload)
                    (Some (Error "quota exceeded")) in
  run 1 Samples.refusing (generateVideo Samples.env Samples.text_params) = ([ev], None)
  /\ In ev [ev]
  /\ run 2 Samples.refusing (generateVideo Samples.env Samples.text_params)
     = ([ev], Some (inl (Error "quota exceeded"))).
Proof.
  intros ev.
  assert (H : run 1 Samples.refusing (generateVideo Samples.env Samples.text_params)
              = ([ev], None)) by (vm_compute; reflexivity).
  assert (Hin : In ev [ev]) by (left; reflexivity).
  split; [exact H|]. split; [exact Hin|].
  exact (generateVideo_failure_verbatim 1 Samples.refusing Samples.env
           Samples.text_params [ev] None _ _ H Hin).
Defined.

(** ** Request normalisation *)

Lemma push_each_map {A B} (f : A -> B) imgs : forall payload,
  push_each f imgs payload = payload ++ map f imgs.
Proof.
  unfold push_each. induction imgs as [|img imgs IH]; intros payload; cbn.
  - now rewrite app_nil_r.
  - rewrite IH, <- app_assoc. reflexivity.
Qed.

(** C2: for a FRAMES_TO_VIDEO request the payload is always built, and its
    [config.lastFrame] holds the bytes and the MIME type of the start
    frame when [isLooping] holds, whatever end frame was supplied, and
    those of the supplied end frame otherwise; the field is present
    exactly when that frame is.  The payload is the one [generateVideo]
    submits once its client is constructed. *)
Theorem frames_lastFrame params :
  GenerateVideoParams.mode params = FRAMES_TO_VIDEO ->
  let attached (finalEndFrame : option ImageFile.t) : option Image.t :=
    match finalEndFrame with
    | Some frame =>
      Some {| Image.imageBytes := ImageFile.base64 frame;
              Image.mimeType := File.type (ImageFile.file frame) |}
    | None => None
    end in
  exists payload,
    buildPayload params = inr payload
    /\ (GenerateVideoParams.isLooping params = true ->
        Config.lastFrame (Payload.config payload)
        = attached (GenerateVideoParams.startFrame params))
    /\ (GenerateVideoParams.isLooping params = false ->
        Config.lastFrame (Payload.config payload)
        = attached (GenerateVideoParams.endFrame params))
    /\ forall w env key fuel,
         ProcessEnv.API_KEY env = Some key ->
         exists tr o,
           run (S fuel) w (generateVideo env params) = (submitted w payload :: tr, o).
Proof.
  intros Hm attached.
  assert (H : exists payload,
             buildPayload params = inr payload
             /\ Config.lastFrame (Payload.config payload)
                = attached (if GenerateVideoParams.isLooping params
                            then GenerateVideoParams.startFrame params
                            else GenerateVideoParams.endFrame params)).
  { unfold buildPayload. rewrite Hm.
    destruct (if GenerateVideoParams.isLooping params
              then GenerateVideoParams.startFrame params
              else GenerateVideoParams.endFrame params) as [finalEndFrame|];
      (eexists; split; [reflexivity|]);
      destruct (GenerateVideoParams.startFrame params);
      destruct (truthy (GenerateVideoParams.prompt params)); reflexivity. }
  destruct H as (payload & Hb & Hl). exists payload.
  split; [exact Hb|]. split; [|split].
  - intros Hloop. rewrite Hloop in Hl. exact Hl.
  - intros Hloop. rewrite Hloop in Hl. exact Hl.
  - intros w env key fuel Hk. now apply generateVideo_submits with (key := key).
Qed.

Lemma frames_lastFrame_witness :
  (GenerateVideoParams.mode Samples.looping_params = FRAMES_TO_VIDEO
   /\ GenerateVideoParams.isLooping Samples.looping_params = true
   /\ exists payload,
        buildPayload Samples.looping_params = inr payload
        /\ Config.lastFrame (Payload.config payload)
           = Some {| Image.imageBytes := "AAAA"; Image.mimeType := "image/png" |}
        /\ exists tr o,
             run 1 Samples.third_time (generateVideo Samples.env Samples.looping_params)
             = (submitted Samples.third_time payload :: tr, o))
  /\ (GenerateVideoParams.mode Samples.frames_params = FRAMES_TO_VIDEO
      /\ GenerateVideoParams.isLooping Samples.frames_params = false
      /\ exists payload,
           buildPayload Samples.frames_params = inr payload
           /\ Config.lastFrame (Payload.config payload)
              = Some {| Image.imageBytes := "BBBB"; Image.mimeType := "image/png" |}).
Proof.
  split.
  - split; [reflexivity|]. split; [reflexivity|].
    destruct (frames_lastFrame Samples.looping_params eq_refl)
      as (payload & Hb & Hl & _ & Hs).
    exists payload. split; [exact Hb|]. split; [exact (Hl eq_refl)|].
    exact (Hs Samples.third_time Samples.env "KEY" 0 eq_refl).
  - split; [reflexivity|]. split; [reflexivity|].
    destruct (frames_lastFrame Samples.frames_params eq_refl)
      as (payload & Hb & _ & Hl & _).
    exists payload. split; [exact Hb | exact (Hl eq_refl)].
Defined.

(** C3: in every mode but EXTEND_VIDEO a payload is built and carries
    [config.aspectRatio], with the request's value; in EXTEND_VIDEO the
    payload, built when the request has its input video, carries none.
    So a payload has the field if and only if the mode is not
    EXTEND_VIDEO.  The payload is the one [generateVideo] submits once its
    client is constructed. *)
Theorem aspectRatio_unless_extend params :
  (GenerateVideoParams.mode params <> EXTEND_VIDEO ->
   exists payload,
     buildPayload params = inr payload
     /\ Config.aspectRatio (Payload.config payload)
        = Some (GenerateVideoParams.aspectRatio params))
  /\ (GenerateVideoParams.mode params = EXTEND_VIDEO ->
      forall inputVideoObject,
        GenerateVideoParams.inputVideoObject params = Some inputVideoObject ->
        exists payload,
          buildPayload params = inr payload
          /\ Config.aspectRatio (Payload.config payload) = None)
  /\ (forall payload,
        buildPayload params = inr payload ->
        (Config.aspectRatio (Payload.config payload) <> None
         <-> GenerateVideoParams.mode params <> EXTEND_VIDEO)
        /\ forall w env key fuel,
             ProcessEnv.API_KEY env = Some key ->
             exists tr o,
               run (S fuel) w (generateVideo env params)
               = (submitted w payload :: tr, o)).
Proof.
  assert (H : forall payload,
             buildPayload params = inr payload ->
             Config.aspectRatio (Payload.config payload)
             = match GenerateVideoParams.mode params with
               | EXTEND_VIDEO => None
               | _ => Some (GenerateVideoParams.aspectRatio params)
               end).
  { intros payload. unfold buildPayload.
    destruct (GenerateVideoParams.mode params); cbn [GenerationMode_eqb negb].
    - intros H; inversion H; subst.
      destruct (truthy (GenerateVideoParams.prompt params)); reflexivity.
    - destruct (if GenerateVideoParams.isLooping params
                then GenerateVideoParams.startFrame params
                else GenerateVideoParams.endFrame params);
        intros H; inversion H; subst;
        destruct (GenerateVideoParams.startFrame params);
        destruct (truthy (GenerateVideoParams.prompt params)); reflexivity.
    - match goal with
      | |- (if ?b then _ else _) = _ -> _ => destruct b
      end; intros H; inversion H; subst;
        destruct (truthy (GenerateVideoParams.prompt params)); reflexivity.
    - destruct (GenerateVideoParams.inputVideoObject params);
        intros H; inversion H; subst.
      destruct (truthy (GenerateVideoParams.prompt params)); reflexivity. }
  assert (B : GenerateVideoParams.mode params <> EXTEND_VIDEO
              \/ GenerateVideoParams.inputVideoObject params <> None ->
              exists payload, buildPayload params = inr payload).
  { intros Hn. unfold buildPayload.
    destruct (GenerateVideoParams.mode params) eqn:Hm;
      repeat match goal with
             | |- context [match ?x with _ => _ end] => destruct x eqn:?
             end;
      eauto.
    destruct Hn as [Hn|Hn]; congruence. }
  split; [|split].
  - intros Hm. destruct (B (or_introl Hm)) as (payload & Hb).
    exists payload. split; [exact Hb|]. rewrite (H _ Hb).
    destruct (GenerateVideoParams.mode params); congruence.
  - intros Hm inputVideoObject Hv.
    assert (Hn : GenerateVideoParams.inputVideoObject params <> None) by congruence.
    destruct (B (or_intror Hn)) as (payload & Hb).
    exists payload. split; [exact Hb|]. rewrite (H _ Hb), Hm. reflexivity.
  - intros payload Hb. split.
    + rewrite (H _ Hb).
      destruct (GenerateVideoParams.mode params); split; congruence.
    + intros w env key fuel Hk. now apply generateVideo_submits with (key := key).
Qed.

Lemma aspectRatio_unless_extend_witness :
  (GenerateVideoParams.mode Samples.text_params <> EXTEND_VIDEO
   /\ exists payload,
        buildPayload Samples.text_params = inr payload
        /\ Config.aspectRatio (Payload.config payload) = Some "16:9")
  /\ (GenerateVideoParams.mode Samples.extending_params = EXTEND_VIDEO
      /\ GenerateVideoParams.aspectRatio Samples.extending_params = "16:9"
      /\ exists payload,
           buildPayload Samples.extending_params = inr payload
           /\ Config.aspectRatio (Payload.config payload) = None
           /\ exists tr o,
                run 1 Samples.third_time
                    (generateVideo Samples.env Samples.extending_params)
                = (submitted Samples.third_time payload :: tr, o)).
Proof.
  assert (Hm : GenerateVideoParams.mode Samples.text_params <> EXTEND_VIDEO)
    by discriminate.
  split.
  - split; [exact Hm|].
    exact (proj1 (aspectRatio_unless_extend Samples.text_params) Hm).
  - split; [reflexivity|]. split; [reflexivity|].
    destruct (proj1 (proj2 (aspectRatio_unless_extend Samples.extending_params))
                eq_refl _ eq_refl) as (payload & Hb & Ha).
    exists payload. split; [exact Hb|]. split; [exact Ha|].
    exact (proj2 (proj2 (proj2 (aspectRatio_unless_extend Samples.extending_params))
                    payload Hb)
             Samples.third_time Samples.env "KEY" 0 eq_refl).
Defined.

(** C4: for a REFERENCES_TO_VIDEO request the payload is always built; its
    reference list has one entry tagged ASSET per reference image, in the
    order given, followed by one entry tagged STYLE when a style image is
    given, each entry holding the bytes and the MIME type of its image;
    [config.referenceImages] is present exactly when that list is not
    empty.  The payload is the one [generateVideo] submits once its client
    is constructed. *)
Theorem references_in_order params :
  GenerateVideoParams.mode params = REFERENCES_TO_VIDEO ->
  let entry (referenceType : VideoGenerationReferenceType) (img : ImageFile.t) :=
    {| VideoGenerationReferenceImage.image :=
         {| Image.imageBytes := ImageFile.base64 img;
            Image.mimeType := File.type (ImageFile.file img) |};
       VideoGenerationReferenceImage.referenceType := referenceType |} in
  let referenceImagesPayload :=
    map (entry ASSET)
        (match GenerateVideoParams.referenceImages params with
         | Some referenceImages => referenceImages
         | None => []
         end)
    ++ match GenerateVideoParams.styleImage params with
       | Some styleImage => [entry STYLE styleImage]
       | None => []
       end in
  exists payload,
    buildPayload params = inr payload
    /\ Config.referenceImages (Payload.config payload)
       = match referenceImagesPayload with
         | [] => None
         | _ :: _ => Some referenceImagesPayload
         end
    /\ forall w env key fuel,
         ProcessEnv.API_KEY env = Some key ->
         exists tr o,
           run (S fuel) w (generateVideo env params) = (submitted w payload :: tr, o).
Proof.
  intros Hm entry refs.
  assert (H : exists payload,
             buildPayload params = inr payload
             /\ Config.referenceImages (Payload.config payload)
                = match refs with
                  | [] => None
                  | _ :: _ => Some refs
                  end).
  { unfold buildPayload. rewrite Hm.
    assert (E : match GenerateVideoParams.styleImage params with
                | Some styleImage =>
                  match GenerateVideoParams.referenceImages params with
                  | Some referenceImages =>
                    push_each (fun img => reference img ASSET) referenceImages []
                  | None => []
                  end ++ [reference styleImage STYLE]
                | None =>
                  match GenerateVideoParams.referenceImages params with
                  | Some referenceImages =>
                    push_each (fun img => reference img ASSET) referenceImages []
                  | None => []
                  end
                end = refs).
    { subst refs entry.
      destruct (GenerateVideoParams.referenceImages params) as [imgs|];
        destruct (GenerateVideoParams.styleImage params) as [style|];
        rewrite ?push_each_map, ?app_nil_r; reflexivity. }
    rewrite E. clear E.
    destruct refs as [|r refs']; cbn [List.length Nat.ltb Nat.leb];
      (eexists; split; [reflexivity|]);
      destruct (truthy (GenerateVideoParams.prompt params)); reflexivity. }
  destruct H as (payload & Hb & Hr). exists payload. repeat split; try assumption.
  intros w env key fuel Hk. now apply generateVideo_submits with (key := key).
Qed.

Lemma references_in_order_witness :
  GenerateVideoParams.mode Samples.references_params = REFERENCES_TO_VIDEO
  /\ exists payload,
       buildPayload Samples.references_params = inr payload
       /\ Config.referenceImages (Payload.config payload)
          = Some [ {| VideoGenerationReferenceImage.image :=
                        {| Image.imageBytes := "HHHH"; Image.mimeType := "image/png" |};
                      VideoGenerationReferenceImage.referenceType := ASSET |};
                   {| VideoGenerationReferenceImage.image :=
                        {| Image.imageBytes := "SSSS"; Image.mimeType := "image/png" |};
                      VideoGenerationReferenceImage.referenceType := ASSET |};
                   {| VideoGenerationReferenceImage.image :=
                        {| Image.imageBytes := "OOOO"; Image.mimeType := "image/png" |};
                      VideoGenerationReferenceImage.referenceType := STYLE |} ]
       /\ exists tr o,
            run 1 Samples.third_time (generateVideo Samples.env Samples.references_params)
            = (submitted Samples.third_time payload :: tr, o).
Proof.
  split; [reflexivity|].
  destruct (references_in_order Samples.references_params eq_refl)
    as (payload & Hb & Hr & Hs).
  exists payload. split; [exact Hb|]. split; [exact Hr|].
  exact (Hs Samples.third_time Samples.env "KEY" 0 eq_refl).
Defined.

(** ** Validation before any call *)

(** C5: an EXTEND_VIDEO request without an input video makes
    [generateVideo] reject at once; the trace is empty, so no call of any
    kind (submission, poll, fetch) was made.  The error is the validation
    error, unless there is no API key: then the constructor of the client,
    which comes first, has thrown its own. *)
Theorem extend_requires_video w env params fuel :
  GenerateVideoParams.mode params = EXTEND_VIDEO ->
  GenerateVideoParams.inputVideoObject params = None ->
  run (S fuel) w (generateVideo env params)
  = ([], Some (inl match ProcessEnv.API_KEY env with
                   | Some _ =>
                     Error "An input video object is required to extend a video."
                   | None =>
                     Error "An API Key must be set when running in a browser"
                   end)).
Proof.
  intros Hm Hv.
  assert (Hb : buildPayload params
               = inl (Error "An input video object is required to extend a video."))
    by (unfold buildPayload; rewrite Hm, Hv; reflexivity).
  unfold run. destruct (ProcessEnv.API_KEY env) as [key|] eqn:Hk.
  - rewrite (exec_generateVideo_refused w env _ _ _ _ _ Hk Hb). reflexivity.
  - rewrite (exec_generateVideo_no_key w env _ _ _ Hk). reflexivity.
Qed.

Lemma extend_requires_video_witness :
  GenerateVideoParams.mode Samples.extend_params = EXTEND_VIDEO
  /\ GenerateVideoParams.inputVideoObject Samples.extend_params = None
  /\ run 1 Samples.third_time (generateVideo Samples.env Samples.extend_params)
     = ([], Some (inl (Error "An input video object is required to extend a video."))).
Proof.
  split; [reflexivity|]. split; [reflexivity|].
  exact (extend_requires_video Samples.third_time Samples.env Samples.extend_params 0
           eq_refl eq_refl).
Defined.

(** ** Polling *)

(** The submission and two polls, the second of which finds the
    operation done. *)
Lemma submitAndAwait_third_time w payload op0 op1 op2 fuel :
  World.generateVideos w payload = inr op0 ->
  Operation.done op0 = false ->
  World.getVideosOperation w 0 op0 = inr op1 ->
  Operation.done op1 = false ->
  World.getVideosOperation w 1 op1 = inr op2 ->
  Operation.done op2 = true ->
  exec (8 + fuel) w 0 (submitAndAwait payload)
  = ([mkEvent (CallGenerateVideos payload) None;
      slept; mkEvent (CallGetVideosOperation op0) None;
      slept; mkEvent (CallGetVideosOperation op1) None],
     Some (inr op2, 2, S fuel)).
Proof.
  intros Hs Hd0 Hp0 Hd1 Hp1 Hd2.
  unfold submitAndAwait. rewrite exec_bind.
  change (8 + fuel) with (S (S (6 + fuel))). rewrite exec_await.
  cbn [answer polled call_of is_poll rejection_of]. rewrite Hs.
  change (S (6 + fuel)) with (3 + (3 + S fuel)).
  rewrite (whileNotDone_again w _ _ _ _ Hd0 Hp0).
  rewrite (whileNotDone_again w _ _ _ _ Hd1 Hp1).
  rewrite (whileNotDone_done w _ _ _ Hd2).
  unfold asked. rewrite Hp0, Hp1. reflexivity.
Qed.

(** C6: when the client is constructed and the submission answers not
    done, the first poll answers not done and the second answers done,
    every run of [generateVideo] long
    enough to see the loop end polls exactly twice, with the first two
    handles, whatever follows.  When moreover the last response lists a
    first video with a URI (and any number of further videos) and the
    fetch succeeds, [generateVideo] resolves with that first video; the
    other videos do not appear in the result. *)
Theorem polls_twice_returns_first w env params payload key op0 op1 op2 fuel :
  ProcessEnv.API_KEY env = Some key ->
  buildPayload params = inr payload ->
  World.generateVideos w payload = inr op0 ->
  Operation.done op0 = false ->
  World.getVideosOperation w 0 op0 = inr op1 ->
  Operation.done op1 = false ->
  World.getVideosOperation w 1 op1 = inr op2 ->
  Operation.done op2 = true ->
  (forall tr o,
      run (8 + fuel) w (generateVideo env params) = (tr, o) ->
      filter is_poll (calls tr)
      = [CallGetVideosOperation op0; CallGetVideosOperation op1])
  /\ (forall videoObject others uri url res videoBlob,
        Operation.response op2
        = Some {| GenerateVideosResponse.generatedVideos :=
                    Some ({| GeneratedVideo.video := Some videoObject |} :: others) |} ->
        Video.uri videoObject = Some uri ->
        truthy uri = true ->
        decodeURIComponent uri = inr url ->
        World.fetch w (url ++ "&key=" ++ template (ProcessEnv.API_KEY env)) = inr res ->
        Response.ok res = true ->
        Response.blob res = inr videoBlob ->
        run (11 + fuel) w (generateVideo env params)
        = ([mkEvent (CallGenerateVideos payload) None;
            slept; mkEvent (CallGetVideosOperation op0) None;
            slept; mkEvent (CallGetVideosOperation op1) None;
            mkEvent (CallFetch (url ++ "&key=" ++ template (ProcessEnv.API_KEY env)))
                    None;
            mkEvent (CallReadBlob res) None;
            mkEvent (CallCreateObjectURL videoBlob) None],
           Some (inr {| VideoResult.objectUrl := World.createObjectURL w videoBlob;
                        VideoResult.blob := videoBlob;
                        VideoResult.uri := url;
                        VideoResult.video := videoObject |}))).
Proof.
  intros Hk Hb Hs Hd0 Hp0 Hd1 Hp1 Hd2.
  pose proof (submitAndAwait_third_time w payload op0 op1 op2 fuel
                Hs Hd0 Hp0 Hd1 Hp1 Hd2) as E.
  split.
  - intros tr o Hrun.
    pose proof (exec_generateVideo_done w env params payload _ _ _ _ _ _ Hk Hb E 0) as G.
    cbn [Nat.add] in G. unfold run in Hrun. cbn [Nat.add] in Hrun.
    rewrite G in Hrun.
    pose proof (Only_fetchVideo (fun c => negb (is_poll c)) env op2
                  (fun _ => eq_refl) (fun _ => eq_refl) (fun _ => eq_refl)
                  (S fuel) w 2) as Ho.
    destruct (exec (S fuel) w 2 (fetchVideo env op2)) as [tr2 o2].
    cbn [fst] in Ho. inversion Hrun; subst.
    unfold calls. cbn [map filter call slept is_poll app].
    rewrite (filter_none is_poll (map call tr2)); [reflexivity|].
    apply Forall_map. exact Ho.
  - intros videoObject others uri url res videoBlob Hr Hu Ht Hdec Hf Hok Hblob.
    pose proof (exec_generateVideo_done w env params payload _ _ _ _ _ _ Hk Hb E 3) as G.
    change (3 + (8 + fuel)) with (11 + fuel) in G.
    change (3 + S fuel) with (4 + fuel) in G.
    rewrite (fetchVideo_ok w env op2 videoObject others uri url Hr Hu Ht Hdec
               res videoBlob fuel 2 Hf Hok Hblob) in G.
    apply run_of_exec in G. rewrite G. unfold fetched. rewrite Hf. reflexivity.
Qed.

Lemma polls_twice_returns_first_witness :
  exists tr r,
    run 11 Samples.third_time (generateVideo Samples.env Samples.text_params)
    = (tr, Some (inr r))
    /\ filter is_poll (calls tr)
       = [CallGetVideosOperation (Samples.pending "operations/7");
          CallGetVideosOperation (Samples.pending "operations/7")]
    /\ VideoResult.video r = {| Video.uri := Some Samples.encoded_uri;
                                Video.videoBytes := None;
                                Video.mimeType := Some "video/mp4" |}
    /\ VideoResult.uri r = "https://h.example/v1/files/a:download?alt=media".
Proof.
  destruct
    (polls_twice_returns_first
       Samples.third_time Samples.env Samples.text_params Samples.text_payload "KEY"
       (Samples.pending "operations/7") (Samples.pending "operations/7")
       (Samples.finished [Samples.clip Samples.encoded_uri;
                          Samples.clip "https://h.example/other?alt=media"])
       3 eq_refl eq_refl eq_refl eq_refl eq_refl eq_refl eq_refl eq_refl) as [Hpolls _].
  destruct
    (polls_twice_returns_first
       Samples.third_time Samples.env Samples.text_params Samples.text_payload "KEY"
       (Samples.pending "operations/7") (Samples.pending "operations/7")
       (Samples.finished [Samples.clip Samples.encoded_uri;
                          Samples.clip "https://h.example/other?alt=media"])
       0 eq_refl eq_refl eq_refl eq_refl eq_refl eq_refl eq_refl eq_refl) as [_ Hfirst].
  specialize (Hfirst
                {| Video.uri := Some Samples.encoded_uri;
                   Video.videoBytes := None;
                   Video.mimeType := Some "video/mp4" |}
                [Samples.clip "https://h.example/other?alt=media"]
                Samples.encoded_uri
                "https://h.example/v1/files/a:download?alt=media"
                Samples.ok_response Samples.mp4
                eq_refl eq_refl eq_refl decodeURIComponent_sample
                eq_refl eq_refl eq_refl).
  eexists. eexists. split; [exact Hfirst|].
  split; [exact (Hpolls _ _ Hfirst)|]. split; reflexivity.
Defined.

(** C7: when the client is constructed and the submission and the loop
    end with an operation that is done and carries a response, [generateVideo] rejects with "No videos
    were generated." if the response lists no video, and with "Generated
    video is missing a URI." if its first video has no usable URI; in both
    cases the trace is that of the submission and the loop, in which no
    fetch occurs. *)
Theorem no_usable_video w env params payload key fuel tr operation response :
  ProcessEnv.API_KEY env = Some key ->
  buildPayload params = inr payload ->
  run fuel w (submitAndAwait payload) = (tr, Some (inr operation)) ->
  Operation.response operation = Some response ->
  Forall (fun ev => is_fetch (call ev) = false) tr
  /\ (GenerateVideosResponse.generatedVideos response = None
      \/ GenerateVideosResponse.generatedVideos response = Some [] ->
      run fuel w (generateVideo env params)
      = (tr, Some (inl (Error "No videos were generated."))))
  /\ (forall first others,
        GenerateVideosResponse.generatedVideos response = Some (first :: others) ->
        truthy_opt (chain (GeneratedVideo.video first) Video.uri) = false ->
        run fuel w (generateVideo env params)
        = (tr, Some (inl (Error "Generated video is missing a URI.")))).
Proof.
  intros Hk Hb Hrun Hr.
  destruct (run_settled w _ _ _ _ Hrun) as (polls & rest & E).
  pose proof (exec_generateVideo_done w env params payload _ _ _ _ _ _ Hk Hb E 0) as G.
  cbn [Nat.add] in G.
  split; [|split].
  - pose proof (Only_submitAndAwait payload fuel w 0) as H. rewrite E in H.
    cbn [fst] in H. revert H. apply Forall_impl. intros ev.
    unfold not_fetch. now destruct (is_fetch (call ev)).
  - intros Hv. rewrite (fetchVideo_no_videos w env _ _ _ _ Hr Hv) in G.
    apply run_of_exec in G. rewrite G, app_nil_r. reflexivity.
  - intros first others Hv Hu.
    rewrite (fetchVideo_no_uri w env _ _ _ _ _ _ Hr Hv Hu) in G.
    apply run_of_exec in G. rewrite G, app_nil_r. reflexivity.
Qed.

Lemma no_usable_video_witness :
  run 2 Samples.barren (generateVideo Samples.env Samples.text_params)
  = ([mkEvent (CallGenerateVideos Samples.text_payload) None],
     Some (inl (Error "No videos were generated.")))
  /\ run 2 Samples.uriless (generateVideo Samples.env Samples.text_params)
     = ([mkEvent (CallGenerateVideos Samples.text_payload) None],
        Some (inl (Error "Generated video is missing a URI."))).
Proof.
  split.
  - refine (proj1 (proj2 (no_usable_video Samples.barren Samples.env
                            Samples.text_params Samples.text_payload "KEY" 2
                            [mkEvent (CallGenerateVideos Samples.text_payload) None]
                            (Samples.finished [])
                            {| GenerateVideosResponse.generatedVideos := Some [] |}
                            eq_refl eq_refl _ eq_refl)) (or_intror eq_refl)).
    vm_compute. reflexivity.
  - refine (proj2 (proj2 (no_usable_video Samples.uriless Samples.env
                            Samples.text_params Samples.text_payload "KEY" 2
                            [mkEvent (CallGenerateVideos Samples.text_payload) None]
                            (Samples.finished [ {| GeneratedVideo.video := None |} ])
                            {| GenerateVideosResponse.generatedVideos :=
                                 Some [ {| GeneratedVideo.video := None |} ] |}
                            eq_refl eq_refl _ eq_refl))
                  {| GeneratedVideo.video := None |} [] eq_refl eq_refl).
    vm_compute. reflexivity.
Defined.

(** ** [enhancePrompt] *)

(** C8, as stated, fails in its second half: between the guard and the
    call [enhancePrompt] constructs its client, and without an API key the
    constructor throws.  On the prompt "a cat", with [process.env.API_KEY]
    undefined, the promise rejects with the constructor's error and the
    remote call is not made. *)
Lemma enhancePrompt_call_not_made :
  whitespace_only "a cat" = false
  /\ run 3 Samples.third_time (enhancePrompt Samples.no_key "a cat")
     = ([], Some (inl (Error "An API Key must be set when running in a browser"))).
Proof. split; vm_compute; reflexivity. Qed.

(** C8, amended: on an empty or white-space-only prompt [enhancePrompt]
    rejects with "Prompt cannot be empty." without any call, whatever the
    key; on every other prompt it makes the remote call, and that call
    only, provided [process.env.API_KEY] is defined; when it is undefined
    the promise rejects with the error of the constructor, not wrapped,
    and no call is made. *)
Theorem enhancePrompt_fails_fast w env prompt fuel :
  (whitespace_only prompt = true ->
   run (S fuel) w (enhancePrompt env prompt)
   = ([], Some (inl (Error "Prompt cannot be empty."))))
  /\ (whitespace_only prompt = false ->
      forall key,
        ProcessEnv.API_KEY env = Some key ->
        exists r,
          run (2 + fuel) w (enhancePrompt env prompt)
          = ([mkEvent (CallGenerateContent (enhanceRequest prompt))
                      (failure (World.generateContent w (enhanceRequest prompt)))],
             Some r))
  /\ (whitespace_only prompt = false ->
      ProcessEnv.API_KEY env = None ->
      run (S fuel) w (enhancePrompt env prompt)
      = ([], Some (inl (Error "An API Key must be set when running in a browser")))).
Proof.
  split; [|split]; intros H; unfold run, enhancePrompt; rewrite truthy_trim, H;
    cbn [negb].
  - unfold throw. rewrite exec_Ret. reflexivity.
  - intros key Hk. rewrite Hk. cbn [GoogleGenAI.new Nat.add].
    unfold lift at 1. rewrite exec_bind, exec_Ret.
    rewrite exec_try_catch, exec_bind, exec_await.
    cbn [answer polled call_of is_poll rejection_of].
    destruct (World.generateContent w (enhanceRequest prompt)) as [e|response].
    + unfold throw. rewrite exec_Ret. cbn [failure app option_map fst]. eauto.
    + rewrite exec_bind. unfold lift, throw, ret. rewrite exec_Ret.
      destruct (ContentResponse.text response) as [text|].
      * destruct (negb (truthy (trim text)));
          rewrite !exec_Ret; cbn [failure app option_map fst]; eauto.
      * rewrite exec_Ret. cbn [failure app option_map fst]. eauto.
  - intros Hk. rewrite Hk. cbn [GoogleGenAI.new].
    unfold lift. rewrite exec_bind, exec_Ret. reflexivity.
Qed.

Lemma enhancePrompt_fails_fast_witness :
  whitespace_only "   " = true
  /\ run 1 Samples.third_time (enhancePrompt Samples.env "   ")
     = ([], Some (inl (Error "Prompt cannot be empty.")))
  /\ whitespace_only EmptyString = true
  /\ run 1 Samples.third_time (enhancePrompt Samples.no_key EmptyString)
     = ([], Some (inl (Error "Prompt cannot be empty.")))
  /\ whitespace_only " a cat " = false
  /\ (exists r,
         run 2 Samples.third_time (enhancePrompt Samples.env " a cat ")
         = ([mkEvent (CallGenerateContent (enhanceRequest " a cat ")) None], Some r))
  /\ run 1 Samples.third_time (enhancePrompt Samples.no_key " a cat ")
     = ([], Some (inl (Error "An API Key must be set when running in a browser"))).
Proof.
  split; [reflexivity|].
  split; [exact (proj1 (enhancePrompt_fails_fast Samples.third_time Samples.env
                          "   " 0) eq_refl)|].
  split; [reflexivity|].
  split; [exact (proj1 (enhancePrompt_fails_fast Samples.third_time Samples.no_key
                          EmptyString 0) eq_refl)|].
  split; [reflexivity|].
  split; [exact (proj1 (proj2 (enhancePrompt_fails_fast Samples.third_time Samples.env
                                 " a cat " 0)) eq_refl "KEY" eq_refl)|].
  exact (proj2 (proj2 (enhancePrompt_fails_fast Samples.third_time Samples.no_key
                         " a cat " 0)) eq_refl eq_refl).
Defined.

(** ** The asset fetch *)

(** C9: once the operation is done with a first video that has a URI, the
    one fetch that [generateVideo] makes is at the decoded URI followed by
    [&key=] and the API key; when the response is not [ok],
    [generateVideo] rejects with the message "Failed to fetch video: ",
    the status in decimal, a space and the status text. *)
Theorem fetch_decoded_with_key
        w env params payload fuel tr operation videoObject others uri url key :
  buildPayload params = inr payload ->
  run fuel w (submitAndAwait payload) = (tr, Some (inr operation)) ->
  Operation.response operation
  = Some {| GenerateVideosResponse.generatedVideos :=
              Some ({| GeneratedVideo.video := Some videoObject |} :: others) |} ->
  Video.uri videoObject = Some uri ->
  truthy uri = true ->
  decodeURIComponent uri = inr url ->
  ProcessEnv.API_KEY env = Some key ->
  let target := (url ++ "&key=" ++ key)%string in
  (exists more o,
      run (1 + fuel) w (generateVideo env params) = (tr ++ fetched w target :: more, o)
      /\ Forall (fun ev => is_fetch (call ev) = false) (tr ++ more))
  /\ (forall res,
        World.fetch w target = inr res ->
        Response.ok res = false ->
        run (1 + fuel) w (generateVideo env params)
        = (tr ++ [mkEvent (CallFetch target) None],
           Some (inl (Error ("Failed to fetch video: "
                             ++ number (Response.status res) ++ " "
                             ++ Response.statusText res))))).
Proof.
  intros Hb Hrun Hr Hu Ht Hdec Hkey target.
  destruct (run_settled w _ _ _ _ Hrun) as (polls & rest & E).
  pose proof (exec_generateVideo_done w env params payload _ _ _ _ _ _ Hkey Hb E 1) as G.
  assert (Hk : (url ++ "&key=" ++ template (ProcessEnv.API_KEY env))%string = target)
    by (rewrite Hkey; reflexivity).
  assert (Hquiet : forall l,
             Forall (fun ev => not_fetch (call ev) = true) l ->
             Forall (fun ev => is_fetch (call ev) = false) l).
  { intros l. apply Forall_impl. intros ev.
    unfold not_fetch. now destruct (is_fetch (call ev)). }
  split.
  - destruct (fetchVideo_fetches w env _ _ _ _ _ Hr Hu Ht Hdec (S rest) polls)
      as (more & o & F & Hmore).
    rewrite Hk in F. change (1 + S rest) with (S (S rest)) in G. rewrite F in G.
    apply run_of_exec in G. exists more, (settled o). split; [exact G|].
    apply Forall_app. split; [|now apply Hquiet].
    pose proof (Only_submitAndAwait payload fuel w 0) as H. rewrite E in H.
    now apply Hquiet.
  - intros res Hf Hok. rewrite <- Hk in Hf.
    pose proof (fetchVideo_not_ok w env _ _ _ _ _ Hr Hu Ht Hdec res rest polls Hf Hok)
      as F.
    change (1 + S rest) with (2 + rest) in G. rewrite F in G.
    apply run_of_exec in G. rewrite G. unfold fetched. rewrite Hf, Hk. reflexivity.
Qed.

Lemma fetch_decoded_with_key_witness :
  let target := "https://h.example/v1/files/a:download?alt=media&key=KEY" in
  World.fetch Samples.gone target = inr Samples.not_found
  /\ run 3 Samples.gone (generateVideo Samples.env Samples.text_params)
     = ([mkEvent (CallGenerateVideos Samples.text_payload) None;
         mkEvent (CallFetch target) None],
        Some (inl (Error "Failed to fetch video: 404 Not Found"))).
Proof.
  intros target. split; [reflexivity|].
  refine (proj2 (fetch_decoded_with_key
                   Samples.gone Samples.env Samples.text_params Samples.text_payload 2
                   [mkEvent (CallGenerateVideos Samples.text_payload) None]
                   (Samples.finished [Samples.clip Samples.encoded_uri])
                   {| Video.uri := Some Samples.encoded_uri;
                      Video.videoBytes := None;
                      Video.mimeType := Some "video/mp4" |}
                   [] Samples.encoded_uri
                   "https://h.example/v1/files/a:download?alt=media" "KEY"
                   eq_refl _ eq_refl eq_refl eq_refl decodeURIComponent_sample eq_refl)
                Samples.not_found eq_refl eq_refl).
  vm_compute. reflexivity.
Defined.

(** ** [generateAudio] *)

(** The test of [generateAudio] on the response, and what it reads, in
    terms of the shape of the response. *)
Lemma inline_audio_spec response :
  let inlineData := inlineData_of response in
  let base64Audio := chain inlineData InlineData.data in
  let mimeType := chain inlineData InlineData.mimeType in
  match inline_audio response with
  | Some (data, type) =>
    base64Audio = Some data /\ mimeType = Some type
    /\ negb (truthy_opt base64Audio) || negb (truthy_opt mimeType) = false
  | None => negb (truthy_opt base64Audio) || negb (truthy_opt mimeType) = true
  end.
Proof.
  unfold inline_audio, inlineData_of, chain.
  destruct (ContentResponse.candidates response) as [[|candidate candidates]|];
    cbn [hd_error]; try reflexivity.
  destruct (Candidate.content candidate) as [content|]; try reflexivity.
  destruct (Content.parts content) as [[|part parts]|];
    cbn [hd_error]; try reflexivity.
  destruct (Part.inlineData part) as [inlineData|]; try reflexivity.
  destruct (InlineData.data inlineData) as [[|a data]|];
    destruct (InlineData.mimeType inlineData) as [[|b type]|];
    cbn [truthy_opt truthy negb orb]; auto.
Qed.

(** With a key, [generateAudio] makes its one call and settles as
    [spoken] says. *)
Lemma exec_generateAudio w env params key fuel polls :
  ProcessEnv.API_KEY env = Some key ->
  exec fuel w polls (generateAudio env params)
  = match fuel with
    | 0 => ([], None)
    | 1 => ([mkEvent (CallGenerateContent (audioRequest params))
                     (failure (World.generateContent w (audioRequest params)))],
            None)
    | S (S fuel') =>
      ([mkEvent (CallGenerateContent (audioRequest params))
                (failure (World.generateContent w (audioRequest params)))],
       Some (spoken (World.generateContent w (audioRequest params)), polls, S fuel'))
    end.
Proof.
  intros Hk. unfold generateAudio. rewrite Hk. cbn [GoogleGenAI.new].
  unfold lift. rewrite exec_bind.
  destruct fuel as [|fuel]; [reflexivity|]. rewrite exec_Ret.
  rewrite exec_try_catch, exec_bind.
  destruct fuel as [|fuel]; [reflexivity|]. rewrite exec_await.
  cbn [answer polled call_of is_poll rejection_of]. unfold spoken.
  destruct (World.generateContent w (audioRequest params)) as [e|response].
  - unfold throw. rewrite exec_Ret. reflexivity.
  - cbv zeta. unfold throw, ret.
    pose proof (inline_audio_spec response) as H. cbv zeta in H.
    destruct (inline_audio response) as [[data type]|].
    + destruct H as (Hd & Ht & ->). rewrite Hd, Ht. cbn [template].
      rewrite !exec_Ret. reflexivity.
    + rewrite H. rewrite !exec_Ret. reflexivity.
Qed.

(** Without a key the constructor throws, before the [try]. *)
Lemma exec_generateAudio_no_key w env params fuel polls :
  ProcessEnv.API_KEY env = None ->
  exec fuel w polls (generateAudio env params)
  = match fuel with
    | 0 => ([], None)
    | S _ =>
      ([], Some (inl (Error "An API Key must be set when running in a browser"),
                 polls, fuel))
    end.
Proof.
  intros Hk. unfold generateAudio. rewrite Hk. cbn [GoogleGenAI.new].
  unfold lift. rewrite exec_bind.
  destruct fuel as [|fuel]; [reflexivity|]. rewrite exec_Ret. reflexivity.
Qed.

(** C10, as stated, fails: [generateAudio] constructs its client before
    the [try], and without an API key the constructor throws.  With
    [process.env.API_KEY] undefined the promise rejects at once, the
    remote call is not attempted, and the error is one that was found
    locally and is not the wrapped one. *)
Lemma generateAudio_fails_fast :
  run 3 Samples.third_time
      (generateAudio Samples.no_key
                     {| GenerateAudioParams.prompt := "Hello";
                        GenerateAudioParams.voice := "Zephyr" |})
  = ([], Some (inl (Error "An API Key must be set when running in a browser")))
  /\ Error "An API Key must be set when running in a browser"
     <> Error ("Failed to generate audio: "
               ++ "An API Key must be set when running in a browser").
Proof. split; [vm_compute; reflexivity | discriminate]. Qed.

(** C10, amended: [generateAudio] checks nothing about its parameters.
    When [process.env.API_KEY] is defined, the speech request is made
    whatever the parameters, and it is the only call; the call rejecting
    apart, the one failure is a response whose first part of its first
    candidate has no inline data, or inline data without data or without
    a MIME type (an empty string counts as none), and every failure
    leaves wrapped by the [catch].  When the key is undefined the
    constructor throws before the [try]: the promise rejects with that
    error, not wrapped, and no call is made. *)
Theorem generateAudio_always_calls w env params fuel :
  (forall key,
      ProcessEnv.API_KEY env = Some key ->
      run (2 + fuel) w (generateAudio env params)
      = ([mkEvent (CallGenerateContent (audioRequest params))
                  (failure (World.generateContent w (audioRequest params)))],
         Some match World.generateContent w (audioRequest params) with
              | inl error =>
                inl (Error ("Failed to generate audio: " ++ errorMessage error))
              | inr response =>
                match inline_audio response with
                | Some (base64Audio, mimeType) =>
                  inr {| AudioResult.objectUrl :=
                           "data:" ++ mimeType ++ ";base64," ++ base64Audio |}
                | None =>
                  inl (Error ("Failed to generate audio: "
                              ++ "Audio data not found in the API response."))
                end
              end))
  /\ (ProcessEnv.API_KEY env = None ->
      run (S fuel) w (generateAudio env params)
      = ([], Some (inl (Error "An API Key must be set when running in a browser")))).
Proof.
  split.
  - intros key Hk. unfold run. rewrite (exec_generateAudio w env params key _ _ Hk).
    reflexivity.
  - intros Hk. unfold run. rewrite (exec_generateAudio_no_key w env params _ _ Hk).
    reflexivity.
Qed.

Lemma generateAudio_always_calls_witness :
  let params := {| GenerateAudioParams.prompt := "   ";
                   GenerateAudioParams.voice := "Zephyr" |} in
  run 2 Samples.third_time (generateAudio Samples.env params)
  = ([mkEvent (CallGenerateContent (audioRequest params)) None],
     Some (inr {| AudioResult.objectUrl := "data:audio/wav;base64,UklGRg" |}))
  /\ run 2 (Scenes.eloquent (Some "hello")) (generateAudio Samples.env params)
     = ([mkEvent (CallGenerateContent (audioRequest params)) None],
        Some (inl (Error "Failed to generate audio: Audio data not found in the API response.")))
  /\ run 2 Scenes.mute (generateAudio Samples.env params)
     = ([mkEvent (CallGenerateContent (audioRequest params))
                 (Some (Error "API key not valid."))],
        Some (inl (Error "Failed to generate audio: API key not valid.")))
  /\ run 1 Samples.third_time (generateAudio Samples.no_key params)
     = ([], Some (inl (Error "An API Key must be set when running in a browser"))).
Proof.
  intros params.
  split; [exact (proj1 (generateAudio_always_calls Samples.third_time Samples.env
                          params 0) "KEY" eq_refl)|].
  split; [exact (proj1 (generateAudio_always_calls (Scenes.eloquent (Some "hello"))
                          Samples.env params 0) "KEY" eq_refl)|].
  split; [exact (proj1 (generateAudio_always_calls Scenes.mute Samples.env
                          params 0) "KEY" eq_refl)|].
  exact (proj2 (generateAudio_always_calls Samples.third_time Samples.no_key params 0)
           eq_refl).
Defined.

(* ===================================================================== *)
(** * Part III - further properties *)
(* ===================================================================== *)

(** ** The payload, field by field *)

(** X1: every payload that is built names the request's model, asks for
    one video at the request's resolution, and carries the prompt exactly
    when the prompt is not the empty string. *)
Theorem payload_basics params payload :
  buildPayload params = inr payload ->
  Payload.model payload = GenerateVideoParams.model params
  /\ Config.numberOfVideos (Payload.config payload) = 1
  /\ Config.resolution (Payload.config payload) = GenerateVideoParams.resolution params
  /\ Payload.prompt payload
     = if truthy (GenerateVideoParams.prompt params)
       then Some (GenerateVideoParams.prompt params)
       else None.
Proof.
  unfold buildPayload.
  destruct (GenerateVideoParams.mode params); cbn [GenerationMode_eqb negb];
    repeat match goal with
           | |- context [match ?x with _ => _ end] =>
             lazymatch x with
             | truthy _ => fail
             | _ => destruct x
             end
           end;
    intros H; inversion H; subst;
    destruct (truthy (GenerateVideoParams.prompt params)); repeat split.
Qed.

Lemma payload_basics_witness :
  buildPayload Samples.text_params = inr Samples.text_payload
  /\ Payload.prompt Samples.text_payload = Some "a cat surfing"
  /\ Config.numberOfVideos (Payload.config Samples.text_payload) = 1.
Proof.
  split; [reflexivity|].
  destruct (payload_basics Samples.text_params Samples.text_payload eq_refl)
    as (_ & Hn & _ & Hp).
  split; [exact Hp | exact Hn].
Defined.

(** X2: a payload carries the inputs of its own mode only.  The start
    frame becomes [image] and an end frame [config.lastFrame] in
    FRAMES_TO_VIDEO alone, [config.referenceImages] is present in
    REFERENCES_TO_VIDEO alone, and [video] in EXTEND_VIDEO alone, whatever
    else the request holds. *)
Theorem payload_mode_inputs params payload :
  buildPayload params = inr payload ->
  Payload.image payload
  = match GenerateVideoParams.mode params with
    | FRAMES_TO_VIDEO => option_map image_of (GenerateVideoParams.startFrame params)
    | _ => None
    end
  /\ (GenerateVideoParams.mode params <> FRAMES_TO_VIDEO ->
      Config.lastFrame (Payload.config payload) = None)
  /\ (GenerateVideoParams.mode params <> REFERENCES_TO_VIDEO ->
      Config.referenceImages (Payload.config payload) = None)
  /\ Payload.video payload
     = match GenerateVideoParams.mode params with
       | EXTEND_VIDEO => GenerateVideoParams.inputVideoObject params
       | _ => None
       end.
Proof.
  unfold buildPayload.
  destruct (GenerateVideoParams.mode params); cbn [GenerationMode_eqb negb];
    repeat match goal with
           | |- context [match ?x with _ => _ end] =>
             lazymatch x with
             | truthy _ => fail
             | _ => destruct x
             end
           end;
    intros H; inversion H; subst;
    destruct (truthy (GenerateVideoParams.prompt params));
    repeat split; intros; congruence.
Qed.

Lemma payload_mode_inputs_witness :
  let params := Samples.with_mode TEXT_TO_VIDEO Samples.references_params in
  GenerateVideoParams.referenceImages params
  = Some [Samples.png "helmet.png" "HHHH"; Samples.png "sword.png" "SSSS"]
  /\ exists payload,
       buildPayload params = inr payload
       /\ Config.referenceImages (Payload.config payload) = None
       /\ Payload.image payload = None.
Proof.
  intros params. split; [reflexivity|].
  eexists. split; [reflexivity|].
  destruct (payload_mode_inputs params _ eq_refl) as (Hi & _ & Hr & _).
  split; [apply Hr; discriminate | exact Hi].
Defined.



(** ** The loop, poll by poll *)

Lemma exec_await_any {X} (e : envE (Exn + X)) fuel w polls :
  exec fuel w polls (await e)
  = match fuel with
    | 0 => ([], None)
    | 1 => ([mkEvent (call_of e) (rejection_of e (answer w polls e))], None)
    | S (S fuel') =>
      ([mkEvent (call_of e) (rejection_of e (answer w polls e))],
       Some (answer w polls e, polled e polls, S fuel'))
    end.
Proof. destruct fuel as [|[|fuel]]; reflexivity. Qed.

Lemma exec_perform_any {X} (e : envE X) fuel w polls :
  exec fuel w polls (perform e)
  = match fuel with
    | 0 => ([], None)
    | 1 => ([mkEvent (call_of e) (rejection_of e (answer w polls e))], None)
    | S (S fuel') =>
      ([mkEvent (call_of e) (rejection_of e (answer w polls e))],
       Some (inr (answer w polls e), polled e polls, S fuel'))
    end.
Proof. destruct fuel as [|[|fuel]]; reflexivity. Qed.

Lemma exec_Ret_any {R} (r : R) fuel w polls :
  exec fuel w polls (Ret r)
  = match fuel with
    | 0 => ([], None)
    | S _ => ([], Some (r, polls, fuel))
    end.
Proof. destruct fuel; reflexivity. Qed.

(** The loop makes one pause and one poll for each status that is not
    done, with the handle the call before returned, and ends with the
    first status that is done. *)
Lemma whileNotDone_statuses w n : forall polls operation waiting final fuel,
  statuses n w polls operation = Some (waiting, final) ->
  exec (3 * List.length waiting + S fuel) w polls (whileNotDone operation)
  = (turns waiting, Some (inr final, polls + List.length waiting, S fuel)).
Proof.
  induction n as [|n IH]; intros polls operation waiting final fuel H;
    cbn [statuses] in H;
    destruct (Operation.done operation) eqn:Hd.
  - inversion H; subst. cbn [List.length Nat.mul Nat.add turns flat_map].
    rewrite (whileNotDone_done w _ _ _ Hd), Nat.add_0_r. reflexivity.
  - discriminate.
  - inversion H; subst. cbn [List.length Nat.mul Nat.add turns flat_map].
    rewrite (whileNotDone_done w _ _ _ Hd), Nat.add_0_r. reflexivity.
  - destruct (World.getVideosOperation w polls operation) as [e|operation'] eqn:Hw;
      [discriminate|].
    destruct (statuses n w (S polls) operation') as [[waiting' final']|] eqn:Hs;
      [|discriminate].
    inversion H; subst. cbn [List.length].
    replace (3 * S (List.length waiting') + S fuel)
      with (3 + (3 * List.length waiting' + S fuel)) by lia.
    rewrite (whileNotDone_again w _ _ _ _ Hd Hw), (IH _ _ _ _ _ Hs).
    unfold asked. rewrite Hw. cbn [failure turns flat_map app].
    fold (turns waiting'). now rewrite Nat.add_succ_r.
Qed.

(** The calls of [fetchVideo] come in their order. *)
Lemma Fetching_fetchVideo env operation fuel w polls :
  Fetching (calls (fst (exec fuel w polls (fetchVideo env operation)))).
Proof.
  unfold fetchVideo, throw, lift, ret, calls.
  repeat
    match goal with
    | |- context [exec _ _ _ (Ret _)] => rewrite exec_Ret_any
    | |- context [exec _ _ _ (await _)] =>
      rewrite exec_await_any; cbn [answer polled call_of is_poll rejection_of]
    | |- context [exec _ _ _ (perform _)] =>
      rewrite exec_perform_any; cbn [answer polled call_of is_poll rejection_of]
    | |- context [exec _ _ _ (bind _ _)] => rewrite exec_bind
    | |- context [match ?x with _ => _ end] =>
      lazymatch x with
      | context [match _ with _ => _ end] => fail
      | _ => destruct x eqn:?
      end
    | |- context [if ?b then _ else _] =>
      lazymatch b with
      | context [match _ with _ => _ end] => fail
      | _ => destruct b eqn:?
      end
    | _ => progress cbn [fst snd app map call]
    end;
    constructor.
Qed.

Lemma Fetching_not_poll l : Fetching l -> filter is_poll l = [].
Proof. destruct 1; reflexivity. Qed.

Lemma filter_poll_turns waiting l :
  filter is_poll (calls (turns waiting ++ l))
  = map CallGetVideosOperation waiting ++ filter is_poll (calls l).
Proof.
  induction waiting as [|operation waiting IH]; [reflexivity|].
  cbn [turns flat_map app calls map call slept filter is_poll].
  f_equal. exact IH.
Qed.

Lemma submitAndAwait_statuses w payload operation n waiting final fuel :
  World.generateVideos w payload = inr operation ->
  statuses n w 0 operation = Some (waiting, final) ->
  exec (3 * List.length waiting + 2 + fuel) w 0 (submitAndAwait payload)
  = (mkEvent (CallGenerateVideos payload) None :: turns waiting,
     Some (inr final, List.length waiting, S fuel)).
Proof.
  intros Hs Hst. unfold submitAndAwait. rewrite exec_bind.
  replace (3 * List.length waiting + 2 + fuel)
    with (S (S (3 * List.length waiting + fuel))) by lia.
  rewrite exec_await. cbn [answer polled call_of is_poll rejection_of].
  rewrite Hs.
  replace (S (3 * List.length waiting + fuel))
    with (3 * List.length waiting + S fuel) by lia.
  rewrite (whileNotDone_statuses w n _ _ _ _ _ Hst). reflexivity.
Qed.

(** X4: when the client is constructed, the submission returns a handle
    and the world reports it
    done after some statuses that are not, [generateVideo] pauses and polls
    once for each of those, each time with the handle the call before
    returned, and then goes on to the fetch: none when the submission
    returns a finished operation, and never one more than needed. *)
Theorem polls_follow_statuses w env params payload key operation n waiting final fuel :
  ProcessEnv.API_KEY env = Some key ->
  buildPayload params = inr payload ->
  World.generateVideos w payload = inr operation ->
  statuses n w 0 operation = Some (waiting, final) ->
  exists tail o,
    run (3 * List.length waiting + 2 + fuel) w (generateVideo env params)
    = (mkEvent (CallGenerateVideos payload) None :: turns waiting ++ tail, o)
    /\ Fetching (calls tail)
    /\ filter is_poll (calls (turns waiting ++ tail))
       = map CallGetVideosOperation waiting.
Proof.
  intros Hk Hb Hs Hst.
  pose proof (submitAndAwait_statuses w payload operation n waiting final fuel Hs Hst)
    as E.
  pose proof (exec_generateVideo_done w env params payload _ _ _ _ _ _ Hk Hb E 0) as G.
  cbn [Nat.add] in G.
  pose proof (Fetching_fetchVideo env final (S fuel) w (List.length waiting)) as F.
  destruct (exec (S fuel) w (List.length waiting) (fetchVideo env final))
    as [tail o]. cbn [fst] in F.
  apply run_of_exec in G. exists tail, (settled o).
  split; [exact G|]. split; [exact F|].
  rewrite filter_poll_turns, (Fetching_not_poll _ F), app_nil_r. reflexivity.
Qed.

Lemma polls_follow_statuses_witness :
  statuses 5 Samples.third_time 0 (Samples.pending "operations/7")
  = Some ([Samples.pending "operations/7"; Samples.pending "operations/7"],
          Samples.finished [Samples.clip Samples.encoded_uri;
                            Samples.clip "https://h.example/other?alt=media"])
  /\ exists tail o,
       run 8 Samples.third_time (generateVideo Samples.env Samples.text_params)
       = (mkEvent (CallGenerateVideos Samples.text_payload) None
          :: turns [Samples.pending "operations/7"; Samples.pending "operations/7"]
          ++ tail, o)
       /\ Fetching (calls tail).
Proof.
  split; [reflexivity|].
  destruct (polls_follow_statuses
              Samples.third_time Samples.env Samples.text_params Samples.text_payload
              "KEY" (Samples.pending "operations/7") 5
              [Samples.pending "operations/7"; Samples.pending "operations/7"]
              (Samples.finished [Samples.clip Samples.encoded_uri;
                                 Samples.clip "https://h.example/other?alt=media"])
              0 eq_refl eq_refl eq_refl eq_refl) as (tail & o & H & F & _).
  exists tail, o. split; [exact H | exact F].
Defined.

(** X5: [generateVideo] has no timeout.  Once a request is submitted,
    while the service keeps answering
    with operations that are not done, the promise stays pending, however
    many steps it is given. *)
Theorem generateVideo_never_times_out w env params payload key operation :
  ProcessEnv.API_KEY env = Some key ->
  buildPayload params = inr payload ->
  World.generateVideos w payload = inr operation ->
  Operation.done operation = false ->
  (forall polls op,
      exists op', World.getVideosOperation w polls op = inr op'
                  /\ Operation.done op' = false) ->
  forall fuel, snd (run fuel w (generateVideo env params)) = None.
Proof.
  intros Hk Hb Hs Hd Hw fuel. unfold run.
  rewrite (exec_generateVideo w env _ _ _ _ _ Hk Hb), exec_bind.
  unfold submitAndAwait. rewrite exec_bind, exec_await_any.
  destruct fuel as [|[|fuel]]; try reflexivity.
  cbn [answer polled call_of is_poll rejection_of]. rewrite Hs.
  pose proof (whileNotDone_unbounded w Hw (S fuel) 0 operation Hd) as H.
  destruct (exec (S fuel) w 0 (whileNotDone operation)) as [tr o].
  cbn [snd] in H. subst o. reflexivity.
Qed.

Lemma generateVideo_never_times_out_witness :
  snd (run 1000 Scenes.stalling (generateVideo Samples.env Samples.text_params)) = None.
Proof.
  refine (generateVideo_never_times_out
            Scenes.stalling Samples.env Samples.text_params Samples.text_payload
            "KEY" (Samples.pending "operations/7") eq_refl eq_refl eq_refl eq_refl _
            1000).
  intros polls op. exists (Samples.pending "operations/7"). split; reflexivity.
Defined.

(** ** The order of the calls *)

Lemma Polling_whileNotDone w fuel polls operation :
  match snd (exec fuel w polls (whileNotDone operation)) with
  | Some (inr _, _, _) =>
    forall l, Fetching l ->
              Polling (calls (fst (exec fuel w polls (whileNotDone operation))) ++ l)
  | _ => Polling (calls (fst (exec fuel w polls (whileNotDone operation))))
  end.
Proof.
  revert fuel polls operation.
  apply (whileNotDone_ind w
           (fun _ _ _ res =>
              match snd res with
              | Some (inr _, _, _) =>
                forall l, Fetching l -> Polling (calls (fst res) ++ l)
              | _ => Polling (calls (fst res))
              end)); cbn [fst snd calls map call slept asked app].
  - intros. apply Polling_over, Fetching_none.
  - intros _ _ _ _ l Hl. now apply Polling_over.
  - intros. apply Polling_pause.
  - intros. apply Polling_turn, Polling_over, Fetching_none.
  - intros. apply Polling_turn, Polling_over, Fetching_none.
  - intros fuel polls op op' _ _ IH.
    destruct (exec fuel w (S polls) (whileNotDone op')) as [tr [[[[e|final] p] r]|]];
      cbn [fst snd calls map call slept asked app] in *.
    + now apply Polling_turn.
    + intros l Hl. apply Polling_turn. now apply IH.
    + now apply Polling_turn.
Qed.

(** X6: the calls of [generateVideo] always come in one order: the
    submission first and once, then pauses of ten seconds each followed by
    a poll, then at most one fetch, the reading of its body and the object
    URL.  It never calls the text model. *)
Theorem generateVideo_protocol fuel w env params :
  Protocol (calls (fst (run fuel w (generateVideo env params)))).
Proof.
  unfold run. destruct (ProcessEnv.API_KEY env) as [key|] eqn:Hk;
    [|rewrite (exec_generateVideo_no_key w env _ _ _ Hk);
      destruct fuel; apply Protocol_none].
  destruct (buildPayload params) as [e|payload] eqn:Hb.
  - rewrite (exec_generateVideo_refused w env _ _ _ _ _ Hk Hb).
    destruct fuel; apply Protocol_none.
  - rewrite (exec_generateVideo w env _ _ _ _ _ Hk Hb), exec_bind.
    unfold submitAndAwait. rewrite exec_bind, exec_await_any.
    destruct fuel as [|[|fuel]];
      cbn [answer polled call_of is_poll rejection_of fst calls map call];
      [apply Protocol_none
      | apply Protocol_submitted, Polling_over, Fetching_none |].
    destruct (World.generateVideos w payload) as [e|operation];
      [cbn [fst calls map call];
       apply Protocol_submitted, Polling_over, Fetching_none|].
    pose proof (Polling_whileNotDone w (S fuel) 0 operation) as P.
    destruct (exec (S fuel) w 0 (whileNotDone operation))
      as [tr [[[[e|final] p] r]|]];
      cbn [fst snd app calls map call] in *;
      try (apply Protocol_submitted; exact P).
    pose proof (Fetching_fetchVideo env final r w p) as F.
    destruct (exec r w p (fetchVideo env final)) as [tail o].
    cbn [fst snd app calls map call] in *.
    apply Protocol_submitted. unfold calls in P. rewrite map_app. now apply P.
Qed.

(** ** How [generateVideo] ends *)

(** X7: after a submission, an operation that is done but carries no
    response makes
    [generateVideo] reject with "No videos generated."; nothing is
    fetched. *)
Theorem done_without_response w env params payload key fuel tr operation :
  ProcessEnv.API_KEY env = Some key ->
  buildPayload params = inr payload ->
  run fuel w (submitAndAwait payload) = (tr, Some (inr operation)) ->
  Operation.response operation = None ->
  run fuel w (generateVideo env params)
  = (tr, Some (inl (Error "No videos generated.")))
  /\ Forall (fun ev => is_fetch (call ev) = false) tr.
Proof.
  intros Hk Hb Hrun Hr.
  destruct (run_settled w _ _ _ _ Hrun) as (polls & rest & E).
  pose proof (exec_generateVideo_done w env params payload _ _ _ _ _ _ Hk Hb E 0) as G.
  cbn [Nat.add] in G. unfold fetchVideo, throw in G. rewrite Hr, exec_Ret in G.
  apply run_of_exec in G. rewrite app_nil_r in G. split; [exact G|].
  pose proof (Only_submitAndAwait payload fuel w 0) as H. rewrite E in H.
  cbn [fst] in H. revert H. apply Forall_impl. intros ev.
  unfold not_fetch. now destruct (is_fetch (call ev)).
Qed.

Lemma done_without_response_witness :
  run 2 Scenes.hollow (generateVideo Samples.env Samples.text_params)
  = ([mkEvent (CallGenerateVideos Samples.text_payload) None],
     Some (inl (Error "No videos generated."))).
Proof.
  refine (proj1 (done_without_response
                   Scenes.hollow Samples.env Samples.text_params Samples.text_payload
                   "KEY" 2 _
                   {| Operation.name := "operations/7"; Operation.done := true;
                      Operation.response := None |}
                   eq_refl eq_refl _ eq_refl)).
  vm_compute. reflexivity.
Defined.

(** X8: after a submission, a URI that [decodeURIComponent] refuses makes
    [generateVideo]
    reject with the URIError of the decoding; nothing is fetched. *)
Theorem malformed_uri_rejects
        w env params payload key fuel tr operation videoObject others uri e :
  ProcessEnv.API_KEY env = Some key ->
  buildPayload params = inr payload ->
  run fuel w (submitAndAwait payload) = (tr, Some (inr operation)) ->
  Operation.response operation
  = Some {| GenerateVideosResponse.generatedVideos :=
              Some ({| GeneratedVideo.video := Some videoObject |} :: others) |} ->
  Video.uri videoObject = Some uri ->
  truthy uri = true ->
  decodeURIComponent uri = inl e ->
  run fuel w (generateVideo env params) = (tr, Some (inl e))
  /\ Forall (fun ev => is_fetch (call ev) = false) tr.
Proof.
  intros Hk Hb Hrun Hr Hu Ht Hd.
  destruct (run_settled w _ _ _ _ Hrun) as (polls & rest & E).
  pose proof (exec_generateVideo_done w env params payload _ _ _ _ _ _ Hk Hb E 0) as G.
  cbn [Nat.add] in G.
  rewrite (fetchVideo_malformed w env _ _ _ _ _ _ _ Hr Hu Ht Hd) in G.
  apply run_of_exec in G. rewrite app_nil_r in G. split; [exact G|].
  pose proof (Only_submitAndAwait payload fuel w 0) as H. rewrite E in H.
  cbn [fst] in H. revert H. apply Forall_impl. intros ev.
  unfold not_fetch. now destruct (is_fetch (call ev)).
Qed.

Lemma malformed_uri_rejects_witness :
  decodeURIComponent "https://h.example/100%" = inl (Error "URI malformed")
  /\ run 2 Scenes.garbled (generateVideo Samples.env Samples.text_params)
     = ([mkEvent (CallGenerateVideos Samples.text_payload) None],
        Some (inl (Error "URI malformed"))).
Proof.
  split; [exact decodeURIComponent_malformed|].
  refine (proj1 (malformed_uri_rejects
                   Scenes.garbled Samples.env Samples.text_params Samples.text_payload
                   "KEY" 2 _ (Samples.finished [Samples.clip "https://h.example/100%"])
                   {| Video.uri := Some "https://h.example/100%";
                      Video.videoBytes := None;
                      Video.mimeType := Some "video/mp4" |}
                   [] "https://h.example/100%" (Error "URI malformed")
                   eq_refl eq_refl _ eq_refl eq_refl eq_refl
                   decodeURIComponent_malformed)).
  vm_compute. reflexivity.
Defined.

(** What a fulfilled [fetchVideo] went through. *)
Lemma fetchVideo_resolves env operation fuel w polls tr r polls' rest :
  exec fuel w polls (fetchVideo env operation) = (tr, Some (inr r, polls', rest)) ->
  exists uri res,
    Video.uri (VideoResult.video r) = Some uri
    /\ truthy uri = true
    /\ decodeURIComponent uri = inr (VideoResult.uri r)
    /\ World.fetch w (VideoResult.uri r ++ "&key="
                      ++ template (ProcessEnv.API_KEY env)) = inr res
    /\ Response.ok res = true
    /\ Response.blob res = inr (VideoResult.blob r)
    /\ VideoResult.objectUrl r = World.createObjectURL w (VideoResult.blob r)
    /\ calls tr
       = [CallFetch (VideoResult.uri r ++ "&key="
                     ++ template (ProcessEnv.API_KEY env));
          CallReadBlob res;
          CallCreateObjectURL (VideoResult.blob r)].
Proof.
  unfold fetchVideo, throw, lift, ret.
  repeat
    match goal with
    | |- context [negb (Response.ok ?res)] =>
      destruct (Response.ok res) eqn:?; cbn [negb]
    | |- context [negb (truthy ?uri)] =>
      destruct (truthy uri) eqn:?; cbn [negb]
    | |- context [exec _ _ _ (Ret _)] => rewrite exec_Ret_any
    | |- context [exec _ _ _ (await _)] =>
      rewrite exec_await_any; cbn [answer polled call_of is_poll rejection_of]
    | |- context [exec _ _ _ (perform _)] =>
      rewrite exec_perform_any; cbn [answer polled call_of is_poll rejection_of]
    | |- context [exec _ _ _ (bind _ _)] => rewrite exec_bind
    | |- context [match ?x with _ => _ end] =>
      lazymatch x with
      | context [match _ with _ => _ end] => fail
      | _ => destruct x eqn:?
      end
    | _ => progress cbn [fst snd app]
    end;
    intros H; inversion H; subst; cbn [VideoResult.video VideoResult.uri
      VideoResult.blob VideoResult.objectUrl calls map call].
  eauto 12.
Qed.

(** X9: whenever [generateVideo] resolves, the video it returns has a
    URI, the returned [uri] is that URI decoded, without the key; the
    asset was fetched at that address followed by [&key=] and the key, the
    response was [ok], the returned blob is its body and the object URL was
    made from that blob.  The run ended with exactly these three calls. *)
Theorem generateVideo_resolved fuel w env params tr r :
  run fuel w (generateVideo env params) = (tr, Some (inr r)) ->
  exists uri res before,
    Video.uri (VideoResult.video r) = Some uri
    /\ truthy uri = true
    /\ decodeURIComponent uri = inr (VideoResult.uri r)
    /\ World.fetch w (VideoResult.uri r ++ "&key="
                      ++ template (ProcessEnv.API_KEY env)) = inr res
    /\ Response.ok res = true
    /\ Response.blob res = inr (VideoResult.blob r)
    /\ VideoResult.objectUrl r = World.createObjectURL w (VideoResult.blob r)
    /\ calls tr
       = before
         ++ [CallFetch (VideoResult.uri r ++ "&key="
                        ++ template (ProcessEnv.API_KEY env));
             CallReadBlob res;
             CallCreateObjectURL (VideoResult.blob r)]
    /\ Forall (fun c => is_fetch c = false) before.
Proof.
  intros Hrun. destruct (run_settled w _ _ _ _ Hrun) as (polls & rest & E).
  assert (Hkey : exists key, ProcessEnv.API_KEY env = Some key).
  { destruct (ProcessEnv.API_KEY env) as [key|] eqn:Hk; [eauto|].
    rewrite (exec_generateVideo_no_key w env _ _ _ Hk) in E.
    destruct fuel; discriminate. }
  destruct Hkey as (key & Hk).
  destruct (buildPayload params) as [e|payload] eqn:Hb.
  - rewrite (exec_generateVideo_refused w env _ _ _ _ _ Hk Hb) in E.
    destruct fuel; discriminate.
  - rewrite (exec_generateVideo w env _ _ _ _ _ Hk Hb), exec_bind in E.
    pose proof (Only_submitAndAwait payload fuel w 0) as Ho.
    destruct (exec fuel w 0 (submitAndAwait payload))
      as [tr1 [[[[e|operation] p1] r1]|]]; try discriminate.
    destruct (exec r1 w p1 (fetchVideo env operation)) as [tr2 o2] eqn:F.
    inversion E; subst.
    destruct (fetchVideo_resolves _ _ _ _ _ _ _ _ _ F)
      as (uri & res & Hu & Ht & Hd & Hf & Hok & Hblob & Hurl & Hcalls).
    exists uri, res, (calls tr1). repeat split; try assumption.
    + unfold calls in *. rewrite map_app, Hcalls. reflexivity.
    + cbn [fst] in Ho. unfold calls. apply Forall_map. revert Ho.
      apply Forall_impl. intros ev. unfold not_fetch.
      now destruct (is_fetch (call ev)).
Qed.

Lemma generateVideo_resolved_witness :
  exists tr r,
    run 5 Scenes.ready (generateVideo Samples.env Samples.text_params)
    = (tr, Some (inr r))
    /\ VideoResult.uri r = "https://h.example/v1/files/a:download?alt=media"
    /\ exists uri res before,
         Video.uri (VideoResult.video r) = Some uri
         /\ decodeURIComponent uri = inr (VideoResult.uri r)
         /\ calls tr
            = before
              ++ [CallFetch (VideoResult.uri r ++ "&key=KEY");
                  CallReadBlob res;
                  CallCreateObjectURL (VideoResult.blob r)].
Proof.
  eexists. eexists.
  assert (H : run 5 Scenes.ready (generateVideo Samples.env Samples.text_params)
              = (_, Some (inr _))) by (vm_compute; reflexivity).
  split; [exact H|]. split; [reflexivity|].
  destruct (generateVideo_resolved _ _ _ _ _ _ H)
    as (uri & res & before & Hu & _ & Hd & _ & _ & _ & _ & Hc & _).
  exists uri, res, before. repeat split; assumption.
Defined.

(** X10: the key is checked first, by the constructor of the client.  With
    [process.env.API_KEY] undefined, [generateVideo] rejects at once with
    the constructor's error, whatever the request, an extension without
    its video included: nothing is submitted, polled or fetched. *)
Theorem missing_key_rejects w env params fuel :
  ProcessEnv.API_KEY env = None ->
  run (S fuel) w (generateVideo env params)
  = ([], Some (inl (Error "An API Key must be set when running in a browser"))).
Proof.
  intros Hk. unfold run. rewrite (exec_generateVideo_no_key w env _ _ _ Hk).
  reflexivity.
Qed.

Lemma missing_key_rejects_witness :
  run 5 Scenes.ready (generateVideo Samples.no_key Samples.text_params)
  = ([], Some (inl (Error "An API Key must be set when running in a browser")))
  /\ run 5 Scenes.ready (generateVideo Samples.no_key Samples.extend_params)
     = ([], Some (inl (Error "An API Key must be set when running in a browser"))).
Proof.
  split.
  - exact (missing_key_rejects Scenes.ready Samples.no_key Samples.text_params 4
             eq_refl).
  - exact (missing_key_rejects Scenes.ready Samples.no_key Samples.extend_params 4
             eq_refl).
Defined.

(** ** [enhancePrompt], past its guard *)

Lemma exec_enhancePrompt w env prompt key fuel polls :
  whitespace_only prompt = false ->
  ProcessEnv.API_KEY env = Some key ->
  exec fuel w polls (enhancePrompt env prompt)
  = match fuel with
    | 0 => ([], None)
    | 1 => ([mkEvent (CallGenerateContent (enhanceRequest prompt))
                     (failure (World.generateContent w (enhanceRequest prompt)))],
            None)
    | S (S fuel') =>
      ([mkEvent (CallGenerateContent (enhanceRequest prompt))
                (failure (World.generateContent w (enhanceRequest prompt)))],
       Some (match World.generateContent w (enhanceRequest prompt) with
             | inl error =>
               inl (Error ("Failed to enhance prompt: " ++ errorMessage error))
             | inr response =>
               match ContentResponse.text response with
               | Some text =>
                 if truthy (trim text) then inr (trim text)
                 else inl (Error ("Failed to enhance prompt: "
                                  ++ "The model returned an empty enhancement."))
               | None => inl (Error ("Failed to enhance prompt: " ++ TypeError_trim))
               end
             end,
             polls, S fuel'))
    end.
Proof.
  intros H Hk. unfold enhancePrompt. rewrite truthy_trim, H, Hk.
  cbn [negb GoogleGenAI.new]. unfold lift at 1. rewrite exec_bind, exec_Ret_any.
  destruct fuel as [|fuel]; [reflexivity|].
  rewrite exec_try_catch, exec_bind, exec_await_any.
  destruct fuel as [|fuel]; [reflexivity|].
  cbn [answer polled call_of is_poll rejection_of].
  destruct (World.generateContent w (enhanceRequest prompt)) as [e|response].
  - unfold throw. rewrite exec_Ret. reflexivity.
  - rewrite exec_bind. unfold lift, throw, ret. rewrite exec_Ret.
    destruct (ContentResponse.text response) as [text|].
    + destruct (truthy (trim text)); cbn [negb]; rewrite !exec_Ret; reflexivity.
    + rewrite exec_Ret. reflexivity.
Qed.

Lemma exec_enhancePrompt_no_key w env prompt fuel polls :
  whitespace_only prompt = false ->
  ProcessEnv.API_KEY env = None ->
  exec fuel w polls (enhancePrompt env prompt)
  = match fuel with
    | 0 => ([], None)
    | S _ =>
      ([], Some (inl (Error "An API Key must be set when running in a browser"),
                 polls, fuel))
    end.
Proof.
  intros H Hk. unfold enhancePrompt. rewrite truthy_trim, H, Hk.
  cbn [negb GoogleGenAI.new]. unfold lift. rewrite exec_bind, exec_Ret_any.
  destruct fuel as [|fuel]; reflexivity.
Qed.

(** X11: on a prompt that is not blank, and with an API key,
    [enhancePrompt] makes its one request and resolves exactly when the
    text of the answer has something besides white space, with that text
    trimmed.  A refused request rejects with "Failed to enhance prompt: "
    followed by the message of the refusal, an enhancement that is empty
    once trimmed with "Failed to enhance prompt: The model returned an
    empty enhancement.", and an answer without text with the same prefix
    followed by the message of the TypeError that reading it raises. *)
Theorem enhancePrompt_outcome w env prompt key fuel :
  whitespace_only prompt = false ->
  ProcessEnv.API_KEY env = Some key ->
  exists r,
    run (2 + fuel) w (enhancePrompt env prompt)
    = ([mkEvent (CallGenerateContent (enhanceRequest prompt))
                (failure (World.generateContent w (enhanceRequest prompt)))],
       Some r)
    /\ match World.generateContent w (enhanceRequest prompt) with
       | inl error =>
         r = inl (Error ("Failed to enhance prompt: " ++ errorMessage error))
       | inr response =>
         match ContentResponse.text response with
         | Some text =>
           r = if truthy (trim text) then inr (trim text)
               else inl (Error ("Failed to enhance prompt: "
                                ++ "The model returned an empty enhancement."))
         | None =>
           exists typeError, r = inl (Error ("Failed to enhance prompt: " ++ typeError))
         end
       end.
Proof.
  intros H Hk. unfold run. rewrite (exec_enhancePrompt w env _ key _ _ H Hk).
  cbn [Nat.add option_map fst].
  eexists. split; [reflexivity|].
  destruct (World.generateContent w (enhanceRequest prompt)) as [e|response];
    [reflexivity|].
  destruct (ContentResponse.text response) as [text|]; [reflexivity|].
  eexists. reflexivity.
Qed.

Lemma enhancePrompt_outcome_witness :
  whitespace_only "a cat" = false
  /\ run 2 (Scenes.eloquent (Some "  A tabby cat rides a wave at dawn.  "))
         (enhancePrompt Samples.env "a cat")
     = ([mkEvent (CallGenerateContent (enhanceRequest "a cat")) None],
        Some (inr "A tabby cat rides a wave at dawn."))
  /\ run 2 (Scenes.eloquent (Some "   ")) (enhancePrompt Samples.env "a cat")
     = ([mkEvent (CallGenerateContent (enhanceRequest "a cat")) None],
        Some (inl (Error "Failed to enhance prompt: The model returned an empty enhancement."))).
Proof.
  split; [reflexivity|]. split.
  - destruct (enhancePrompt_outcome
                (Scenes.eloquent (Some "  A tabby cat rides a wave at dawn.  "))
                Samples.env "a cat" "KEY" 0 eq_refl eq_refl) as (r & Hrun & Hr).
    vm_compute in Hr. subst r. exact Hrun.
  - destruct (enhancePrompt_outcome (Scenes.eloquent (Some "   "))
                Samples.env "a cat" "KEY" 0 eq_refl eq_refl) as (r & Hrun & Hr).
    vm_compute in Hr. subst r. exact Hrun.
Defined.

(** X12: [enhancePrompt] never resolves with the empty string, and it
    never rejects with a raw thrown value.  A rejection is an [Error], of
    one of three kinds: "Prompt cannot be empty.", with no call made; the
    error of the constructor, not wrapped and with no call made, when
    [process.env.API_KEY] is undefined; or a message that begins with
    "Failed to enhance prompt: ". *)
Theorem enhancePrompt_never fuel w env prompt tr r :
  run fuel w (enhancePrompt env prompt) = (tr, Some r) ->
  match r with
  | inr enhancedPrompt => truthy enhancedPrompt = true
  | inl error =>
    (tr = [] /\ error = Error "Prompt cannot be empty.")
    \/ (tr = [] /\ ProcessEnv.API_KEY env = None
        /\ error = Error "An API Key must be set when running in a browser")
    \/ exists cause, error = Error ("Failed to enhance prompt: " ++ cause)
  end.
Proof.
  unfold run. destruct (whitespace_only prompt) eqn:Hw.
  - unfold enhancePrompt. rewrite truthy_trim, Hw. cbn [negb]. unfold throw.
    rewrite exec_Ret_any. destruct fuel; cbn; intros H; inversion H; subst.
    now left.
  - destruct (ProcessEnv.API_KEY env) as [key|] eqn:Hk.
    + rewrite (exec_enhancePrompt w env _ key _ _ Hw Hk).
      destruct fuel as [|[|fuel]]; cbn; intros H; inversion H; subst.
      destruct (World.generateContent w (enhanceRequest prompt)) as [e|response];
        [right; right; eexists; reflexivity|].
      destruct (ContentResponse.text response) as [text|];
        [|right; right; eexists; reflexivity].
      destruct (truthy (trim text)) eqn:Ht;
        [exact Ht | right; right; eexists; reflexivity].
    + rewrite (exec_enhancePrompt_no_key w env _ _ _ Hw Hk).
      destruct fuel as [|fuel]; cbn; intros H; inversion H; subst.
      right. left. auto.
Qed.

Lemma enhancePrompt_never_witness :
  (exists error,
      run 2 Samples.third_time (enhancePrompt Samples.env "a cat")
      = ([mkEvent (CallGenerateContent (enhanceRequest "a cat")) None],
         Some (inl error))
      /\ ((([mkEvent (CallGenerateContent (enhanceRequest "a cat")) None] = []
            /\ error = Error "Prompt cannot be empty.")
           \/ ([mkEvent (CallGenerateContent (enhanceRequest "a cat")) None] = []
               /\ ProcessEnv.API_KEY Samples.env = None
               /\ error = Error "An API Key must be set when running in a browser")
           \/ exists cause, error = Error ("Failed to enhance prompt: " ++ cause))))
  /\ exists error,
       run 2 Samples.third_time (enhancePrompt Samples.no_key "a cat")
       = ([], Some (inl error))
       /\ ((@nil Event = [] /\ error = Error "Prompt cannot be empty.")
           \/ (@nil Event = [] /\ ProcessEnv.API_KEY Samples.no_key = None
               /\ error = Error "An API Key must be set when running in a browser")
           \/ exists cause, error = Error ("Failed to enhance prompt: " ++ cause)).
Proof.
  split.
  - assert (H : { error |
                  run 2 Samples.third_time (enhancePrompt Samples.env "a cat")
                  = ([mkEvent (CallGenerateContent (enhanceRequest "a cat")) None],
                     Some (inl error)) })
      by (eexists; vm_compute; reflexivity).
    destruct H as [error H]. exists error. split; [exact H|].
    exact (enhancePrompt_never _ _ _ _ _ _ H).
  - assert (H : { error |
                  run 2 Samples.third_time (enhancePrompt Samples.no_key "a cat")
                  = ([], Some (inl error)) })
      by (eexists; vm_compute; reflexivity).
    destruct H as [error H]. exists error. split; [exact H|].
    exact (enhancePrompt_never _ _ _ _ _ _ H).
Defined.

(** ** The application *)

Lemma startsWith_refl s : startsWith s s = true.
Proof. induction s as [|a s IH]; cbn; [reflexivity|]. now rewrite Ascii.eqb_refl. Qed.

Lemma includes_self s : includes s s = true.
Proof. destruct s; cbn; [reflexivity|]. now rewrite Ascii.eqb_refl, startsWith_refl. Qed.

Lemma includes_append pre s : includes (pre ++ s) s = true.
Proof.
  induction pre as [|a pre IH]; [apply includes_self|].
  cbn [append includes]. rewrite IH. apply orb_true_r.
Qed.

(** X13: what the user reads after a failed video generation.  The text
    is never empty, so the error panel shows.  When the failure is not
    taken for a key problem, the text is "Video generation failed: "
    followed by the original message, which it therefore contains; a
    message that mentions "Requested entity was not found." is reported as
    a missing model and opens the key dialog, even when it also matches the
    patterns of an invalid key. *)
Theorem classify_message toLowerCase errorMessage :
  truthy (fst (classify toLowerCase errorMessage)) = true
  /\ (snd (classify toLowerCase errorMessage) = false ->
      fst (classify toLowerCase errorMessage)
      = ("Video generation failed: " ++ errorMessage)%string
      /\ includes (fst (classify toLowerCase errorMessage)) errorMessage = true)
  /\ (includes errorMessage "Requested entity was not found." = true ->
      classify toLowerCase errorMessage
      = ("Model not found. This can be caused by an invalid API key or permission issues. Please check your API key.",
         true)).
Proof.
  unfold classify.
  destruct (includes errorMessage "Requested entity was not found.").
  - cbn [fst snd]. split; [reflexivity|]. split; [discriminate | reflexivity].
  - destruct (includes errorMessage "API_KEY_INVALID"
              || includes errorMessage "API key not valid"
              || includes (toLowerCase errorMessage) "permission denied");
      cbn [fst snd].
    + split; [reflexivity|]. split; discriminate.
    + split; [reflexivity|]. split; [|discriminate].
      intros _. split; [reflexivity | apply includes_append].
Qed.

Lemma classify_message_witness :
  snd (classify Scenes.toLowerCase "quota exceeded") = false
  /\ fst (classify Scenes.toLowerCase "quota exceeded")
     = "Video generation failed: quota exceeded"
  /\ includes "Requested entity was not found. PERMISSION DENIED"
              "Requested entity was not found." = true
  /\ fst (classify Scenes.toLowerCase
                   "Requested entity was not found. PERMISSION DENIED")
     = "Model not found. This can be caused by an invalid API key or permission issues. Please check your API key.".
Proof.
  split; [reflexivity|].
  split; [exact (proj1 (proj1 (proj2 (classify_message Scenes.toLowerCase
                                        "quota exceeded")) eq_refl))|].
  split; [reflexivity|].
  exact (f_equal fst
           (proj2 (proj2 (classify_message
                            Scenes.toLowerCase
                            "Requested entity was not found. PERMISSION DENIED"))
                  eq_refl)).
Defined.

(** X14: when a remote call of [generateVideo] fails, the application ends
    in ERROR and shows the classification of the message of that very
    failure; the key dialog opens when the classification says so, and in
    particular when the message mentions "API_KEY_INVALID" or "API key not
    valid". *)
Theorem video_failure_shown toLowerCase w env aistudio fuel params s tr o c e :
  keyMissing aistudio = false ->
  run fuel w (generateVideo env params) = (tr, o) ->
  In (mkEvent c (Some e)) tr ->
  let after := handleGenerateVideo toLowerCase w env aistudio (S fuel) params s in
  fst after = tr
  /\ App.appState (snd after) = ERROR
  /\ App.errorMessage (snd after)
     = Some (fst (classify toLowerCase (errorMessage e)))
  /\ App.showApiKeyDialog (snd after)
     = (snd (classify toLowerCase (errorMessage e)) || App.showApiKeyDialog s)
  /\ (includes (errorMessage e) "API_KEY_INVALID" = true
      \/ includes (errorMessage e) "API key not valid" = true ->
      App.showApiKeyDialog (snd after) = true).
Proof.
  intros Hk Hrun Hin after.
  assert (Hrun' : run (S fuel) w (generateVideo env params) = (tr, Some (inl e))).
  { unfold run in *.
    destruct (exec fuel w 0 (generateVideo env params)) as [tr' o'] eqn:E.
    inversion Hrun; subst.
    destruct (Verbatim_generateVideo env params _ _ _ _ _ _ _ E Hin) as (p & r & ->).
    reflexivity. }
  subst after. unfold handleGenerateVideo. rewrite Hk, Hrun'.
  assert (Hd : includes (errorMessage e) "API_KEY_INVALID" = true
               \/ includes (errorMessage e) "API key not valid" = true ->
               snd (classify toLowerCase (errorMessage e)) = true).
  { unfold classify. intros [H|H]; rewrite H;
      destruct (includes (errorMessage e) "Requested entity was not found.");
      try reflexivity.
    destruct (includes (errorMessage e) "API_KEY_INVALID"); reflexivity. }
  destruct (classify toLowerCase (errorMessage e)) as [message [|]];
    cbn [fst snd orb App.appState App.errorMessage App.showApiKeyDialog
         App.set_appState App.set_errorMessage App.set_showApiKeyDialog
         App.set_lastConfig App.set_initialFormValues] in *;
    repeat split; auto.
  intros H. apply Hd in H. discriminate.
Qed.

Lemma video_failure_shown_witness :
  let after :=
    handleGenerateVideo Scenes.toLowerCase Scenes.keyless Samples.env
                        (Some (inr true)) 2 Samples.text_params App.initial in
  App.appState (snd after) = ERROR
  /\ App.errorMessage (snd after)
     = Some "Your API key is invalid or lacks permissions. Please select a valid, billing-enabled API key."
  /\ App.showApiKeyDialog (snd after) = true.
Proof.
  intros after.
  destruct (video_failure_shown
              Scenes.toLowerCase Scenes.keyless Samples.env (Some (inr true)) 1
              Samples.text_params App.initial
              [mkEvent (CallGenerateVideos Samples.text_payload)
                       (Some (Error "API key not valid. Please pass a valid API key."))]
              None (CallGenerateVideos Samples.text_payload)
              (Error "API key not valid. Please pass a valid API key.")
              eq_refl eq_refl (or_introl eq_refl))
    as (_ & Hs & Hm & _ & Hd).
  split; [exact Hs|]. split; [exact Hm|].
  apply Hd. right. reflexivity.
Defined.

(** X15: after a generation that succeeded, Extend prepares a request
    that [generateVideo] accepts: the form goes back to IDLE with values
    whose payload extends the very video that was returned, with the model
    of the request, the 720p resolution, no prompt and no aspect ratio. *)
Theorem extend_after_success
        P720 toLowerCase newFile w env aistudio fuel params s tr r file :
  keyMissing aistudio = false ->
  run fuel w (generateVideo env params) = (tr, Some (inr r)) ->
  newFile (VideoResult.blob r) "last_video.mp4" (Blob.type (VideoResult.blob r))
  = inr file ->
  let shown := snd (handleGenerateVideo toLowerCase w env aistudio fuel params s) in
  let extended := handleExtend P720 newFile shown in
  App.appState shown = SUCCESS
  /\ App.videoUrl shown = Some (VideoResult.objectUrl r)
  /\ App.appState extended = IDLE
  /\ App.videoUrl extended = None
  /\ exists form payload,
       App.initialFormValues extended = Some form
       /\ buildPayload form = inr payload
       /\ Payload.video payload = Some (VideoResult.video r)
       /\ Payload.model payload = GenerateVideoParams.model params
       /\ Config.resolution (Payload.config payload) = P720
       /\ Payload.prompt payload = None
       /\ Config.aspectRatio (Payload.config payload) = None.
Proof.
  intros Hk Hrun Hfile shown extended.
  subst extended shown. unfold handleGenerateVideo. rewrite Hk, Hrun.
  cbn [snd]. unfold handleExtend.
  cbn [App.appState App.videoUrl App.lastConfig App.lastVideoBlob App.lastVideoObject
       App.set_appState App.set_errorMessage App.set_lastConfig
       App.set_initialFormValues App.set_videoUrl App.set_lastVideoBlob
       App.set_lastVideoObject].
  rewrite Hfile.
  repeat split; try reflexivity.
  eexists. eexists. split; [reflexivity|]. split; [reflexivity|].
  repeat split.
Qed.

Lemma extend_after_success_witness :
  let shown :=
    snd (handleGenerateVideo Scenes.toLowerCase Scenes.ready Samples.env None 5
                             Samples.text_params App.initial) in
  App.appState shown = SUCCESS
  /\ exists form payload,
       App.initialFormValues (handleExtend "720p" Scenes.newFile shown) = Some form
       /\ buildPayload form = inr payload
       /\ Payload.video payload
          = Some {| Video.uri := Some Samples.encoded_uri;
                    Video.videoBytes := None;
                    Video.mimeType := Some "video/mp4" |}.
Proof.
  intros shown.
  assert (H : exists tr r,
             run 5 Scenes.ready (generateVideo Samples.env Samples.text_params)
             = (tr, Some (inr r))
             /\ VideoResult.video r
                = {| Video.uri := Some Samples.encoded_uri;
                     Video.videoBytes := None;
                     Video.mimeType := Some "video/mp4" |})
    by (eexists; eexists; split; vm_compute; reflexivity).
  destruct H as (tr & r & Hrun & Hv).
  destruct (extend_after_success
              "720p" Scenes.toLowerCase Scenes.newFile Scenes.ready Samples.env None
              5 Samples.text_params App.initial tr r
              {| File.name := "last_video.mp4";
                 File.type := Blob.type (VideoResult.blob r) |}
              eq_refl Hrun eq_refl)
    as (Hs & _ & _ & _ & form & payload & Hf & Hb & Hp & _).
  split; [exact Hs|]. exists form, payload.
  split; [exact Hf|]. split; [exact Hb|]. rewrite Hp, Hv. reflexivity.
Defined.

(** X16: the application has no timeout either.  Once a request is
    submitted, while the service keeps answering with operations that are not done, the video workflow stays
    in LOADING, with no error shown, however long it is observed. *)
Theorem loading_while_not_done
        toLowerCase w env aistudio params payload key operation s :
  keyMissing aistudio = false ->
  ProcessEnv.API_KEY env = Some key ->
  buildPayload params = inr payload ->
  World.generateVideos w payload = inr operation ->
  Operation.done operation = false ->
  (forall polls op,
      exists op', World.getVideosOperation w polls op = inr op'
                  /\ Operation.done op' = false) ->
  forall fuel,
    let after := snd (handleGenerateVideo toLowerCase w env aistudio fuel params s) in
    App.appState after = LOADING
    /\ App.errorMessage after = None
    /\ App.videoUrl after = App.videoUrl s.
Proof.
  intros Hk Hkey Hb Hs Hd Hw fuel.
  assert (Hp : snd (run fuel w (generateVideo env params)) = None).
  { unfold run.
    rewrite (exec_generateVideo w env _ _ _ _ _ Hkey Hb), exec_bind.
    unfold submitAndAwait. rewrite exec_bind, exec_await_any.
    destruct fuel as [|[|fuel]]; try reflexivity.
    cbn [answer polled call_of is_poll rejection_of]. rewrite Hs.
    pose proof (whileNotDone_unbounded w Hw (S fuel) 0 operation Hd) as H.
    destruct (exec (S fuel) w 0 (whileNotDone operation)) as [tr o].
    cbn [snd] in H. subst o. reflexivity. }
  unfold handleGenerateVideo. rewrite Hk.
  destruct (run fuel w (generateVideo env params)) as [tr o].
  cbn [snd] in Hp. subst o. cbn. repeat split.
Qed.

Lemma loading_while_not_done_witness :
  App.appState
    (snd (handleGenerateVideo Scenes.toLowerCase Scenes.stalling Samples.env None 1000
                              Samples.text_params App.initial))
  = LOADING.
Proof.
  refine (proj1 (loading_while_not_done
                   Scenes.toLowerCase Scenes.stalling Samples.env None
                   Samples.text_params Samples.text_payload "KEY"
                   (Samples.pending "operations/7") App.initial
                   eq_refl eq_refl eq_refl eq_refl eq_refl _ 1000)).
  intros polls op. exists (Samples.pending "operations/7"). split; reflexivity.
Defined.

(** X17: once the key check has passed, the request is remembered
    whatever comes of it: Retry submits that same request again, and after
    a failure Try Again hands it back to the form, in IDLE and with the
    error cleared. *)
Theorem request_remembered toLowerCase w env aistudio fuel params s :
  keyMissing aistudio = false ->
  let after := snd (handleGenerateVideo toLowerCase w env aistudio fuel params s) in
  App.lastConfig after = Some params
  /\ (forall fuel',
         handleRetryVideo toLowerCase w env aistudio fuel' after
         = handleGenerateVideo toLowerCase w env aistudio fuel' params after)
  /\ App.initialFormValues (handleTryAgainFromVideoError after) = Some params
  /\ App.appState (handleTryAgainFromVideoError after) = IDLE
  /\ App.errorMessage (handleTryAgainFromVideoError after) = None.
Proof.
  intros Hk after.
  assert (H : App.lastConfig after = Some params).
  { subst after. unfold handleGenerateVideo. rewrite Hk.
    destruct (run fuel w (generateVideo env params)) as [tr [[e|r]|]];
      try reflexivity.
    destruct (classify toLowerCase (errorMessage e)) as [message [|]]; reflexivity. }
  split; [exact H|]. split.
  - intros fuel'. unfold handleRetryVideo. now rewrite H.
  - unfold handleTryAgainFromVideoError. rewrite H. repeat split.
Qed.

Lemma request_remembered_witness :
  let after :=
    snd (handleGenerateVideo Scenes.toLowerCase Samples.refusing Samples.env None 2
                             Samples.text_params App.initial) in
  App.appState after = ERROR
  /\ App.initialFormValues (handleTryAgainFromVideoError after)
     = Some Samples.text_params.
Proof.
  intros after. split; [reflexivity|].
  exact (proj1 (proj2 (proj2 (request_remembered
                                Scenes.toLowerCase Samples.refusing Samples.env None 2
                                Samples.text_params App.initial eq_refl)))).
Defined.

(** X18: what the user reads after a speech generation, once the key
    check has passed.  With an API key, a refused request is shown as
    "Audio generation failed: Failed to generate audio: " followed by the
    message of the refusal, a response without usable inline audio as that
    prefix followed by "Audio data not found in the API response.", and a
    success shows the data URL.  Without an API key what is shown is
    "Audio generation failed: " followed by the error of the constructor,
    with the one prefix.  In no case does the handler open the key
    dialog, whatever the message says. *)
Theorem audio_outcome_shown w env aistudio fuel params s :
  keyMissing aistudio = false ->
  let after := snd (handleGenerateAudio w env aistudio (2 + fuel) params s) in
  App.showApiKeyDialog after = App.showApiKeyDialog s
  /\ (forall key,
         ProcessEnv.API_KEY env = Some key ->
         match World.generateContent w (audioRequest params) with
         | inl error =>
           App.audioAppState after = ERROR
           /\ App.audioErrorMessage after
              = Some ("Audio generation failed: Failed to generate audio: "
                      ++ errorMessage error)%string
         | inr response =>
           match inline_audio response with
           | Some (base64Audio, mimeType) =>
             App.audioAppState after = SUCCESS
             /\ App.audioUrl after
                = Some ("data:" ++ mimeType ++ ";base64," ++ base64Audio)%string
           | None =>
             App.audioAppState after = ERROR
             /\ App.audioErrorMessage after
                = Some "Audio generation failed: Failed to generate audio: Audio data not found in the API response."
           end
         end)
  /\ (ProcessEnv.API_KEY env = None ->
      App.audioAppState after = ERROR
      /\ App.audioErrorMessage after
         = Some "Audio generation failed: An API Key must be set when running in a browser").
Proof.
  intros Hk after. subst after. unfold handleGenerateAudio, run. rewrite Hk.
  split; [|split].
  - destruct (exec (2 + fuel) w 0 (generateAudio env params))
      as [tr [[[[e|r] p] rest]|]]; reflexivity.
  - intros key Hkey. rewrite (exec_generateAudio w env params key _ _ Hkey).
    cbn [Nat.add option_map fst snd]. unfold spoken.
    destruct (World.generateContent w (audioRequest params)) as [e|response].
    + split; reflexivity.
    + destruct (inline_audio response) as [[base64Audio mimeType]|];
        split; reflexivity.
  - intros Hkey. rewrite (exec_generateAudio_no_key w env params _ _ Hkey).
    split; reflexivity.
Qed.

Lemma audio_outcome_shown_witness :
  let params := {| GenerateAudioParams.prompt := "Hello";
                   GenerateAudioParams.voice := "Zephyr" |} in
  App.audioErrorMessage
    (snd (handleGenerateAudio Scenes.mute Samples.env None 2 params App.initial))
  = Some "Audio generation failed: Failed to generate audio: API key not valid."
  /\ App.showApiKeyDialog
       (snd (handleGenerateAudio Scenes.mute Samples.env None 2 params App.initial))
     = false
  /\ App.audioUrl
       (snd (handleGenerateAudio Samples.third_time Samples.env None 2 params
                                 App.initial))
     = Some "data:audio/wav;base64,UklGRg"
  /\ App.audioErrorMessage
       (snd (handleGenerateAudio Scenes.mute Samples.no_key None 2 params App.initial))
     = Some "Audio generation failed: An API Key must be set when running in a browser".
Proof.
  intros params.
  destruct (audio_outcome_shown Scenes.mute Samples.env None 0 params App.initial
              eq_refl) as (Hd & Hkey & _).
  split; [exact (proj2 (Hkey "KEY" eq_refl))|]. split; [exact Hd|].
  destruct (audio_outcome_shown Samples.third_time Samples.env None 0 params
              App.initial eq_refl) as (_ & Hok & _).
  split; [exact (proj2 (Hok "KEY" eq_refl))|].
  destruct (audio_outcome_shown Scenes.mute Samples.no_key None 0 params App.initial
              eq_refl) as (_ & _ & Hnone).
  exact (proj2 (Hnone eq_refl)).
Defined.

(** X19: the handlers keep to the state of their own workflow.  None of
    [handleGenerateVideo], [handleRetryVideo], [handleNewVideo],
    [handleTryAgainFromVideoError] and [handleExtend] changes what the
    audio workflow shows; none of [handleGenerateAudio], [handleNewAudio]
    and [handleTryAgainFromAudioError] changes what the video workflow
    shows; and none of the eight changes the active tool. *)
Theorem workflows_independent
        P720 toLowerCase newFile w env aistudio fuel params audio s :
  (audio_part (snd (handleGenerateVideo toLowerCase w env aistudio fuel params s))
   = audio_part s
   /\ audio_part (snd (handleRetryVideo toLowerCase w env aistudio fuel s))
      = audio_part s
   /\ audio_part (handleNewVideo s) = audio_part s
   /\ audio_part (handleTryAgainFromVideoError s) = audio_part s
   /\ audio_part (handleExtend P720 newFile s) = audio_part s)
  /\ (video_part (snd (handleGenerateAudio w env aistudio fuel audio s)) = video_part s
      /\ video_part (handleNewAudio s) = video_part s
      /\ video_part (handleTryAgainFromAudioError s) = video_part s)
  /\ (App.activeTool
        (snd (handleGenerateVideo toLowerCase w env aistudio fuel params s))
      = App.activeTool s
      /\ App.activeTool (snd (handleRetryVideo toLowerCase w env aistudio fuel s))
         = App.activeTool s
      /\ App.activeTool (handleNewVideo s) = App.activeTool s
      /\ App.activeTool (handleTryAgainFromVideoError s) = App.activeTool s
      /\ App.activeTool (handleExtend P720 newFile s) = App.activeTool s
      /\ App.activeTool (snd (handleGenerateAudio w env aistudio fuel audio s))
         = App.activeTool s
      /\ App.activeTool (handleNewAudio s) = App.activeTool s
      /\ App.activeTool (handleTryAgainFromAudioError s) = App.activeTool s).
Proof.
  assert (V : forall p,
             audio_part (snd (handleGenerateVideo toLowerCase w env aistudio fuel p s))
             = audio_part s
             /\ App.activeTool
                  (snd (handleGenerateVideo toLowerCase w env aistudio fuel p s))
                = App.activeTool s).
  { intros p. unfold handleGenerateVideo.
    destruct (keyMissing aistudio); [split; reflexivity|].
    destruct (run fuel w (generateVideo env p)) as [tr [[e|r]|]];
      try (split; reflexivity).
    destruct (classify toLowerCase (errorMessage e)) as [message [|]];
      split; reflexivity. }
  assert (R : audio_part (snd (handleRetryVideo toLowerCase w env aistudio fuel s))
              = audio_part s
              /\ App.activeTool
                   (snd (handleRetryVideo toLowerCase w env aistudio fuel s))
                 = App.activeTool s).
  { unfold handleRetryVideo.
    destruct (App.lastConfig s); [apply V | split; reflexivity]. }
  assert (T : audio_part (handleTryAgainFromVideoError s) = audio_part s
              /\ App.activeTool (handleTryAgainFromVideoError s) = App.activeTool s).
  { unfold handleTryAgainFromVideoError.
    destruct (App.lastConfig s); split; reflexivity. }
  assert (E : audio_part (handleExtend P720 newFile s) = audio_part s
              /\ App.activeTool (handleExtend P720 newFile s) = App.activeTool s).
  { unfold handleExtend.
    destruct (App.lastConfig s), (App.lastVideoBlob s) as [blob|],
             (App.lastVideoObject s); try (split; reflexivity).
    destruct (newFile blob "last_video.mp4" (Blob.type blob)); split; reflexivity. }
  assert (A : video_part (snd (handleGenerateAudio w env aistudio fuel audio s))
              = video_part s
              /\ App.activeTool (snd (handleGenerateAudio w env aistudio fuel audio s))
                 = App.activeTool s).
  { unfold handleGenerateAudio.
    destruct (keyMissing aistudio); [split; reflexivity|].
    destruct (run fuel w (generateAudio env audio)) as [tr [[e|r]|]];
      split; reflexivity. }
  split; [|split].
  - split; [apply V|]. split; [apply R|]. split; [reflexivity|].
    split; [apply T | apply E].
  - split; [apply A|]. split; reflexivity.
  - split; [apply V|]. split; [apply R|]. split; [reflexivity|].
    split; [apply T|]. split; [apply E|]. split; [apply A|]. split; reflexivity.
Qed.

(** X20: through the form, the speech service is never called on a blank
    prompt: [handleSubmit] hands nothing to the generation handler.  A
    prompt that is not blank is sent as typed, white space at its ends
    included, once the key check has passed and the client is
    constructed. *)
Theorem blank_prompt_not_spoken w env aistudio fuel prompt voice s :
  let submit fuel :=
    match handleSubmit prompt voice with
    | Some params => handleGenerateAudio w env aistudio fuel params s
    | None => ([], s)
    end in
  (whitespace_only prompt = true -> submit fuel = ([], s))
  /\ (whitespace_only prompt = false ->
      keyMissing aistudio = false ->
      forall key,
        ProcessEnv.API_KEY env = Some key ->
        calls (fst (submit (S fuel)))
        = [CallGenerateContent
             (audioRequest {| GenerateAudioParams.prompt := prompt;
                              GenerateAudioParams.voice := voice |})]).
Proof.
  intros submit. subst submit. cbv beta. unfold handleSubmit.
  rewrite truthy_trim. split; intros Hw; rewrite Hw; cbn [negb].
  - reflexivity.
  - intros Hk key Hkey. unfold handleGenerateAudio, run.
    rewrite Hk, (exec_generateAudio w env _ key _ _ Hkey).
    destruct fuel as [|fuel]; [reflexivity|].
    destruct (spoken _) as [e|r]; reflexivity.
Qed.

Lemma blank_prompt_not_spoken_witness :
  whitespace_only "   " = true
  /\ handleSubmit "   " "Zephyr" = None
  /\ whitespace_only " Hello " = false
  /\ calls (fst match handleSubmit " Hello " "Zephyr" with
                | Some params =>
                  handleGenerateAudio Samples.third_time Samples.env None 1 params
                                      App.initial
                | None => ([], App.initial)
                end)
     = [CallGenerateContent (audioRequest (GenerateAudioParams.mk " Hello " "Zephyr"))].
Proof.
  split; [reflexivity|]. split; [reflexivity|]. split; [reflexivity|].
  exact (proj2 (blank_prompt_not_spoken Samples.third_time Samples.env None 0
                                        " Hello " "Zephyr" App.initial)
           eq_refl eq_refl "KEY" eq_refl).
Defined.

(** The calls of the handler are those of [generateVideo]. *)
Lemma handleGenerateVideo_calls toLowerCase w env aistudio fuel params s :
  keyMissing aistudio = false ->
  fst (handleGenerateVideo toLowerCase w env aistudio fuel params s)
  = fst (run fuel w (generateVideo env params)).
Proof.
  intros Hk. unfold handleGenerateVideo. rewrite Hk.
  destruct (run fuel w (generateVideo env params)) as [tr [[e|r]|]];
    try reflexivity.
  destruct (classify toLowerCase (errorMessage e)) as [message dialog].
  reflexivity.
Qed.

(** X21: a video request reaches the service exactly when the key check
    passes, [process.env.API_KEY] is defined and the request is one that
    [generateVideo] accepts; the first call is then the submission of its
    payload.  When [window.aistudio] reports that no key is selected, or
    the check throws, the handler only opens the key dialog: nothing is
    sent and the request is not remembered. *)
Theorem submitted_iff_key toLowerCase w env aistudio fuel params s :
  (fst (handleGenerateVideo toLowerCase w env aistudio (S fuel) params s) <> []
   <-> keyMissing aistudio = false
       /\ ProcessEnv.API_KEY env <> None
       /\ exists payload, buildPayload params = inr payload)
  /\ (forall payload,
         keyMissing aistudio = false ->
         ProcessEnv.API_KEY env <> None ->
         buildPayload params = inr payload ->
         exists tr,
           fst (handleGenerateVideo toLowerCase w env aistudio (S fuel) params s)
           = submitted w payload :: tr)
  /\ (keyMissing aistudio = true ->
      handleGenerateVideo toLowerCase w env aistudio (S fuel) params s
      = ([], App.set_showApiKeyDialog s true)).
Proof.
  assert (S1 : forall payload,
             keyMissing aistudio = false ->
             ProcessEnv.API_KEY env <> None ->
             buildPayload params = inr payload ->
             exists tr,
               fst (handleGenerateVideo toLowerCase w env aistudio (S fuel) params s)
               = submitted w payload :: tr).
  { intros payload Hk Hkey Hb. rewrite (handleGenerateVideo_calls _ _ _ _ _ _ _ Hk).
    destruct (ProcessEnv.API_KEY env) as [key|] eqn:Ekey; [|congruence].
    destruct (generateVideo_submits w env params payload key fuel Ekey Hb)
      as (tr & o & ->).
    exists tr. reflexivity. }
  split; [|split].
  - split.
    + destruct (keyMissing aistudio) eqn:Hk.
      * unfold handleGenerateVideo. rewrite Hk. intros H. now contradiction H.
      * rewrite (handleGenerateVideo_calls _ _ _ _ _ _ _ Hk). unfold run.
        destruct (ProcessEnv.API_KEY env) as [key|] eqn:Ekey.
        -- destruct (buildPayload params) as [e|payload] eqn:Hb.
           ++ rewrite (exec_generateVideo_refused w env _ _ _ _ _ Ekey Hb).
              intros H. now contradiction H.
           ++ intros _. split; [reflexivity|]. split; [discriminate | eauto].
        -- rewrite (exec_generateVideo_no_key w env _ _ _ Ekey).
           intros H. now contradiction H.
    + intros (Hk & Hkey & payload & Hb).
      destruct (S1 payload Hk Hkey Hb) as (tr & ->). discriminate.
  - exact S1.
  - intros Hk. unfold handleGenerateVideo. rewrite Hk. reflexivity.
Qed.

Lemma submitted_iff_key_witness :
  keyMissing (Some (inr false)) = true
  /\ handleGenerateVideo Scenes.toLowerCase Scenes.ready Samples.env
                         (Some (inr false)) 5 Samples.text_params App.initial
     = ([], App.set_showApiKeyDialog App.initial true)
  /\ keyMissing None = false
  /\ (exists tr,
         fst (handleGenerateVideo Scenes.toLowerCase Scenes.ready Samples.env
                                  None 5 Samples.text_params App.initial)
         = submitted Scenes.ready Samples.text_payload :: tr)
  /\ ~ fst (handleGenerateVideo Scenes.toLowerCase Scenes.ready Samples.env
                                None 5 Samples.extend_params App.initial) <> [].
Proof.
  split; [reflexivity|].
  split; [exact (proj2 (proj2 (submitted_iff_key
                                 Scenes.toLowerCase Scenes.ready Samples.env
                                 (Some (inr false)) 4 Samples.text_params App.initial))
                   eq_refl)|].
  split; [reflexivity|].
  split; [exact (proj1 (proj2 (submitted_iff_key
                                 Scenes.toLowerCase Scenes.ready Samples.env
                                 None 4 Samples.text_params App.initial))
                   Samples.text_payload eq_refl
                   ltac:(discriminate) eq_refl)|].
  intros H.
  destruct (proj1 (proj1 (submitted_iff_key
                            Scenes.toLowerCase Scenes.ready Samples.env
                            None 4 Samples.extend_params App.initial)) H)
    as (_ & _ & payload & Hb).
  discriminate Hb.
Defined.

(** X22: what is on the screen after a generation that succeeded.  When
    the object URL is not empty, the result view shows it, and its
    [canExtend] holds exactly when the request asked for the 720p
    resolution; a request prepared by Extend always does, so a video that
    was extended can be extended again.  When the object URL is empty, the
    result view is not shown: the error panel is, with "Video generated,
    but URL is missing. Please try again.". *)
Theorem extend_offered P720 toLowerCase w env aistudio fuel params s tr r :
  keyMissing aistudio = false ->
  run fuel w (generateVideo env params) = (tr, Some (inr r)) ->
  let shown := snd (handleGenerateVideo toLowerCase w env aistudio fuel params s) in
  (truthy (VideoResult.objectUrl r) = true ->
   renderVideoWorkflow P720 shown
   = VideoResultView (VideoResult.objectUrl r)
                     (String.eqb (GenerateVideoParams.resolution params) P720)
   /\ forall lastConfig videoFile lastVideoObject,
        params = extension P720 lastConfig videoFile lastVideoObject ->
        renderVideoWorkflow P720 shown
        = VideoResultView (VideoResult.objectUrl r) true)
  /\ (truthy (VideoResult.objectUrl r) = false ->
      renderVideoWorkflow P720 shown
      = ErrorView "Video generated, but URL is missing. Please try again.").
Proof.
  intros Hk Hrun shown.
  subst shown. unfold handleGenerateVideo. rewrite Hk, Hrun.
  unfold renderVideoWorkflow.
  cbn [snd App.appState App.videoUrl App.lastConfig
       App.set_appState App.set_errorMessage App.set_lastConfig
       App.set_initialFormValues App.set_videoUrl App.set_lastVideoBlob
       App.set_lastVideoObject].
  split; intros Hu; rewrite Hu; [|reflexivity].
  split; [reflexivity|].
  intros lastConfig videoFile lastVideoObject ->.
  cbn [extension GenerateVideoParams.resolution]. now rewrite String.eqb_refl.
Qed.

Lemma extend_offered_witness :
  renderVideoWorkflow "720p"
    (snd (handleGenerateVideo Scenes.toLowerCase Scenes.ready Samples.env None 5
                              Samples.text_params App.initial))
  = VideoResultView "blob:veo-studio/1" true
  /\ renderVideoWorkflow "1080p"
       (snd (handleGenerateVideo Scenes.toLowerCase Scenes.ready Samples.env None 5
                                 Samples.text_params App.initial))
     = VideoResultView "blob:veo-studio/1" false.
Proof.
  assert (H : { tr & { r |
               run 5 Scenes.ready (generateVideo Samples.env Samples.text_params)
               = (tr, Some (inr r))
               /\ VideoResult.objectUrl r = "blob:veo-studio/1" } })
    by (eexists; eexists; split; vm_compute; reflexivity).
  destruct H as (tr & r & Hrun & Hu).
  split.
  - rewrite <- Hu.
    refine (proj1 (proj1 (extend_offered "720p" Scenes.toLowerCase Scenes.ready
                            Samples.env None 5 Samples.text_params App.initial tr r
                            eq_refl Hrun) _)).
    rewrite Hu. reflexivity.
  - rewrite <- Hu.
    refine (proj1 (proj1 (extend_offered "1080p" Scenes.toLowerCase Scenes.ready
                            Samples.env None 5 Samples.text_params App.initial tr r
                            eq_refl Hrun) _)).
    rewrite Hu. reflexivity.
Defined.
